(** * inoliblist: a shallow embedding of the library detector, the fetch
      layer, the folder scanner and the row builder of [inoliblist.py], with
      the properties its specification states about them.

    Conventions of the embedding.
    - A Python [str] is a Rocq [string]; a character is an [ascii]
      (code points 0 to 255).  All patterns and file names of the
      configuration are ASCII.
    - A Python [int] is a [Z]; the clock is read in whole seconds.
    - [True] / [None] / [False] returned by [find_library] is an
      [option bool].
    - A raised exception is its class name and its text; an [except] clause
      compares class names.
    - Code that talks to the network, reads the clock or mutates the module
      globals is written in a state-and-exception monad.  The fetch layer
      runs over [Net], the scanner and the row builder over [World], which
      holds a [Net].  What the network answers and what the clock reads are
      functions of the number of earlier calls, given from outside.
    - A loop or a recursion that the source does not bound runs on fuel and
      ends in [Diverge] when the fuel is used up.
    - [print] and [logger] calls are left out; where the evaluation of their
      argument can raise or reads the clock, that evaluation is kept.
    - [normalize_url], the field extraction of the two metadata parsers and
      [repr] are parameters.
    - The counts of opened URLs and of clock readings, the event log and the
      record of API requests are the model's own; no function of the
      program reads them. *)

From Stdlib Require Import Strings.String Strings.Ascii Lists.List Bool.Bool.
From Stdlib Require Import ZArith.ZArith Arith.PeanoNat micromega.Lia.
From Stdlib Require DecimalString.
Import ListNotations.

Local Open Scope string_scope.
Local Open Scope list_scope.

(* ===================================================================== *)
(** ** Python string operations *)
(* ===================================================================== *)

Module PyStr.

(** [s.startswith(p)] *)
Fixpoint startswith (s p : string) {struct p} : bool :=
  match p with
  | EmptyString => true
  | String c p' =>
      match s with
      | EmptyString => false
      | String d s' => Ascii.eqb d c && startswith s' p'
      end
  end.

(** [s[n:]] for a non-negative [n] *)
Fixpoint drop (n : nat) (s : string) : string :=
  match n with
  | O => s
  | S n' => match s with
            | EmptyString => EmptyString
            | String _ s' => drop n' s'
            end
  end.

(** [s[:n]] for a non-negative [n] *)
Fixpoint take (n : nat) (s : string) : string :=
  match n with
  | O => EmptyString
  | S n' => match s with
            | EmptyString => EmptyString
            | String c s' => String c (take n' s')
            end
  end.

(** [s[-n:]]: the last [n] characters, the whole string when it is
    shorter than [n] *)
Definition last_chars (n : nat) (s : string) : string :=
  drop (String.length s - n) s.

(** [s.endswith(p)] *)
Definition endswith (s p : string) : bool :=
  (String.length p <=? String.length s)%nat
  && String.eqb (drop (String.length s - String.length p) s) p.

(** [s.find(p)]: the lowest index at which [p] occurs in [s], or [-1] *)
Fixpoint find (s p : string) : Z :=
  if startswith s p then 0%Z
  else match s with
       | EmptyString => (-1)%Z
       | String _ s' =>
           match find s' p with
           | Zneg _ => (-1)%Z
           | i => (i + 1)%Z
           end
       end.

(** Splitting at every character satisfying [sep]: [s.split(c)] for a
    one-character separator, [re.split("[...]", s)] for a character
    class.  The result is never empty. *)
Fixpoint split_on (sep : ascii -> bool) (s : string) : list string :=
  match s with
  | EmptyString => [EmptyString]
  | String c s' =>
      if sep c then EmptyString :: split_on sep s'
      else match split_on sep s' with
           | [] => [String c EmptyString]
           | w :: ws => String c w :: ws
           end
  end.

Definition split (s : string) (c : ascii) : list string :=
  split_on (Ascii.eqb c) s.

(** ASCII lower-casing, the case folding that [re.IGNORECASE] applies to
    the characters of the model *)
Definition lower (c : ascii) : ascii :=
  let n := nat_of_ascii c in
  if ((65 <=? n) && (n <=? 90))%nat then ascii_of_nat (n + 32) else c.

End PyStr.

(* ===================================================================== *)
(** ** Regular expressions: the fragment of [re] the configuration uses *)
(* ===================================================================== *)

Module Re.

(** One-character matchers. *)
Inductive atom : Type :=
| ALit (c : ascii)      (* a literal, compared ignoring case *)
| ADot                  (* [.]: anything but a newline *)
| ANotLit (c : ascii).  (* [[^c]] *)

Inductive regex : Type :=
| Eps
| Atom (a : atom)
| Star (a : atom)       (* [a*]: only one-character atoms are starred *)
| Bol                   (* [^] *)
| Eol                   (* [$] *)
| Seq (r1 r2 : regex)
| Alt (r1 r2 : regex).

Definition newline : ascii := ascii_of_nat 10.

Definition atom_matches (a : atom) (c : ascii) : bool :=
  match a with
  | ALit l => Ascii.eqb (PyStr.lower c) (PyStr.lower l)
  | ADot => negb (Ascii.eqb c newline)
  | ANotLit l => negb (Ascii.eqb (PyStr.lower c) (PyStr.lower l))
  end.

Definition at_eol (s : string) : bool :=
  match s with
  | EmptyString => true
  | String c EmptyString => Ascii.eqb c newline
  | _ => false
  end.

(** Backtracking matcher in continuation-passing style; [pos] is the
    number of characters consumed so far, [s] what is left. *)
Fixpoint star (a : atom) (k : nat -> string -> bool) (pos : nat) (s : string)
  : bool :=
  match s with
  | EmptyString => k pos s
  | String c s' =>
      (atom_matches a c && star a k (S pos) s') || k pos s
  end.

Fixpoint rmatch (r : regex) (pos : nat) (s : string)
         (k : nat -> string -> bool) : bool :=
  match r with
  | Eps => k pos s
  | Atom a =>
      match s with
      | EmptyString => false
      | String c s' => atom_matches a c && k (S pos) s'
      end
  | Star a => star a k pos s
  | Bol => (pos =? 0)%nat && k pos s
  | Eol => at_eol s && k pos s
  | Seq r1 r2 => rmatch r1 pos s (fun p t => rmatch r2 p t k)
  | Alt r1 r2 => rmatch r1 pos s k || rmatch r2 pos s k
  end.

(** [pattern.fullmatch(s)]: the match must end where the string ends. *)
Definition fullmatch_regex (r : regex) (s : string) : bool :=
  rmatch r 0 s (fun _ t => match t with EmptyString => true | _ => false end).

(** *** Reading a pattern.  [compile_alt fuel s] reads an alternation up to
    an unmatched [)] or the end of [s] and returns what is left. *)
Definition star_of (r : regex) : option regex :=
  match r with
  | Atom a => Some (Star a)
  | _ => None
  end.

Definition suffixed (r : regex) (rest : string) : option (regex * string) :=
  match rest with
  | String "*" rest' =>
      match star_of r with
      | Some r' => Some (r', rest')
      | None => None
      end
  | _ => Some (r, rest)
  end.

Fixpoint compile_alt (fuel : nat) (s : string) : option (regex * string) :=
  match fuel with
  | O => None
  | S fuel' =>
      let fix compile_seq (n : nat) (s : string) : option (regex * string) :=
        match n with
        | O => None
        | S n' =>
            let item :=
              match s with
              | EmptyString => None
              | String "|" _ => None
              | String ")" _ => None
              | String "^" rest => Some (Bol, rest)
              | String "$" rest => Some (Eol, rest)
              | String "." rest => suffixed (Atom ADot) rest
              | String "\" (String "." rest) => suffixed (Atom (ALit ".")) rest
              | String "[" (String "^" (String "\" (String c (String "]" rest)))) =>
                  suffixed (Atom (ANotLit c)) rest
              | String "(" rest =>
                  match compile_alt fuel' rest with
                  | Some (r, String ")" rest') => Some (r, rest')
                  | _ => None
                  end
              | String "\" _ | String "[" _ | String "]" _ | String "*" _
              | String "+" _ | String "?" _ | String "{" _ | String "}" _ => None
              | String c rest => suffixed (Atom (ALit c)) rest
              end in
            match item with
            | None => Some (Eps, s)
            | Some (r, rest) =>
                match compile_seq n' rest with
                | Some (Eps, rest') => Some (r, rest')
                | Some (r', rest') => Some (Seq r r', rest')
                | None => None
                end
            end
        end in
      match compile_seq fuel' s with
      | Some (r, String "|" rest) =>
          match compile_alt fuel' rest with
          | Some (r', rest') => Some (Alt r r', rest')
          | None => None
          end
      | other => other
      end
  end.

(** [re.compile(pattern, flags=re.IGNORECASE)]; [None] stands for a pattern
    outside the fragment. *)
Definition compile (pattern : string) : option regex :=
  match compile_alt (S (S (String.length pattern))) pattern with
  | Some (r, EmptyString) => Some r
  | _ => None
  end.

(** [re.compile(pattern, flags=re.IGNORECASE).fullmatch(s)] as a truth
    value. *)
Definition fullmatch (pattern s : string) : bool :=
  match compile pattern with
  | Some r => fullmatch_regex r s
  | None => false
  end.

End Re.

(* ===================================================================== *)
(** ** Configuration parameters *)
(* ===================================================================== *)

Definition rate_limit_reset_wait_notification_interval : Z := 300.
Definition rate_limit_reset_wait_additional_delay : Z := 180.

Definition check_rate_limiting_after_exception : string :=
  "HTTPError: HTTP Error 503".

Definition urlopen_retry_exceptions : list string :=
  [ "HTTPError: HTTP Error 403";
    "HTTPError: HTTP Error 502";
    check_rate_limiting_after_exception;
    "RemoteDisconnected";
    "ConnectionResetError";
    "ConnectionRefusedError";
    "<urlopen error [WinError 10061] No connection could be made because the target machine actively refused it>" ].

Definition urlopen_retry_delay : Z := 60.
Definition maximum_urlopen_retries : nat := 5.
Definition results_per_page : Z := 100.
Definition search_retry_delay : Z := 60.
Definition maximum_search_retries : nat := 10.

Definition repository_name_blacklist : list string :=
  [ "^arduino$"; "^arduino.*libs$"; "^arduino.*project.$";
    "^arduino.*libraries$"; "^arduino.*project.$"; "^libraries$";
    "^my.*arduino.*librar((y)|(ies)).*$"; ".*sketches.*"; ".*sketchbook.*" ].

Definition administrative_file_whitelist : list string :=
  [ "^\..*"; "^[^\.]*$"; "^.*\.adoc$"; "^.*\.bmp$"; "^.*\.fzz$"; "^.*\.html$";
    "^.*\.gif$"; "^.*\.jpeg$"; "^.*\.jpg$"; "^.*\.json$"; "^.*\.md$";
    "^.*\.mk$"; "^.*\.png$"; "^.*\.pdf$"; "^.*\.rst$"; "^.*\.sln$";
    "^.*\.textile$"; "^.*\.txt$"; "^thumbs.db$"; "^.*\.vcxproj$";
    "^.*\.vcxproj.filters$"; "^.*\.yaml$"; "^.*\.yml$"; "^.*\.zip$";
    "^platformio.ini$" ].

Definition header_file_extensions : list string :=
  [ ".h"; ".H"; ".hh"; ".Hh"; ".HH"; ".hpp"; ".Hpp"; ".HPP" ].

Definition examples_folder_names : list string :=
  [ "^examples$"; "^example$" ].

(** The second entry is the source's two adjacent literals
    [r"^3dmodel.$"  r"^android$"], which Python joins into one pattern. *)
Definition library_subfolder_blacklist : list string :=
  [ "^\..*"; "^3dmodel.$^android$"; "^android.app$"; "^androidapp$"; "^app$";
    "^apps$"; "^arduino.sketch.*"; "^arduinosketch.*"; "^assets$"; "^bin$";
    "^board$"; "^bom$"; "^bootloader.*"; "^cad$"; "^cmake.*"; "^compiled$";
    "^cores$"; "^data$"; ".*datasheet.*"; "^demo$"; "^demos$";
    "^dependencies$"; "^design$"; "^diagrams$"; "^doc$"; "^docs$";
    "^documentation$"; "^documents$"; "^eagle$"; "^etc$"; "^example$";
    "^examples$"; "^extra$"; "^extras$"; "^firmware$"; ".*fritzing.*";
    "^gerbers$"; "^graphics$"; "^hardware$"; "^html"; "^image$"; "^im.genes$";
    "^imagens$"; "^images$"; "^img$"; "^imgs$"; "^java$"; "^js$"; "^kicad.*";
    "^lib$"; "^matlab$"; "^media$"; "^misc$"; "^models$"; "^node\.js$";
    "^nodejs$"; "^openscad$"; "^other$"; "^pcb.*$"; "^pi$"; "^pdf.*$";
    "^photos$"; "^php$"; "^pics$"; "^pictures$"; "^presentation$";
    "^processing$"; "^projectsettings$"; "^python$"; "^python.code.*";
    "^python.script.*"; "^raspberry$"; "^raspberry.*pi$"; "^raspi$";
    "^readme.*$"; "^reference$"; "^references$"; "^report$"; "^resources$";
    "^rpi$"; "^ruby$"; "^samples$"; "^schematic.*"; "^screenshot.$";
    "^scripts$"; "^sketch$"; "^sketch_.*"; ".*sketchbook.*"; "^sketches$";
    "^slic3r$"; "^solidworks$"; "^stl$"; "^test$"; "^tests$"; "^tools$";
    "^unity$"; "^unitypackage.*"; "^utils$"; "^variants$"; "^web$";
    "^website$"; "^wiki$"; "^www" ].

Definition topic_blacklist : list string :=
  [ "arduino-sketch"; "mongoose-os"; "particle"; "particle-core";
    "particle-devices"; "particle-electron"; "particle-io"; "particle-photon" ].

(** [for regex in regexes: if re.compile(regex, IGNORECASE).fullmatch(name):
    flag = True; break] *)
Definition matches_any (regexes : list string) (name : string) : bool :=
  existsb (fun regex => Re.fullmatch regex name) regexes.

(* ===================================================================== *)
(** ** The library detector: [find_library] *)
(* ===================================================================== *)

(** An entry of a folder listing: the ["name"] and ["type"] keys of the
    object the contents API returns for it. *)
Record folder_item : Type := FolderItem {
  item_name : string;
  item_type : string
}.

Definition Found : option bool := Some true.
Definition NotFound : option bool := Some false.
Definition Inconclusive : option bool := None.

(** The six local flags of [find_library]. *)
Record flags : Type := Flags {
  metadata_file_found : bool;
  keywords_dot_txt_found : bool;
  header_file_found : bool;
  sketch_file_found : bool;
  examples_folder_found : bool;
  only_administrative_files_found : bool
}.

Definition initial_flags : flags :=
  Flags false false false false false true.

Definition has_header_extension (name : string) : bool :=
  existsb (fun header_file_extension =>
             PyStr.endswith name header_file_extension)
          header_file_extensions.

Definition is_sketch_name (name : string) : bool :=
  PyStr.endswith name ".ino" || PyStr.endswith name ".pde".

(** The first [if] of the loop body, run in both modes. *)
Definition scan_file (f : flags) (folder_item : folder_item) : flags :=
  let name := item_name folder_item in
  if String.eqb (item_type folder_item) "file" then
    if String.eqb name "library.properties" then
      Flags true (keywords_dot_txt_found f) (header_file_found f)
            (sketch_file_found f) (examples_folder_found f)
            (only_administrative_files_found f)
    else if String.eqb name "library.json" then
      Flags true (keywords_dot_txt_found f) (header_file_found f)
            (sketch_file_found f) (examples_folder_found f)
            (only_administrative_files_found f)
    else if String.eqb name "keywords.txt" then
      Flags (metadata_file_found f) true (header_file_found f)
            (sketch_file_found f) (examples_folder_found f)
            (only_administrative_files_found f)
    else
      Flags (metadata_file_found f) (keywords_dot_txt_found f)
            (header_file_found f || has_header_extension name)
            (sketch_file_found f) (examples_folder_found f)
            (only_administrative_files_found f)
  else f.

(** The checks under [if verify:] in the loop body. *)
Definition scan_verify (f : flags) (folder_item : folder_item) : flags :=
  let name := item_name folder_item in
  if String.eqb (item_type folder_item) "file" then
    Flags (metadata_file_found f) (keywords_dot_txt_found f)
          (header_file_found f)
          (sketch_file_found f || is_sketch_name name)
          (examples_folder_found f)
          (only_administrative_files_found f
           && matches_any administrative_file_whitelist name)
  else if String.eqb (item_type folder_item) "dir" then
    Flags (metadata_file_found f) (keywords_dot_txt_found f)
          (header_file_found f) (sketch_file_found f)
          (examples_folder_found f || matches_any examples_folder_names name)
          (only_administrative_files_found f)
  else f.

Definition scan_item (verify : bool) (f : flags) (folder_item : folder_item)
  : flags :=
  let f := scan_file f folder_item in
  if verify then scan_verify f folder_item else f.

Definition find_library (folder_listing : list folder_item) (verify : bool)
  : option bool :=
  let f := fold_left (scan_item verify) folder_listing initial_flags in
  if verify then
    if metadata_file_found f then Some true
    else if header_file_found f && negb (sketch_file_found f) then Some true
    else if header_file_found f && sketch_file_found f
            && (examples_folder_found f || keywords_dot_txt_found f)
         then Some true
    else if only_administrative_files_found f then None
    else Some false
  else
    if metadata_file_found f then Some true
    else if header_file_found f then Some true
    else Some false.

(** Every pattern of the configuration is in the fragment that is read. *)
Lemma configuration_patterns_compile :
  forallb (fun pattern => match Re.compile pattern with
                          | Some _ => true
                          | None => false
                          end)
          (repository_name_blacklist ++ administrative_file_whitelist
           ++ examples_folder_names ++ library_subfolder_blacklist)
  = true.
Proof. vm_compute. reflexivity. Qed.

Example administrative_files :
  map (matches_any administrative_file_whitelist)
      ["README.md"; "LICENSE"; ".gitignore"; "Thumbs.db"; "keywords.txt";
       "main.cpp"; "Talkie.h"; "sketch.ino"]
  = [true; true; true; true; true; false; false; false].
Proof. vm_compute. reflexivity. Qed.

Example blacklisted_subfolders :
  map (matches_any library_subfolder_blacklist)
      ["docs"; "Docs"; "examples"; ".github"; "firmware"; "html";
       "Talkie"; "src"; "android"; "htmlx"]
  = [true; true; true; true; true; true; false; false; false; false].
Proof. vm_compute. reflexivity. Qed.

Example header_and_sketch_fail_verification :
  find_library [FolderItem "main.ino" "file"; FolderItem "lib.h" "file"] true
  = NotFound.
Proof. vm_compute. reflexivity. Qed.

Example header_and_sketch_with_examples_pass :
  find_library [FolderItem "main.ino" "file"; FolderItem "lib.h" "file";
                FolderItem "Examples" "dir"] true
  = Found.
Proof. vm_compute. reflexivity. Qed.

Example administrative_root_is_inconclusive :
  find_library [FolderItem "README.md" "file"; FolderItem "LICENSE" "file"]
               true
  = Inconclusive.
Proof. vm_compute. reflexivity. Qed.

(** *** What a listing contains, stated over its entries *)

Definition is_file (it : folder_item) : Prop := item_type it = "file".
Definition is_dir (it : folder_item) : Prop := item_type it = "dir".

Definition metadata_file_present (l : list folder_item) : Prop :=
  exists it, In it l /\ is_file it /\
    (item_name it = "library.properties" \/ item_name it = "library.json").

Definition keywords_file_present (l : list folder_item) : Prop :=
  exists it, In it l /\ is_file it /\ item_name it = "keywords.txt".

Definition header_file_present (l : list folder_item) : Prop :=
  exists it, In it l /\ is_file it /\
    exists ext, In ext header_file_extensions /\
                PyStr.endswith (item_name it) ext = true.

Definition sketch_file_present (l : list folder_item) : Prop :=
  exists it, In it l /\ is_file it /\
    (PyStr.endswith (item_name it) ".ino" = true \/
     PyStr.endswith (item_name it) ".pde" = true).

Definition examples_folder_present (l : list folder_item) : Prop :=
  exists it, In it l /\ is_dir it /\
    exists regex, In regex examples_folder_names /\
                  Re.fullmatch regex (item_name it) = true.

Definition is_administrative_file (name : string) : Prop :=
  exists regex, In regex administrative_file_whitelist /\
                Re.fullmatch regex name = true.

Definition only_administrative_files (l : list folder_item) : Prop :=
  forall it, In it l -> is_file it -> is_administrative_file (item_name it).

(** The three ways to pass verification. *)
Definition passes_verification (l : list folder_item) : Prop :=
  metadata_file_present l
  \/ (header_file_present l /\ ~ sketch_file_present l)
  \/ (header_file_present l /\ sketch_file_present l /\
      (examples_folder_present l \/ keywords_file_present l)).

(** *** The loop of [find_library] in closed form *)

Definition file_b (it : folder_item) : bool := String.eqb (item_type it) "file".
Definition dir_b (it : folder_item) : bool := String.eqb (item_type it) "dir".

Definition metadata_b (it : folder_item) : bool :=
  file_b it && (String.eqb (item_name it) "library.properties"
                || String.eqb (item_name it) "library.json").
Definition keywords_b (it : folder_item) : bool :=
  file_b it && String.eqb (item_name it) "keywords.txt".
Definition header_b (it : folder_item) : bool :=
  file_b it && has_header_extension (item_name it).
Definition sketch_b (it : folder_item) : bool :=
  file_b it && is_sketch_name (item_name it).
Definition examples_b (it : folder_item) : bool :=
  dir_b it && matches_any examples_folder_names (item_name it).
Definition administrative_b (it : folder_item) : bool :=
  negb (file_b it) || matches_any administrative_file_whitelist (item_name it).

Lemma scan_item_closed verify f it :
  scan_item verify f it =
  Flags (metadata_file_found f || metadata_b it)
        (keywords_dot_txt_found f || keywords_b it)
        (header_file_found f || header_b it)
        (sketch_file_found f || (verify && sketch_b it))
        (examples_folder_found f || (verify && examples_b it))
        (only_administrative_files_found f && (negb verify || administrative_b it)).
Proof.
  destruct f as [m k h s e a].
  unfold scan_item, scan_file, scan_verify, metadata_b, keywords_b, header_b,
    sketch_b, examples_b, administrative_b, file_b, dir_b.
  destruct it as [name type]; cbn [item_name item_type].
  destruct (String.eqb type "file") eqn:Hfile.
  - apply String.eqb_eq in Hfile; subst type.
    destruct (String.eqb name "library.properties") eqn:H1;
      [apply String.eqb_eq in H1; subst name; destruct verify, m, k, h, s, e, a; reflexivity|].
    destruct (String.eqb name "library.json") eqn:H2;
      [apply String.eqb_eq in H2; subst name; destruct verify, m, k, h, s, e, a; reflexivity|].
    destruct (String.eqb name "keywords.txt") eqn:H3;
      [apply String.eqb_eq in H3; subst name; destruct verify, m, k, h, s, e, a; reflexivity|].
    cbn [metadata_file_found keywords_dot_txt_found header_file_found
         sketch_file_found examples_folder_found only_administrative_files_found].
    destruct verify; cbn;
      rewrite ?orb_false_r, ?andb_true_r, ?orb_false_l; reflexivity.
  - cbn [metadata_file_found keywords_dot_txt_found header_file_found
         sketch_file_found examples_folder_found only_administrative_files_found].
    destruct verify; cbn [andb orb negb];
      rewrite ?orb_false_r, ?andb_true_r; try reflexivity.
    destruct (String.eqb type "dir"); cbn;
      rewrite ?orb_false_r, ?andb_true_r; reflexivity.
Qed.

Lemma fold_scan_closed verify l : forall f,
  fold_left (scan_item verify) l f =
  Flags (metadata_file_found f || existsb metadata_b l)
        (keywords_dot_txt_found f || existsb keywords_b l)
        (header_file_found f || existsb header_b l)
        (sketch_file_found f || (verify && existsb sketch_b l))
        (examples_folder_found f || (verify && existsb examples_b l))
        (only_administrative_files_found f
         && (negb verify || forallb administrative_b l)).
Proof.
  induction l as [|it l IH]; intros f.
  - destruct f, verify; cbn; rewrite ?orb_false_r, ?andb_true_r; reflexivity.
  - cbn [fold_left existsb forallb]. rewrite IH, scan_item_closed.
    cbn [metadata_file_found keywords_dot_txt_found header_file_found
         sketch_file_found examples_folder_found only_administrative_files_found].
    f_equal; rewrite <- ?orb_assoc, <- ?andb_assoc; try reflexivity.
    + destruct verify; cbn; reflexivity.
    + destruct verify; cbn; reflexivity.
    + destruct verify; cbn; reflexivity.
Qed.

(** *** The closed form against the statements over entries *)

Lemma metadata_reflect l :
  existsb metadata_b l = true <-> metadata_file_present l.
Proof.
  rewrite existsb_exists. unfold metadata_file_present, metadata_b, file_b, is_file.
  split; intros (it & Hin & H); exists it; split; auto.
  - apply andb_true_iff in H as [Hf Hn]. apply String.eqb_eq in Hf.
    apply orb_true_iff in Hn. rewrite !String.eqb_eq in Hn. auto.
  - destruct H as [Hf Hn]. apply andb_true_iff. rewrite orb_true_iff.
    rewrite !String.eqb_eq. auto.
Qed.

Lemma keywords_reflect l :
  existsb keywords_b l = true <-> keywords_file_present l.
Proof.
  rewrite existsb_exists. unfold keywords_file_present, keywords_b, file_b, is_file.
  split; intros (it & Hin & H); exists it; split; auto.
  - apply andb_true_iff in H. rewrite !String.eqb_eq in H. exact H.
  - apply andb_true_iff. rewrite !String.eqb_eq. exact H.
Qed.

Lemma header_reflect l :
  existsb header_b l = true <-> header_file_present l.
Proof.
  rewrite existsb_exists.
  unfold header_file_present, header_b, file_b, is_file, has_header_extension.
  split; intros (it & Hin & H); exists it; split; auto.
  - apply andb_true_iff in H. rewrite String.eqb_eq, existsb_exists in H. exact H.
  - apply andb_true_iff. rewrite String.eqb_eq, existsb_exists. exact H.
Qed.

Lemma sketch_reflect l :
  existsb sketch_b l = true <-> sketch_file_present l.
Proof.
  rewrite existsb_exists.
  unfold sketch_file_present, sketch_b, file_b, is_file, is_sketch_name.
  split; intros (it & Hin & H); exists it; split; auto.
  - apply andb_true_iff in H. rewrite String.eqb_eq, orb_true_iff in H. exact H.
  - apply andb_true_iff. rewrite String.eqb_eq, orb_true_iff. exact H.
Qed.

Lemma examples_reflect l :
  existsb examples_b l = true <-> examples_folder_present l.
Proof.
  rewrite existsb_exists.
  unfold examples_folder_present, examples_b, dir_b, is_dir, matches_any.
  split; intros (it & Hin & H); exists it; split; auto.
  - apply andb_true_iff in H. rewrite String.eqb_eq, existsb_exists in H. exact H.
  - apply andb_true_iff. rewrite String.eqb_eq, existsb_exists. exact H.
Qed.

Lemma administrative_reflect l :
  forallb administrative_b l = true <-> only_administrative_files l.
Proof.
  rewrite forallb_forall.
  unfold only_administrative_files, administrative_b, file_b, is_file,
    is_administrative_file, matches_any.
  split; intros H it Hin.
  - intros Hf. specialize (H it Hin). apply String.eqb_eq in Hf.
    rewrite Hf in H. cbn [negb orb] in H. apply existsb_exists in H. exact H.
  - specialize (H it Hin).
    destruct (String.eqb (item_type it) "file") eqn:Hf; cbn [negb orb].
    + apply String.eqb_eq in Hf. apply existsb_exists. auto.
    + reflexivity.
Qed.

Lemma passes_verification_reflect l :
  (existsb metadata_b l
   || (existsb header_b l && negb (existsb sketch_b l))
   || (existsb header_b l && existsb sketch_b l
       && (existsb examples_b l || existsb keywords_b l))) = true
  <-> passes_verification l.
Proof.
  unfold passes_verification.
  rewrite <- metadata_reflect, <- header_reflect, <- sketch_reflect,
    <- examples_reflect, <- keywords_reflect.
  destruct (existsb metadata_b l), (existsb header_b l), (existsb sketch_b l),
    (existsb examples_b l), (existsb keywords_b l); cbn;
    intuition congruence.
Qed.

(** [find_library] with verification on, as one decision over the closed
    form of its flags. *)
Lemma find_library_verify_closed l :
  find_library l true =
  if existsb metadata_b l
     || (existsb header_b l && negb (existsb sketch_b l))
     || (existsb header_b l && existsb sketch_b l
         && (existsb examples_b l || existsb keywords_b l))
  then Found
  else if forallb administrative_b l then Inconclusive else NotFound.
Proof.
  unfold find_library. rewrite fold_scan_closed. cbn.
  destruct (existsb metadata_b l), (existsb header_b l), (existsb sketch_b l),
    (existsb examples_b l), (existsb keywords_b l), (forallb administrative_b l);
    reflexivity.
Qed.

Lemma find_library_no_verify_closed l :
  find_library l false =
  if existsb metadata_b l || existsb header_b l then Found else NotFound.
Proof.
  unfold find_library. rewrite fold_scan_closed. cbn.
  destruct (existsb metadata_b l), (existsb header_b l); reflexivity.
Qed.

(** C1. With verification on, [find_library] returns Found exactly when the
    listing has a metadata file, or a header file and no sketch file, or a
    header file, a sketch file and an examples folder or a keywords file;
    when none of these holds it returns Inconclusive exactly when every file
    of the listing matches the administrative whitelist, and NotFound
    otherwise. *)
Theorem find_library_verify_table (l : list folder_item) :
  (find_library l true = Found <-> passes_verification l)
  /\ (find_library l true = Inconclusive <->
      ~ passes_verification l /\ only_administrative_files l)
  /\ (find_library l true = NotFound <->
      ~ passes_verification l /\ ~ only_administrative_files l).
Proof.
  rewrite find_library_verify_closed.
  rewrite <- passes_verification_reflect, <- administrative_reflect.
  unfold Found, Inconclusive, NotFound.
  destruct (existsb metadata_b l
            || (existsb header_b l && negb (existsb sketch_b l))
            || (existsb header_b l && existsb sketch_b l
                && (existsb examples_b l || existsb keywords_b l)));
    destruct (forallb administrative_b l);
    repeat split; intros; try discriminate; try tauto;
    try (intuition congruence).
Qed.

(** C2. With verification off, [find_library] returns Found exactly when the
    listing has a metadata file or a file ending in a header-file extension,
    and NotFound otherwise; it never returns Inconclusive. *)
Theorem find_library_no_verify_table (l : list folder_item) :
  (find_library l false = Found <->
   metadata_file_present l \/ header_file_present l)
  /\ (find_library l false = NotFound <->
      ~ (metadata_file_present l \/ header_file_present l))
  /\ find_library l false <> Inconclusive.
Proof.
  rewrite find_library_no_verify_closed.
  rewrite <- metadata_reflect, <- header_reflect.
  unfold Found, Inconclusive, NotFound.
  destruct (existsb metadata_b l), (existsb header_b l); cbn;
    repeat split; intros; try discriminate; try tauto;
    try (intuition congruence).
Qed.

(** C10. On the empty listing [find_library] returns Inconclusive with
    verification on and NotFound with verification off. *)
Theorem find_library_empty_listing :
  find_library [] true = Inconclusive /\ find_library [] false = NotFound.
Proof. split; reflexivity. Qed.

(* ===================================================================== *)
(** ** Exceptions, results and the state monad *)
(* ===================================================================== *)

(** A raised exception: [exception.__class__.__name__] and [str(exception)].
    An [except C] clause is modelled by comparing the class name with [C]. *)
Record exn : Type := Exn {
  exn_class : string;
  exn_str : string
}.

(** How a call ends.  [Diverge] is the model's own: the fuel bounding a
    loop or a recursion that the source does not bound ran out. *)
Inductive result (A : Type) : Type :=
| Ok (a : A)
| Raise (e : exn)
| Diverge.
Arguments Ok {A} a.
Arguments Raise {A} e.
Arguments Diverge {A}.

Definition M (S A : Type) : Type := S -> result A * S.

Definition ret {S A : Type} (a : A) : M S A := fun s => (Ok a, s).

Definition bind {S A B : Type} (m : M S A) (f : A -> M S B) : M S B :=
  fun s =>
    match m s with
    | (Ok a, s') => f a s'
    | (Raise e, s') => (Raise e, s')
    | (Diverge, s') => (Diverge, s')
    end.

Definition raise {S A : Type} (e : exn) : M S A := fun s => (Raise e, s).
Definition diverge {S A : Type} : M S A := fun s => (Diverge, s).
Definition gets {S A : Type} (f : S -> A) : M S A := fun s => (Ok (f s), s).
Definition modify {S : Type} (f : S -> S) : M S unit := fun s => (Ok tt, f s).

(** [try: m  except Exception as e: handler e] *)
Definition try_except {S A : Type} (m : M S A) (handler : exn -> M S A)
  : M S A :=
  fun s =>
    match m s with
    | (Raise e, s') => handler e s'
    | other => other
    end.

(** [try: m  except (C1, ..., Cn): handler] *)
Definition try_except_classes {S A : Type} (m : M S A) (classes : list string)
           (handler : exn -> M S A) : M S A :=
  try_except m (fun e =>
    if existsb (String.eqb (exn_class e)) classes then handler e else raise e).

(** A value that a pure step either produces or raises on. *)
Definition lift_result {S A : Type} (r : result A) : M S A := fun s => (r, s).

Declare Scope monad_scope.
Delimit Scope monad_scope with monad.
Notation "x <- m ;; k" := (bind m (fun x => k))
  (at level 61, m at next level, right associativity) : monad_scope.
Notation "' pat <- m ;; k" :=
  (bind m (fun x => match x with pat => k end))
  (at level 61, pat pattern, m at next level, right associativity)
  : monad_scope.
Notation "m ;;; k" := (bind m (fun _ => k))
  (at level 61, right associativity) : monad_scope.
Local Open Scope monad_scope.

(* ===================================================================== *)
(** ** Decoded JSON *)
(* ===================================================================== *)

(** What [json.loads] returns.  An object is an association list whose
    first binding of a key is the one the [dict] holds.  Numbers are
    integers. *)
#[local] Set Warnings "-register-all".
Inductive json : Type :=
| JNull
| JBool (b : bool)
| JInt (z : Z)
| JStr (s : string)
| JList (l : list json)
| JDict (d : list (string * json)).

(** Python truth value: [if j:] *)
Definition truthy (j : json) : bool :=
  match j with
  | JNull => false
  | JBool b => b
  | JInt z => negb (z =? 0)%Z
  | JStr s => negb (String.eqb s "")
  | JList l => match l with [] => false | _ => true end
  | JDict d => match d with [] => false | _ => true end
  end.

Fixpoint lookup (key : string) (d : list (string * json)) : option json :=
  match d with
  | [] => None
  | (k, v) :: d' => if String.eqb k key then Some v else lookup key d'
  end.

Definition KeyError (key : string) : exn := Exn "KeyError" ("'" ++ key ++ "'").
Definition TypeError (msg : string) : exn := Exn "TypeError" msg.

(** [j[key]] for a string key *)
Definition subscript (j : json) (key : string) : result json :=
  match j with
  | JDict d => match lookup key d with
               | Some v => Ok v
               | None => Raise (KeyError key)
               end
  | _ => Raise (TypeError "indices must be integers or object is not subscriptable")
  end.

(** The fields of the API's payloads have the types the API documents; a
    field of another type raises where the model reads it.  This is the
    value of [j] where the program computes or compares with an integer: a
    [bool] counts as 0 or 1. *)
Definition py_number (j : json) : result Z :=
  match j with
  | JInt z => Ok z
  | JBool b => Ok (if b then 1 else 0)%Z
  | _ => Raise (TypeError "unsupported operand type for an integer operation")
  end.

Definition as_str (j : json) : result string :=
  match j with
  | JStr s => Ok s
  | _ => Raise (TypeError "a string is required")
  end.

(** [dict(j)]: an object is copied, an empty sequence gives the empty
    dict; anything else raises. *)
Definition dict (j : json) : result json :=
  match j with
  | JDict d => Ok (JDict d)
  | JList [] => Ok (JDict [])
  | JStr "" => Ok (JDict [])
  | JList _ | JStr _ =>
      Raise (Exn "ValueError" "dictionary update sequence element has the wrong length")
  | _ => Raise (TypeError "object is not iterable")
  end.

(** [str(n)] for an integer *)
Definition str_of_Z (n : Z) : string :=
  DecimalString.NilZero.string_of_int (Z.to_int n).

(* ===================================================================== *)
(** ** The network and the clock *)
(* ===================================================================== *)

(** The body of a response as [json.loads] sees it. *)
Inductive decoded : Type :=
| Decoded (json_data : json)
| Undecodable (msg : string).   (* [json.loads] raises JSONDecodeError *)

(** What [urlopen] hands back: the text of the body, what [json.loads]
    makes of it, and the two headers the program reads, the remaining count
    as the integer that [int] makes of it. *)
Record response : Type := Response {
  text : string;
  body : decoded;
  Link : option string;
  X_RateLimit_Remaining : option Z
}.

Inductive outcome : Type :=
| Opened (url_data : response)
| Failed (exception : exn).

Inductive api_type : Type := search | core.

Inductive net_event : Type :=
| Urlopen (url : string) (headers : list (string * string))
| Sleep (seconds : Z).

(** The module globals the fetch layer uses, and the model's record of
    what it did: how many times it opened a URL and read the clock, and the
    events in order (latest first). *)
Record Net : Type := MkNet {
  remaining_search : Z;      (* last_api_requests_remaining_value["search"] *)
  remaining_core : Z;        (* last_api_requests_remaining_value["core"] *)
  github_token : option string;
  opens : nat;
  ticks : nat;
  net_log : list net_event
}.

Definition remaining (api : api_type) (s : Net) : Z :=
  match api with
  | search => remaining_search s
  | core => remaining_core s
  end.

Definition set_remaining (api : api_type) (v : Z) (s : Net) : Net :=
  match api with
  | search => MkNet v (remaining_core s) (github_token s) (opens s) (ticks s)
                    (net_log s)
  | core => MkNet (remaining_search s) v (github_token s) (opens s) (ticks s)
                  (net_log s)
  end.

Definition quote : ascii := "034"%char.
Definition rel_next : string := ">; rel=" ++ String quote ("next" ++ String quote "").
Definition rel_last : string := ">; rel=" ++ String quote ("last" ++ String quote "").

(** [page_count] is the integer 0 or 1, or the text cut out of the Link
    header. *)
Inductive page_count_value : Type :=
| PageInt (n : Z)
| PageStr (s : string).

Record fetch_result : Type := FetchResult {
  json_data : json;
  additional_pages : bool;
  page_count : page_count_value
}.

(** [re.split("[?&>]", link)] *)
Definition is_parameter_delimiter (c : ascii) : bool :=
  Ascii.eqb c "?" || Ascii.eqb c "&" || Ascii.eqb c ">".

(** [for parameter in link: if parameter[:5] == "page=": ...; break] *)
Fixpoint page_parameter (parameters : list string) : page_count_value :=
  match parameters with
  | [] => PageInt 1
  | parameter :: rest =>
      if String.eqb (PyStr.take 5 parameter) "page=" then
        match PyStr.split parameter "=" with
        | _ :: value :: _ => PageStr value
        | _ => PageInt 1     (* not reached: the parameter holds an [=] *)
        end
      else page_parameter rest
  end.

(** [for link in Link.split(','): if link[-13:] == '>; rel="last"': ...; break] *)
Fixpoint last_link_page (links : list string) : page_count_value :=
  match links with
  | [] => PageInt 1
  | link :: rest =>
      if String.eqb (PyStr.last_chars 13 link) rel_last then
        page_parameter (PyStr.split_on is_parameter_delimiter link)
      else last_link_page rest
  end.

(** The [if not json_data: ... else: ...] block of [get_json_from_url]. *)
Definition pagination (json_data : json) (link_header : option string)
  : page_count_value * bool :=
  if negb (truthy json_data) then (PageInt 0, false)
  else
    match link_header with
    | None => (PageInt 1, false)
    | Some header =>
        (last_link_page (PyStr.split header ","),
         negb (PyStr.find header rel_next =? -1)%Z)
    end.

(* ===================================================================== *)
(** ** The fetch layer: [get_json_from_url], [determine_urlopen_retry],
       [check_rate_limiting], [get_github_api_response] *)
(* ===================================================================== *)

Definition log_event (e : net_event) (s : Net) : Net :=
  MkNet (remaining_search s) (remaining_core s) (github_token s) (opens s)
        (ticks s) (e :: net_log s).

Definition count_open (s : Net) : Net :=
  MkNet (remaining_search s) (remaining_core s) (github_token s) (S (opens s))
        (ticks s) (net_log s).

Definition count_tick (s : Net) : Net :=
  MkNet (remaining_search s) (remaining_core s) (github_token s) (opens s)
        (S (ticks s)) (net_log s).

Definition TimeoutError : exn :=
  Exn "TimeoutError" "Maximum number of URL load retries exceeded".

Definition api_github_com : string := "https://api.github.com".

(** [str(exception.__class__.__name__) + ": " + str(exception)] *)
Definition exception_string (exception : exn) : string :=
  exn_class exception ++ ": " ++ exn_str exception.

(** Whether the loop of [determine_urlopen_retry] finds a pattern the
    exception string starts with. *)
Definition is_retryable (exception : exn) : bool :=
  existsb (PyStr.startswith (exception_string exception))
          urlopen_retry_exceptions.

Definition is_throttling (exception : exn) : bool :=
  PyStr.startswith (exception_string exception)
                   check_rate_limiting_after_exception.

Definition rate_limit_url : string := "https://api.github.com/rate_limit".

Definition api_name (api : api_type) : string :=
  match api with search => "search" | core => "core" end.

(** [json_data["resources"][api][field]] *)
Definition resource_value (json_data : json) (api : api_type)
           (field : string) : result json :=
  match subscript json_data "resources" with
  | Ok resources =>
      match subscript resources (api_name api) with
      | Ok resource => subscript resource field
      | Raise e => Raise e
      | Diverge => Diverge
      end
  | Raise e => Raise e
  | Diverge => Diverge
  end.

(** The same where the program uses it as a number. *)
Definition resource_field (json_data : json) (api : api_type)
           (field : string) : result Z :=
  match resource_value json_data api field with
  | Ok value => py_number value
  | Raise e => Raise e
  | Diverge => Diverge
  end.

Section FetchLayer.

(** [normalize_url] rests on [urllib.parse]; it is a parameter here. *)
Variable normalize_url : string -> string.
(** What the [n]-th [urlopen] of the run answers for a URL and its
    request headers. *)
Variable network : nat -> string -> list (string * string) -> outcome.
(** The [n]-th reading of [time.time()], in whole seconds. *)
Variable clock : nat -> Z.

Definition time_time : M Net Z :=
  fun s => (Ok (clock (ticks s)), count_tick s).

Definition time_sleep (seconds : Z) : M Net unit :=
  modify (log_event (Sleep seconds)).

Definition urlopen (url : string) (headers : list (string * string))
  : M Net response :=
  fun s =>
    let s' := count_open (log_event (Urlopen url headers) s) in
    match network (opens s) url headers with
    | Opened url_data => (Ok url_data, s')
    | Failed exception => (Raise exception, s')
    end.

(** [determine_urlopen_retry], over the re-check it calls. *)
Definition recheck_if_throttled (check : api_type -> M Net unit)
           (exception : exn) : M Net unit :=
  if is_throttling exception then check core ;;; check search else ret tt.

Definition determine_urlopen_retry (check : api_type -> M Net unit)
           (exception : exn) : M Net bool :=
  if is_retryable exception then
    recheck_if_throttled check exception ;;;
    time_sleep urlopen_retry_delay ;;;
    ret true
  else ret false.

Definition request_headers (url : string) (token : option string)
  : list (string * string) :=
  if PyStr.startswith url api_github_com then
    ("Accept", "application/vnd.github.mercy-preview+json")
      :: match token with
         | Some t => [("Authorization", ("token " ++ t)%string)]
         | None => []
         end
  else [].

(** The body of the [try] in [get_json_from_url]: one attempt. *)
Definition attempt (url : string) : M Net fetch_result :=
  token <- gets github_token ;;
  url_data <- urlopen url (request_headers url token) ;;
  json_data <- match body url_data with
               | Decoded j => ret j
               | Undecodable msg => raise (Exn "JSONDecodeError" msg)
               end ;;
  let '(page_count, additional_pages) :=
    pagination json_data (Link url_data) in
  match X_RateLimit_Remaining url_data with
  | Some value =>
      if PyStr.startswith url api_github_com then
        if PyStr.startswith url "https://api.github.com/search"
        then modify (set_remaining search value)
        else modify (set_remaining core value)
      else ret tt
  | None => ret tt
  end ;;;
  ret (FetchResult json_data additional_pages page_count).

(** The [while retry_count <= maximum_urlopen_retries] loop, by the
    number of iterations it has left. *)
Fixpoint get_json_loop (check : api_type -> M Net unit) (url : string)
         (iterations : nat) : M Net fetch_result :=
  match iterations with
  | O => raise TimeoutError
  | S iterations' =>
      try_except (attempt url)
        (fun exception =>
           retry <- determine_urlopen_retry check exception ;;
           if retry then get_json_loop check url iterations'
           else raise exception)
  end.

(** [retry_count] runs from 0 to [maximum_urlopen_retries]. *)
Definition get_json_from_url_with (check : api_type -> M Net unit)
           (url : string) : M Net fetch_result :=
  get_json_loop check (normalize_url url) (S maximum_urlopen_retries).

(** The busy wait of [check_rate_limiting].  The [print] is left out; the
    clock readings of its argument and of the assignment after it are
    kept. *)
Fixpoint wait_for_reset (fuel : nat) (rate_limiting_reset_time : Z)
         (notification_timestamp : Z) : M Net unit :=
  match fuel with
  | O => diverge
  | S fuel' =>
      now <- time_time ;;
      if (now <? rate_limiting_reset_time)%Z then
        now' <- time_time ;;
        if (now' - notification_timestamp
            >? rate_limit_reset_wait_notification_interval)%Z then
          _ <- time_time ;;
          stamp <- time_time ;;
          wait_for_reset fuel' rate_limiting_reset_time stamp
        else wait_for_reset fuel' rate_limiting_reset_time
                            notification_timestamp
      else ret tt
  end.

Fixpoint check_rate_limiting (fuel : nat) (api : api_type) {struct fuel}
  : M Net unit :=
  match fuel with
  | O => diverge
  | S fuel' =>
      cached <- gets (remaining api) ;;
      if (cached =? 0)%Z then
        fetched <- get_json_from_url_with (check_rate_limiting fuel')
                                          rate_limit_url ;;
        json_data <- lift_result (dict (json_data fetched)) ;;
        core_remaining <-
          lift_result (resource_field json_data core "remaining") ;;
        modify (set_remaining core core_remaining) ;;;
        search_remaining <-
          lift_result (resource_field json_data search "remaining") ;;
        modify (set_remaining search search_remaining) ;;;
        reset <- lift_result (resource_field json_data api "reset") ;;
        let rate_limiting_reset_time :=
          (reset + rate_limit_reset_wait_additional_delay)%Z in
        _ <- lift_result (resource_value json_data api "limit") ;;
        actual <- gets (remaining api) ;;
        if (actual =? 0)%Z then
          wait_for_reset fuel' rate_limiting_reset_time 0 ;;;
          check_rate_limiting fuel' api
        else ret tt
      else ret tt
  end.

Definition get_json_from_url (fuel : nat) (url : string)
  : M Net fetch_result :=
  get_json_from_url_with (check_rate_limiting fuel) url.

Definition get_github_api_response (fuel : nat) (request : string)
           (request_parameters : string) (page_number : Z)
  : M Net fetch_result :=
  let api := if PyStr.startswith request "search" then search else core in
  check_rate_limiting fuel api ;;;
  get_json_from_url fuel
    ("https://api.github.com/" ++ request ++ "?" ++ request_parameters
     ++ "&page=" ++ str_of_Z page_number
     ++ "&per_page=" ++ str_of_Z results_per_page)%string.

End FetchLayer.

(* ===================================================================== *)
(** ** The retry policy of [get_json_from_url] *)
(* ===================================================================== *)

Section RetryPolicy.

Variable network : nat -> string -> list (string * string) -> outcome.
Variable check : api_type -> M Net unit.
Variable url : string.

(** One retry round, in the words of the policy: an attempt fails, the
    failure starts with a retryable pattern, and the fixed delay is slept
    before the next attempt; when the failure starts with the throttling
    pattern, the rate limit is checked first, for "core" and then for
    "search", and both checks return. *)
Inductive retry_round : Net -> Net -> Prop :=
| RetryAfterSleep s exception s1 :
    attempt network url s = (Raise exception, s1) ->
    is_retryable exception = true ->
    is_throttling exception = false ->
    retry_round s (log_event (Sleep urlopen_retry_delay) s1)
| RetryAfterRecheck s exception s1 s2 s3 :
    attempt network url s = (Raise exception, s1) ->
    is_retryable exception = true ->
    is_throttling exception = true ->
    check core s1 = (Ok tt, s2) ->
    check search s2 = (Ok tt, s3) ->
    retry_round s (log_event (Sleep urlopen_retry_delay) s3).

Inductive retried : nat -> Net -> Net -> Prop :=
| retried_O s : retried 0 s s
| retried_S k s s1 s2 :
    retry_round s s1 -> retried k s1 s2 -> retried (S k) s s2.

(** How the attempt after the last retry round ends the call: it
    succeeds; or it fails with something that starts with no retryable
    pattern, which is raised as it is; or it fails with the throttling
    pattern and one of the two rate-limit checks does not return, which
    ends the call the way the check ended. *)
Inductive last_attempt (s : Net) : result fetch_result -> Net -> Prop :=
| LastSuccess fetched s' :
    attempt network url s = (Ok fetched, s') ->
    last_attempt s (Ok fetched) s'
| LastPermanent exception s' :
    attempt network url s = (Raise exception, s') ->
    is_retryable exception = false ->
    last_attempt s (Raise exception) s'
| LastCoreCheckRaised exception s1 raised s' :
    attempt network url s = (Raise exception, s1) ->
    is_retryable exception = true ->
    is_throttling exception = true ->
    check core s1 = (Raise raised, s') ->
    last_attempt s (Raise raised) s'
| LastCoreCheckDiverged exception s1 s' :
    attempt network url s = (Raise exception, s1) ->
    is_retryable exception = true ->
    is_throttling exception = true ->
    check core s1 = (Diverge, s') ->
    last_attempt s Diverge s'
| LastSearchCheckRaised exception s1 s2 raised s' :
    attempt network url s = (Raise exception, s1) ->
    is_retryable exception = true ->
    is_throttling exception = true ->
    check core s1 = (Ok tt, s2) ->
    check search s2 = (Raise raised, s') ->
    last_attempt s (Raise raised) s'
| LastSearchCheckDiverged exception s1 s2 s' :
    attempt network url s = (Raise exception, s1) ->
    is_retryable exception = true ->
    is_throttling exception = true ->
    check core s1 = (Ok tt, s2) ->
    check search s2 = (Diverge, s') ->
    last_attempt s Diverge s'.

Lemma attempt_never_diverges s s' :
  attempt network url s <> (Diverge, s').
Proof.
  unfold attempt, bind, gets, urlopen, ret, raise, modify.
  destruct (network (opens s) url _) as [url_data|e]; [|discriminate].
  destruct (body url_data); [|discriminate].
  destruct (pagination _ _) as [pc ap].
  destruct (X_RateLimit_Remaining url_data); [|discriminate].
  destruct (PyStr.startswith url api_github_com); [|discriminate].
  destruct (PyStr.startswith url "https://api.github.com/search"); discriminate.
Qed.

(** A failed attempt has opened the URL once and done nothing else. *)
Lemma attempt_raise_state s exception s' :
  attempt network url s = (Raise exception, s') ->
  s' = count_open
         (log_event (Urlopen url (request_headers url (github_token s))) s).
Proof.
  unfold attempt, bind, gets, urlopen, ret, raise, modify.
  destruct (network (opens s) url _) as [url_data|e]; [|congruence].
  destruct (body url_data); [|congruence].
  destruct (pagination _ _) as [pc ap].
  destruct (X_RateLimit_Remaining url_data); [|discriminate].
  destruct (PyStr.startswith url api_github_com); [|discriminate].
  destruct (PyStr.startswith url "https://api.github.com/search"); discriminate.
Qed.

(** The re-check of [determine_urlopen_retry], case by case. *)
Lemma recheck_if_throttled_plain exception s :
  is_throttling exception = false ->
  recheck_if_throttled check exception s = (Ok tt, s).
Proof. intros Ht. unfold recheck_if_throttled. now rewrite Ht. Qed.

Lemma recheck_if_throttled_core exception s r s' :
  is_throttling exception = true ->
  check core s = (r, s') ->
  (forall u, r <> Ok u) ->
  recheck_if_throttled check exception s = (r, s').
Proof.
  intros Ht Hc Hr. unfold recheck_if_throttled. rewrite Ht.
  unfold bind. rewrite Hc. destruct r as [u|e|]; [now elim (Hr u) | reflexivity..].
Qed.

Lemma recheck_if_throttled_search exception s s1 r s' :
  is_throttling exception = true ->
  check core s = (Ok tt, s1) ->
  check search s1 = (r, s') ->
  recheck_if_throttled check exception s = (r, s').
Proof.
  intros Ht Hc Hs. unfold recheck_if_throttled. rewrite Ht.
  unfold bind. now rewrite Hc.
Qed.

Lemma retry_round_recheck s s1 :
  retry_round s s1 ->
  exists exception sa sb,
    attempt network url s = (Raise exception, sa)
    /\ is_retryable exception = true
    /\ recheck_if_throttled check exception sa = (Ok tt, sb)
    /\ s1 = log_event (Sleep urlopen_retry_delay) sb.
Proof.
  intros [s0 e sa Ha Hr Ht | s0 e sa sb sc Ha Hr Ht Hcore Hsearch].
  - exists e, sa, sa. repeat split; try assumption.
    now apply recheck_if_throttled_plain.
  - exists e, sa, sc. repeat split; try assumption.
    eapply recheck_if_throttled_search; eassumption.
Qed.

Lemma get_json_loop_round n s s1 :
  retry_round s s1 ->
  get_json_loop network check url (S n) s = get_json_loop network check url n s1.
Proof.
  intros H. apply retry_round_recheck in H as (e & sa & sb & Ha & Hr & Hc & ->).
  cbn [get_json_loop]. unfold try_except at 1. rewrite Ha.
  unfold determine_urlopen_retry. rewrite Hr.
  unfold bind at 1. unfold bind at 1. rewrite Hc.
  unfold bind at 1. reflexivity.
Qed.

Lemma get_json_loop_retried k : forall n s sk,
  retried k s sk ->
  get_json_loop network check url (k + n) s
  = get_json_loop network check url n sk.
Proof.
  induction k as [|k IH]; intros n s sk H; inversion H; subst.
  - reflexivity.
  - cbn [Nat.add]. erewrite get_json_loop_round by eassumption. now apply IH.
Qed.

(** An attempt that fails retryably and whose re-check does not return
    ends the loop the way the re-check ended. *)
Lemma get_json_loop_recheck_stops n s exception s1 r s' :
  attempt network url s = (Raise exception, s1) ->
  is_retryable exception = true ->
  recheck_if_throttled check exception s1 = (r, s') ->
  (forall u, r <> Ok u) ->
  get_json_loop network check url (S n) s
  = (match r with Raise raised => Raise raised | _ => Diverge end, s').
Proof.
  intros Ha Hr Hc Hn. cbn [get_json_loop]. unfold try_except at 1. rewrite Ha.
  unfold determine_urlopen_retry. rewrite Hr.
  unfold bind at 1. unfold bind at 1. rewrite Hc.
  destruct r as [u|raised|]; [now elim (Hn u) | reflexivity..].
Qed.

Lemma get_json_loop_last n s res s' :
  last_attempt s res s' ->
  get_json_loop network check url (S n) s = (res, s').
Proof.
  intros H.
  destruct H as [r s' Ha | e s' Ha Hr
                | e s1 raised s' Ha Hr Ht Hc | e s1 s' Ha Hr Ht Hc
                | e s1 s2 raised s' Ha Hr Ht Hc Hs
                | e s1 s2 s' Ha Hr Ht Hc Hs].
  - cbn [get_json_loop]. unfold try_except at 1. now rewrite Ha.
  - cbn [get_json_loop]. unfold try_except at 1. rewrite Ha.
    unfold determine_urlopen_retry. now rewrite Hr.
  - apply (get_json_loop_recheck_stops n s e s1 (Raise raised) s' Ha Hr);
      [|discriminate].
    eapply recheck_if_throttled_core; [eassumption..|discriminate].
  - apply (get_json_loop_recheck_stops n s e s1 Diverge s' Ha Hr);
      [|discriminate].
    eapply recheck_if_throttled_core; [eassumption..|discriminate].
  - apply (get_json_loop_recheck_stops n s e s1 (Raise raised) s' Ha Hr);
      [|discriminate].
    eapply recheck_if_throttled_search; eassumption.
  - apply (get_json_loop_recheck_stops n s e s1 Diverge s' Ha Hr);
      [|discriminate].
    eapply recheck_if_throttled_search; eassumption.
Qed.

(** Every run of the loop is some retry rounds followed by a last
    attempt, or as many retry rounds as the loop has iterations. *)
Lemma get_json_loop_decompose n : forall s res s',
  get_json_loop network check url n s = (res, s') ->
  exists k sk,
    retried k s sk /\
    ((k = n /\ res = Raise TimeoutError /\ s' = sk)
     \/ ((k < n)%nat /\ last_attempt sk res s')).
Proof.
  induction n as [|n IH]; intros s res s' H.
  - cbn in H. inversion H; subst. exists 0%nat, s'. split; [constructor|].
    left. auto.
  - cbn [get_json_loop] in H. unfold try_except at 1 in H.
    destruct (attempt network url s) as [[r|e|] s1] eqn:Ha.
    + inversion H; subst. exists 0%nat, s. split; [constructor|].
      right. split; [lia|]. now constructor.
    + unfold determine_urlopen_retry in H.
      destruct (is_retryable e) eqn:Hr.
      * unfold bind at 1 in H. unfold bind at 1 in H.
        unfold recheck_if_throttled in H.
        destruct (is_throttling e) eqn:Ht.
        -- unfold bind at 1 in H.
           destruct (check core s1) as [[[]|raised|] s2] eqn:Hcore.
           ++ destruct (check search s2) as [[[]|raised|] s3] eqn:Hsearch.
              ** unfold bind at 1 in H. cbn [time_sleep modify ret] in H.
                 apply IH in H as (k & sk & Hk & Hend).
                 exists (S k), sk. split.
                 --- econstructor; [eapply RetryAfterRecheck; eassumption
                                   | exact Hk].
                 --- destruct Hend as [(-> & -> & ->) | (Hlt & Hl)];
                       [left; auto | right; split; [lia | exact Hl]].
              ** inversion H; subst. exists 0%nat, s. split; [constructor|].
                 right. split; [lia|].
                 eapply LastSearchCheckRaised; eassumption.
              ** inversion H; subst. exists 0%nat, s. split; [constructor|].
                 right. split; [lia|].
                 eapply LastSearchCheckDiverged; eassumption.
           ++ inversion H; subst. exists 0%nat, s. split; [constructor|].
              right. split; [lia|]. eapply LastCoreCheckRaised; eassumption.
           ++ inversion H; subst. exists 0%nat, s. split; [constructor|].
              right. split; [lia|]. eapply LastCoreCheckDiverged; eassumption.
        -- cbn [ret] in H. unfold bind at 1 in H.
           cbn [time_sleep modify ret] in H.
           apply IH in H as (k & sk & Hk & Hend).
           exists (S k), sk. split.
           ++ econstructor; [eapply RetryAfterSleep; eassumption | exact Hk].
           ++ destruct Hend as [(-> & -> & ->) | (Hlt & Hl)];
                [left; auto | right; split; [lia | exact Hl]].
      * cbn in H. inversion H; subst. exists 0%nat, s. split; [constructor|].
        right. split; [lia|]. now constructor.
    + exfalso. eapply attempt_never_diverges. exact Ha.
Qed.

End RetryPolicy.

(** The state after [n] failed opens of [url], each followed by the sleep
    of the retry delay. *)
Fixpoint after_failed_opens (url : string) (n : nat) (s : Net) : Net :=
  match n with
  | O => s
  | S n' =>
      after_failed_opens url n'
        (log_event (Sleep urlopen_retry_delay)
           (count_open
              (log_event (Urlopen url (request_headers url (github_token s)))
                         s)))
  end.

Lemma after_failed_opens_opens url n : forall s,
  opens (after_failed_opens url n s) = (opens s + n)%nat.
Proof.
  induction n as [|n IH]; intros s; cbn [after_failed_opens].
  - lia.
  - rewrite IH. cbn. lia.
Qed.

(** When the next [n] answers for the URL are failures that start with a
    retryable pattern other than the throttling one, the loop goes through
    [n] retry rounds: [n] opens and [n] sleeps, nothing else. *)
Lemma retried_failed_opens
      (network : nat -> string -> list (string * string) -> outcome)
      (check : api_type -> M Net unit) (url : string) (n : nat) : forall s,
  (forall i, (i < n)%nat ->
     exists exception,
       network (opens s + i)%nat url (request_headers url (github_token s))
       = Failed exception
       /\ is_retryable exception = true
       /\ is_throttling exception = false) ->
  retried network check url n s (after_failed_opens url n s).
Proof.
  induction n as [|n IH]; intros s H; cbn [after_failed_opens].
  - constructor.
  - destruct (H 0%nat ltac:(lia)) as (e & He & Hr & Ht).
    rewrite Nat.add_0_r in He.
    eapply retried_S.
    + eapply RetryAfterSleep with (exception := e).
      * unfold attempt, bind, gets, urlopen. rewrite He. reflexivity.
      * exact Hr.
      * exact Ht.
    + apply IH. intros i Hi. cbn [opens github_token log_event count_open].
      destruct (H (S i) ltac:(lia)) as (e' & He' & Hr' & Ht').
      exists e'. split; [|auto]. rewrite <- He'. f_equal. lia.
Qed.

(** So six such failures in a row end the call with TimeoutError after six
    opens and six sleeps. *)
Lemma get_json_from_url_gives_up
      (normalize_url : string -> string)
      (network : nat -> string -> list (string * string) -> outcome)
      (clock : nat -> Z) (fuel : nat) (url : string) (s : Net) :
  (forall i, (i < S maximum_urlopen_retries)%nat ->
     exists exception,
       network (opens s + i)%nat (normalize_url url)
               (request_headers (normalize_url url) (github_token s))
       = Failed exception
       /\ is_retryable exception = true
       /\ is_throttling exception = false) ->
  get_json_from_url normalize_url network clock fuel url s
  = (Raise TimeoutError,
     after_failed_opens (normalize_url url) (S maximum_urlopen_retries) s).
Proof.
  intros H. unfold get_json_from_url, get_json_from_url_with.
  replace (S maximum_urlopen_retries)
    with (S maximum_urlopen_retries + 0)%nat at 1 by lia.
  erewrite get_json_loop_retried
    by (apply retried_failed_opens; exact H).
  reflexivity.
Qed.

(** C5. [get_json_from_url] retries only after a failure whose description
    starts with a retryable pattern: every run is a number of retry rounds
    followed by a last attempt, and in each round the fixed delay is slept,
    after [check_rate_limiting] has run for "core" and for "search" when the
    pattern is the throttling one.  A failure that matches no pattern is
    raised to the caller at once, with nothing done after the failed open;
    and when every one of the [maximum_urlopen_retries + 1] attempts fails
    retryably it raises TimeoutError. *)
Theorem get_json_from_url_retry_policy
        (normalize_url : string -> string)
        (network : nat -> string -> list (string * string) -> outcome)
        (clock : nat -> Z) (fuel : nat) (url : string) (s : Net) :
  let check := check_rate_limiting normalize_url network clock fuel in
  let u := normalize_url url in
  let run := get_json_from_url normalize_url network clock fuel url s in
  (forall k sk, retried network check u k s sk ->
     (k <= maximum_urlopen_retries)%nat ->
     forall exception s',
       attempt network u sk = (Raise exception, s') ->
       is_retryable exception = false ->
       run = (Raise exception, s')
       /\ s' = count_open
                 (log_event (Urlopen u (request_headers u (github_token sk))) sk))
  /\ (forall sk, retried network check u (S maximum_urlopen_retries) s sk ->
        run = (Raise TimeoutError, sk))
  /\ (forall res s', run = (res, s') ->
        exists k sk,
          retried network check u k s sk /\
          ((k = S maximum_urlopen_retries /\ res = Raise TimeoutError /\ s' = sk)
           \/ ((k <= maximum_urlopen_retries)%nat
               /\ last_attempt network check u sk res s'))).
Proof.
  intros check u run. subst run. unfold get_json_from_url, get_json_from_url_with.
  fold check. fold u. repeat split.
  - replace (S maximum_urlopen_retries)
      with (k + S (maximum_urlopen_retries - k))%nat by lia.
    erewrite get_json_loop_retried by eassumption.
    apply get_json_loop_last. now constructor.
  - eapply attempt_raise_state; eassumption.
  - intros sk H.
    replace (S maximum_urlopen_retries)
      with (S maximum_urlopen_retries + 0)%nat by lia.
    erewrite get_json_loop_retried by eassumption. reflexivity.
  - intros res s' H. apply get_json_loop_decompose in H as (k & sk & Hk & Hend).
    exists k, sk. split; [exact Hk|].
    destruct Hend as [H1 | (Hlt & Hl)]; [left; exact H1 | right].
    split; [lia | exact Hl].
Qed.

(* ===================================================================== *)
(** ** Pagination metadata of a successful fetch *)
(* ===================================================================== *)

(** *** Facts about the string operations *)

Lemma startswith_app s p :
  PyStr.startswith s p = true <-> exists rest, s = (p ++ rest)%string.
Proof.
  revert s. induction p as [|c p IH]; intros s; cbn.
  - split; [intros _; now exists s | reflexivity].
  - destruct s as [|d s].
    + split; [discriminate | intros [rest H]; discriminate].
    + rewrite andb_true_iff, Ascii.eqb_eq, IH. split.
      * intros [-> [rest ->]]. now exists rest.
      * intros [rest H]. inversion H; subst. split; [reflexivity | now exists rest].
Qed.

Lemma find_lower_bound s p : (-1 <= PyStr.find s p)%Z.
Proof.
  induction s as [|c s IH]; cbn.
  - destruct (PyStr.startswith "" p); lia.
  - destruct (PyStr.startswith (String c s) p); [lia|].
    destruct (PyStr.find s p); lia.
Qed.

(** [p] occurs in [s]. *)
Definition occurs_in (p s : string) : Prop :=
  exists before after, s = (before ++ p ++ after)%string.

Lemma find_occurs s p :
  PyStr.find s p <> (-1)%Z <-> occurs_in p s.
Proof.
  unfold occurs_in. induction s as [|c s IH]; cbn.
  - destruct (PyStr.startswith "" p) eqn:E.
    + apply startswith_app in E as [rest E]. split; [|discriminate].
      intros _. now exists ""%string, rest.
    + split; [congruence|]. intros (before & after & H).
      destruct before; [|discriminate]. cbn in H.
      assert (PyStr.startswith "" p = true)
        by (apply startswith_app; now exists after).
      congruence.
  - destruct (PyStr.startswith (String c s) p) eqn:E.
    + apply startswith_app in E as [rest E]. split; [|discriminate].
      intros _. now exists ""%string, rest.
    + assert (Hstep : (match PyStr.find s p with
                       | Zneg _ => (-1)%Z | i => (i + 1)%Z end) <> (-1)%Z
                      <-> PyStr.find s p <> (-1)%Z).
      { pose proof (find_lower_bound s p).
        destruct (PyStr.find s p) as [|q|q]; split; intros; lia. }
      rewrite Hstep, IH. split.
      * intros (before & after & ->). now exists (String c before), after.
      * intros (before & after & H). destruct before as [|d before].
        -- cbn in H.
           assert (PyStr.startswith (String c s) p = true)
             by (apply startswith_app; now exists after).
           congruence.
        -- cbn in H. inversion H; subst. now exists before, after.
Qed.

Lemma string_eqb_length a b :
  String.eqb a b = true -> String.length a = String.length b.
Proof. intros H. apply String.eqb_eq in H. now subst. Qed.

Lemma drop_length n : forall s,
  String.length (PyStr.drop n s) = (String.length s - n)%nat.
Proof.
  induction n as [|n IH]; intros s; cbn.
  - lia.
  - destruct s; cbn; [reflexivity | apply IH].
Qed.

(** [link[-n:] == p] is [link.endswith(p)] when [p] has [n] characters. *)
Lemma last_chars_endswith s p :
  String.eqb (PyStr.last_chars (String.length p) s) p = PyStr.endswith s p.
Proof.
  unfold PyStr.last_chars, PyStr.endswith.
  destruct (String.length p <=? String.length s)%nat eqn:E; cbn [andb].
  - reflexivity.
  - apply Nat.leb_gt in E.
    destruct (String.eqb _ p) eqn:E'; [|reflexivity].
    apply string_eqb_length in E'. rewrite drop_length in E'. lia.
Qed.

(** [s[:n] == p] is [s.startswith(p)] when [p] has [n] characters. *)
Lemma take_startswith p : forall s,
  String.eqb (PyStr.take (String.length p) s) p = PyStr.startswith s p.
Proof.
  induction p as [|c p IH]; intros s; cbn.
  - reflexivity.
  - destruct s as [|d s]; cbn; [reflexivity|].
    rewrite IH. reflexivity.
Qed.

(** The characters of [s] before the first one satisfying [sep]. *)
Fixpoint before_first (sep : ascii -> bool) (s : string) : string :=
  match s with
  | EmptyString => EmptyString
  | String c s' => if sep c then EmptyString else String c (before_first sep s')
  end.

Lemma split_on_head sep s :
  exists rest, PyStr.split_on sep s = before_first sep s :: rest.
Proof.
  induction s as [|c s [rest IH]]; cbn.
  - now exists [].
  - destruct (sep c).
    + now eexists.
    + rewrite IH. now eexists.
Qed.

(** *** The page of the [last] relation, in the words of the claim *)

(** The first link of the header that ends in the [last] relation, its
    first parameter that starts with [page=], and of that parameter the
    text after [page=] up to the next [=]. *)
Definition last_relation_page (link_header : option string) : option string :=
  match link_header with
  | None => None
  | Some header =>
      match List.find (fun link => PyStr.endswith link rel_last)
                      (PyStr.split header ",") with
      | None => None
      | Some link =>
          match List.find (fun parameter => PyStr.startswith parameter "page=")
                          (PyStr.split_on is_parameter_delimiter link) with
          | None => None
          | Some parameter =>
              Some (before_first (Ascii.eqb "=") (PyStr.drop 5 parameter))
          end
      end
  end.

Definition has_next_relation (link_header : option string) : Prop :=
  exists header, link_header = Some header /\ occurs_in rel_next header.

Lemma page_value_split parameter :
  PyStr.startswith parameter "page=" = true ->
  exists rest,
    PyStr.split parameter "="
    = "page"%string
        :: before_first (Ascii.eqb "=") (PyStr.drop 5 parameter) :: rest.
Proof.
  intros H. apply startswith_app in H as [tail ->].
  unfold PyStr.split. cbn.
  destruct (split_on_head (Ascii.eqb "=") tail) as [rest ->].
  now exists rest.
Qed.

Lemma page_parameter_spec parameters :
  page_parameter parameters =
  match List.find (fun parameter => PyStr.startswith parameter "page=")
                  parameters with
  | Some parameter =>
      PageStr (before_first (Ascii.eqb "=") (PyStr.drop 5 parameter))
  | None => PageInt 1
  end.
Proof.
  induction parameters as [|parameter rest IH]; cbn [page_parameter List.find].
  - reflexivity.
  - change 5%nat with (String.length "page=") at 1.
    rewrite take_startswith.
    destruct (PyStr.startswith parameter "page=") eqn:E; [|exact IH].
    destruct (page_value_split parameter E) as [tl ->]. reflexivity.
Qed.

Lemma last_link_page_spec header :
  last_link_page (PyStr.split header ",") =
  match last_relation_page (Some header) with
  | Some page => PageStr page
  | None => PageInt 1
  end.
Proof.
  unfold last_relation_page.
  induction (PyStr.split header ",") as [|link rest IH];
    cbn [last_link_page List.find].
  - reflexivity.
  - change 13%nat with (String.length rel_last).
    rewrite last_chars_endswith.
    destruct (PyStr.endswith link rel_last); [|exact IH].
    rewrite page_parameter_spec.
    destruct (List.find _ (PyStr.split_on is_parameter_delimiter link));
      reflexivity.
Qed.

(** What a successful attempt returns, in terms of the response. *)
Lemma attempt_ok network url s fetched s' :
  attempt network url s = (Ok fetched, s') ->
  exists url_data,
    network (opens s) url (request_headers url (github_token s))
    = Opened url_data
    /\ body url_data = Decoded (json_data fetched)
    /\ (page_count fetched, additional_pages fetched)
       = pagination (json_data fetched) (Link url_data).
Proof.
  unfold attempt, bind, gets, urlopen, ret, raise, modify.
  destruct (network (opens s) url _) as [url_data|e]; [|discriminate].
  intros H. exists url_data. split; [reflexivity|].
  destruct (body url_data) as [j|msg]; [|discriminate].
  destruct (pagination j (Link url_data)) as [pc ap] eqn:Hp.
  assert (fetched = FetchResult j ap pc) as ->.
  { destruct (X_RateLimit_Remaining url_data);
      [destruct (PyStr.startswith url api_github_com);
       [destruct (PyStr.startswith url "https://api.github.com/search")|]|];
      inversion H; reflexivity. }
  cbn. rewrite Hp. auto.
Qed.

(** A successful fetch returns the decoded body of a response the network
    gave for the URL, with the pagination read off that response. *)
Lemma get_json_from_url_ok_response
      (normalize_url : string -> string)
      (network : nat -> string -> list (string * string) -> outcome)
      (check : api_type -> M Net unit) (url : string) (s s' : Net)
      (fetched : fetch_result) :
  get_json_from_url_with normalize_url network check url s = (Ok fetched, s') ->
  exists url_data n headers,
    network n (normalize_url url) headers = Opened url_data
    /\ body url_data = Decoded (json_data fetched)
    /\ (page_count fetched, additional_pages fetched)
       = pagination (json_data fetched) (Link url_data).
Proof.
  intros H. unfold get_json_from_url_with in H.
  apply get_json_loop_decompose in H as (k & sk & _ & Hend).
  destruct Hend as [(_ & Hres & _) | (_ & Hl)]; [discriminate|].
  inversion Hl as [r s0 Ha | | | | | ]; subst.
  apply attempt_ok in Ha as (url_data & Hnet & Hbody & Hpag).
  now exists url_data, (opens sk),
    (request_headers (normalize_url url) (github_token sk)).
Qed.

(** C8. For every successful fetch: a falsy decoded body gives
    [additional_pages = False] and [page_count = 0]; any other body gives
    [additional_pages = True] exactly when the Link header contains the
    [next] relation, and a [page_count] that is the page cut out of the
    [last] relation when there is one and the integer 1 otherwise. *)
Theorem get_json_from_url_pagination
        (normalize_url : string -> string)
        (network : nat -> string -> list (string * string) -> outcome)
        (clock : nat -> Z) (fuel : nat) (url : string) (s s' : Net)
        (fetched : fetch_result) :
  get_json_from_url normalize_url network clock fuel url s = (Ok fetched, s') ->
  exists url_data n headers,
    network n (normalize_url url) headers = Opened url_data
    /\ body url_data = Decoded (json_data fetched)
    /\ (truthy (json_data fetched) = false ->
        additional_pages fetched = false /\ page_count fetched = PageInt 0)
    /\ (truthy (json_data fetched) = true ->
        (additional_pages fetched = true <-> has_next_relation (Link url_data))
        /\ page_count fetched
           = match last_relation_page (Link url_data) with
             | Some page => PageStr page
             | None => PageInt 1
             end).
Proof.
  intros H. unfold get_json_from_url in H.
  apply get_json_from_url_ok_response
    in H as (url_data & n & headers & Hnet & Hbody & Hpag).
  exists url_data, n, headers.
  split; [exact Hnet|]. split; [exact Hbody|].
  unfold pagination in Hpag. split.
  - intros Ht. rewrite Ht in Hpag. cbn in Hpag. inversion Hpag. auto.
  - intros Ht. rewrite Ht in Hpag. cbn [negb] in Hpag.
    unfold has_next_relation.
    destruct (Link url_data) as [header|].
    + injection Hpag as Hpc Hap. split.
      * rewrite Hap, negb_true_iff, Z.eqb_neq, find_occurs. split.
        -- intros Ho. now exists header.
        -- intros (h & Hh & Ho). inversion Hh; subst. exact Ho.
      * rewrite Hpc. apply last_link_page_spec.
    + injection Hpag as Hpc Hap. split; [|exact Hpc].
      rewrite Hap. split; [discriminate|]. intros (h & Hh & _). discriminate.
Qed.

(* ===================================================================== *)
(** ** [check_rate_limiting] releases its caller only with budget left *)
(* ===================================================================== *)

Section RateLimiter.

Variable normalize_url : string -> string.
Variable network : nat -> string -> list (string * string) -> outcome.
Variable clock : nat -> Z.

(** The state after a wait that ended at a clock reading not before
    [rate_limiting_reset_time]: only the count of clock readings moved. *)
Definition waited_until (rate_limiting_reset_time : Z) (s s' : Net) : Prop :=
  (ticks s < ticks s')%nat
  /\ (rate_limiting_reset_time <= clock (pred (ticks s')))%Z
  /\ remaining_search s' = remaining_search s
  /\ remaining_core s' = remaining_core s
  /\ github_token s' = github_token s
  /\ opens s' = opens s
  /\ net_log s' = net_log s.

Lemma waited_until_tick reset_time s s' :
  waited_until reset_time (count_tick s) s' -> waited_until reset_time s s'.
Proof.
  unfold waited_until. cbn. intros (? & ? & ? & ? & ? & ? & ?).
  repeat split; try assumption. lia.
Qed.

Lemma wait_for_reset_ok fuel : forall reset_time stamp s s',
  wait_for_reset clock fuel reset_time stamp s = (Ok tt, s') ->
  waited_until reset_time s s'.
Proof.
  induction fuel as [|fuel IH]; intros T stamp s s' H; [discriminate|].
  cbn [wait_for_reset] in H. unfold bind at 1 in H.
  cbn [time_time] in H.
  destruct (clock (ticks s) <? T)%Z eqn:Hnow.
  - unfold bind at 1 in H. cbn [time_time] in H.
    destruct (_ >? _)%Z.
    + unfold bind at 1 in H. cbn [time_time] in H.
      unfold bind at 1 in H. cbn [time_time] in H.
      apply IH in H. do 4 apply waited_until_tick. exact H.
    + apply IH in H. do 2 apply waited_until_tick. exact H.
  - inversion H; subst. apply Z.ltb_ge in Hnow.
    unfold waited_until. cbn. repeat split; [lia | exact Hnow].
Qed.

(** The cached counts after the authoritative ones were fetched from the
    rate-limit endpoint and stored for both classes. *)
Definition refreshed (api : api_type) (s s2 : Net) (reset : Z) : Prop :=
  exists fuel fetched s1 payload core_remaining search_remaining,
    get_json_from_url normalize_url network clock fuel rate_limit_url s
    = (Ok fetched, s1)
    /\ dict (json_data fetched) = Ok payload
    /\ resource_field payload core "remaining" = Ok core_remaining
    /\ resource_field payload search "remaining" = Ok search_remaining
    /\ resource_field payload api "reset" = Ok reset
    /\ s2 = set_remaining search search_remaining
              (set_remaining core core_remaining s1).

(** The ways [check_rate_limiting] lets its caller go on. *)
Inductive released (api : api_type) : Net -> Net -> Prop :=
| ReleasedCached s :
    remaining api s <> 0%Z ->
    released api s s
| ReleasedRefreshed s s2 reset :
    remaining api s = 0%Z ->
    refreshed api s s2 reset ->
    remaining api s2 <> 0%Z ->
    released api s s2
| ReleasedWaited s s2 reset s3 s' :
    remaining api s = 0%Z ->
    refreshed api s s2 reset ->
    remaining api s2 = 0%Z ->
    waited_until (reset + rate_limit_reset_wait_additional_delay) s2 s3 ->
    released api s3 s' ->
    released api s s'.

Lemma lift_result_ok {A : Type} (r : result A) (s : Net) a s' :
  lift_result r s = (Ok a, s') -> r = Ok a /\ s' = s.
Proof. unfold lift_result. intros H. inversion H. auto. Qed.

Lemma check_rate_limiting_released fuel : forall api s s',
  check_rate_limiting normalize_url network clock fuel api s = (Ok tt, s') ->
  released api s s'.
Proof.
  induction fuel as [|fuel IH]; intros api s s' H; [discriminate|].
  cbn [check_rate_limiting] in H. unfold bind at 1 in H. cbn [gets] in H.
  destruct (remaining api s =? 0)%Z eqn:Hc.
  2:{ inversion H; subst. apply ReleasedCached. now apply Z.eqb_neq. }
  apply Z.eqb_eq in Hc.
  unfold bind at 1 in H.
  destruct (get_json_from_url_with _ _ _ _ s) as [[fetched|e|] s1] eqn:Hf;
    try discriminate.
  unfold bind at 1 in H.
  destruct (lift_result (dict (json_data fetched)) s1) as [[payload|e|] t] eqn:Hd;
    try discriminate.
  apply lift_result_ok in Hd as [Hd ->].
  unfold bind at 1 in H.
  destruct (lift_result (resource_field payload core "remaining") s1)
    as [[c|e|] t] eqn:H1; try discriminate.
  apply lift_result_ok in H1 as [H1 ->].
  unfold bind at 1 in H. cbn [modify] in H.
  unfold bind at 1 in H.
  destruct (lift_result (resource_field payload search "remaining") _)
    as [[sr|e|] t] eqn:H2; try discriminate.
  apply lift_result_ok in H2 as [H2 ->].
  unfold bind at 1 in H. cbn [modify] in H.
  unfold bind at 1 in H.
  destruct (lift_result (resource_field payload api "reset") _)
    as [[reset|e|] t] eqn:H3; try discriminate.
  apply lift_result_ok in H3 as [H3 ->].
  unfold bind at 1 in H.
  destruct (lift_result (resource_value payload api "limit") _)
    as [[limit|e|] t] eqn:H4; try discriminate.
  apply lift_result_ok in H4 as [H4 ->].
  unfold bind at 1 in H. cbn [gets] in H.
  set (s2 := set_remaining search sr (set_remaining core c s1)) in *.
  assert (Hr : refreshed api s s2 reset).
  { exists fuel, fetched, s1, payload, c, sr. repeat split; assumption. }
  destruct (remaining api s2 =? 0)%Z eqn:Ha.
  - apply Z.eqb_eq in Ha. unfold bind at 1 in H.
    destruct (wait_for_reset clock fuel _ 0 s2) as [[[]|e|] s3] eqn:Hw;
      try discriminate.
    apply wait_for_reset_ok in Hw. apply IH in H.
    eapply ReleasedWaited; eassumption.
  - apply Z.eqb_neq in Ha. inversion H; subst s'.
    eapply ReleasedRefreshed; eassumption.
Qed.

(** With budget cached the check returns at once and does nothing. *)
Lemma check_rate_limiting_cached fuel api s :
  remaining api s <> 0%Z ->
  check_rate_limiting normalize_url network clock (S fuel) api s = (Ok tt, s).
Proof.
  intros H. cbn [check_rate_limiting]. unfold bind at 1. cbn [gets].
  apply Z.eqb_neq in H. rewrite H. reflexivity.
Qed.

(** The remaining counts the rate-limit endpoint reports are never
    negative. *)
Definition budgets_nonnegative : Prop :=
  forall n headers url_data payload api value,
    network n (normalize_url rate_limit_url) headers = Opened url_data ->
    body url_data = Decoded payload ->
    forall resources,
      dict payload = Ok resources ->
      resource_field resources api "remaining" = Ok value ->
      (0 <= value)%Z.

Lemma refreshed_nonnegative api s s2 reset :
  budgets_nonnegative -> refreshed api s s2 reset ->
  (0 <= remaining api s2)%Z.
Proof.
  intros Hb (fuel & fetched & s1 & payload & c & sr
             & Hf & Hd & Hc & Hs & _ & ->).
  apply get_json_from_url_ok_response
    in Hf as (url_data & n & headers & Hnet & Hbody & _).
  destruct api; cbn.
  - eapply Hb; eassumption.
  - eapply Hb; eassumption.
Qed.

Lemma released_positive api s s' :
  budgets_nonnegative -> (0 <= remaining api s)%Z ->
  released api s s' -> (0 < remaining api s')%Z.
Proof.
  intros Hb H0 Hrel. induction Hrel as [s Hc | s s2 reset Hc Hr Ha
                                       | s s2 reset s3 s' Hc Hr Ha Hw Hrel IH].
  - lia.
  - pose proof (refreshed_nonnegative _ _ _ _ Hb Hr). lia.
  - apply IH. destruct Hw as (_ & _ & Hs & Hco & _).
    destruct api; cbn in *; lia.
Qed.

End RateLimiter.

(** C6. [check_rate_limiting] returns only with a cached remaining count
    above zero for its class.  When the cached count is 0 it fetches the
    authoritative counts from the rate-limit endpoint and stores them for
    both classes; when the authoritative count is 0 too it waits until the
    clock reads no less than the reset time plus the additional delay, and
    then goes through the same check again, the cached count still 0,
    before it returns. *)
Theorem check_rate_limiting_releases_with_budget
        (normalize_url : string -> string)
        (network : nat -> string -> list (string * string) -> outcome)
        (clock : nat -> Z) (fuel : nat) (api : api_type) (s s' : Net) :
  budgets_nonnegative normalize_url network ->
  (0 <= remaining api s)%Z ->
  check_rate_limiting normalize_url network clock fuel api s = (Ok tt, s') ->
  (0 < remaining api s')%Z
  /\ released normalize_url network clock api s s'.
Proof.
  intros Hb H0 H. apply check_rate_limiting_released in H.
  split; [eapply released_positive; eassumption | exact H].
Qed.

(* ===================================================================== *)
(** ** The table and the scanner's world *)
(* ===================================================================== *)

Module Column.
Definition repository_url : nat := 0.
Definition repository_owner : nat := 1.
Definition repository_name : nat := 2.
Definition repository_default_branch : nat := 3.
Definition library_path : nat := 4.
Definition archived : nat := 5.
Definition is_fork : nat := 6.
Definition fork_of : nat := 7.
Definition last_push_date : nat := 8.
Definition fork_count : nat := 9.
Definition star_count : nat := 10.
Definition contributor_count : nat := 11.
Definition tip_status : nat := 12.
Definition repository_license : nat := 13.
Definition repository_language : nat := 14.
Definition repository_description : nat := 15.
Definition github_topics : nat := 16.
Definition in_library_manager_index : nat := 17.
Definition library_manager_name : nat := 18.
Definition library_manager_version : nat := 19.
Definition library_manager_author : nat := 20.
Definition library_manager_maintainer : nat := 21.
Definition library_manager_sentence : nat := 22.
Definition library_manager_paragraph : nat := 23.
Definition library_manager_category : nat := 24.
Definition library_manager_url : nat := 25.
Definition library_manager_architectures : nat := 26.
Definition platformio_name : nat := 27.
Definition platformio_description : nat := 28.
Definition platformio_keywords : nat := 29.
Definition platformio_authors : nat := 30.
Definition platformio_repository : nat := 31.
Definition platformio_version : nat := 32.
Definition platformio_license : nat := 33.
Definition platformio_download_url : nat := 34.
Definition platformio_homepage : nat := 35.
Definition platformio_frameworks : nat := 36.
Definition platformio_platforms : nat := 37.
Definition count : nat := 38.
End Column.

(** A row of the table: a Python list of cells. *)
Definition row : Type := list string.

(** [row_list[column]] *)
Definition cell (column : nat) (row_list : row) : string :=
  nth column row_list "".

(** [row_list[column] = value]; out of range it raises IndexError. *)
Fixpoint set_cell (column : nat) (value : string) (row_list : row)
  : result row :=
  match row_list, column with
  | [], _ => Raise (Exn "IndexError" "list assignment index out of range")
  | _ :: rest, O => Ok (value :: rest)
  | c :: rest, S column' =>
      match set_cell column' value rest with
      | Ok rest' => Ok (c :: rest')
      | Raise e => Raise e
      | Diverge => Diverge
      end
  end.

(** [str.isspace] on a character of the model *)
Definition isspace (c : ascii) : bool :=
  let n := nat_of_ascii c in
  ((9 <=? n) && (n <=? 13) || (28 <=? n) && (n <=? 32)
   || (n =? 133) || (n =? 160))%nat.

Fixpoint lstrip (s : string) : string :=
  match s with
  | EmptyString => EmptyString
  | String c s' => if isspace c then lstrip s' else s
  end.

(** [s.rstrip()]: a character stays when it is not a space or something
    that stays follows it. *)
Fixpoint rstrip (s : string) : string :=
  match s with
  | EmptyString => EmptyString
  | String c s' =>
      match rstrip s' with
      | EmptyString => if isspace c then EmptyString else String c EmptyString
      | kept => String c kept
      end
  end.

(** [s.strip()] *)
Definition strip (s : string) : string := rstrip (lstrip s).

Definition tab : ascii := "009"%char.

(** [s.replace('\t', "    ")] *)
Fixpoint replace_tabs (s : string) : string :=
  match s with
  | EmptyString => EmptyString
  | String c s' =>
      if Ascii.eqb c tab then ("    " ++ replace_tabs s')%string
      else String c (replace_tabs s')
  end.

(** [cell.replace('\t', "    ").strip()] *)
Definition clean_cell (c : string) : string := strip (replace_tabs c).

(** The module globals of the scanner on top of the fetch layer's, the two
    append-only list files, and the model's record of the calls of
    [get_github_api_response]: request and page number, in order. *)
Record World : Type := MkWorld {
  net : Net;
  table : list row;
  source_count : Z;
  non_blacklisted_source_count : Z;
  non_blacklisted_unique_source_count : Z;
  verification_failed_list : list string;
  non_library_folders_list : list string;
  api_requests : list (string * Z)
}.

Definition with_net (n : Net) (w : World) : World :=
  MkWorld n (table w) (source_count w) (non_blacklisted_source_count w)
          (non_blacklisted_unique_source_count w) (verification_failed_list w)
          (non_library_folders_list w) (api_requests w).

(** Running a computation of the fetch layer in the world. *)
Definition lift_net {A : Type} (m : M Net A) : M World A :=
  fun w => let '(r, n) := m (net w) in (r, with_net n w).

Definition record_request (request : string) (page_number : Z) (w : World)
  : World :=
  MkWorld (net w) (table w) (source_count w) (non_blacklisted_source_count w)
          (non_blacklisted_unique_source_count w) (verification_failed_list w)
          (non_library_folders_list w)
          (api_requests w ++ [(request, page_number)]).

Definition write_non_library_folder (name : string) (w : World) : World :=
  MkWorld (net w) (table w) (source_count w) (non_blacklisted_source_count w)
          (non_blacklisted_unique_source_count w) (verification_failed_list w)
          (non_library_folders_list w ++ [name]) (api_requests w).

Definition write_verification_failed (url : string) (w : World) : World :=
  MkWorld (net w) (table w) (source_count w) (non_blacklisted_source_count w)
          (non_blacklisted_unique_source_count w)
          (verification_failed_list w ++ [url])
          (non_library_folders_list w) (api_requests w).

Definition table_append (row_list : row) (w : World) : World :=
  MkWorld (net w) (table w ++ [row_list]) (source_count w)
          (non_blacklisted_source_count w)
          (non_blacklisted_unique_source_count w) (verification_failed_list w)
          (non_library_folders_list w) (api_requests w).

Definition count_source (w : World) : World :=
  MkWorld (net w) (table w) (source_count w + 1)
          (non_blacklisted_source_count w)
          (non_blacklisted_unique_source_count w) (verification_failed_list w)
          (non_library_folders_list w) (api_requests w).

Definition count_non_blacklisted (w : World) : World :=
  MkWorld (net w) (table w) (source_count w)
          (non_blacklisted_source_count w + 1)
          (non_blacklisted_unique_source_count w) (verification_failed_list w)
          (non_library_folders_list w) (api_requests w).

Definition count_unique (w : World) : World :=
  MkWorld (net w) (table w) (source_count w)
          (non_blacklisted_source_count w)
          (non_blacklisted_unique_source_count w + 1)
          (verification_failed_list w)
          (non_library_folders_list w) (api_requests w).

(** [obj[key]] where the program uses it as a string. *)
Definition str_field (obj : json) (key : string) : result string :=
  match subscript obj key with
  | Ok v => as_str v
  | Raise e => Raise e
  | Diverge => Diverge
  end.

(** [list(json_data)] *)
Definition py_list (j : json) : result (list json) :=
  match j with
  | JList l => Ok l
  | JDict d => Ok (map (fun kv => JStr (fst kv)) d)
  | JStr s => Ok (map (fun c => JStr (String c EmptyString))
                      (list_ascii_of_string s))
  | _ => Raise (TypeError "object is not iterable")
  end.

(** An entry of a listing as [find_library] and the subfolder loop read it.
    The entry is read when the listing is taken: one without a ["type"] or
    a ["name"] raises here, where Python raises at the first use.  A
    ["type"] that is not a string is no type the program knows. *)
Definition folder_item_of_json (j : json) : result folder_item :=
  match subscript j "type" with
  | Ok t =>
      match str_field j "name" with
      | Ok name =>
          Ok (FolderItem name match t with JStr s => s | _ => "" end)
      | Raise e => Raise e
      | Diverge => Diverge
      end
  | Raise e => Raise e
  | Diverge => Diverge
  end.

Fixpoint folder_items (l : list json) : result (list folder_item) :=
  match l with
  | [] => Ok []
  | j :: rest =>
      match folder_item_of_json j with
      | Ok it =>
          match folder_items rest with
          | Ok its => Ok (it :: its)
          | Raise e => Raise e
          | Diverge => Diverge
          end
      | Raise e => Raise e
      | Diverge => Diverge
      end
  end.

(* ===================================================================== *)
(** ** The folder scanner: [find_library_folder] and what it calls *)
(* ===================================================================== *)

Section Scanner.

Variable normalize_url : string -> string.
Variable network : nat -> string -> list (string * string) -> outcome.
Variable clock : nat -> Z.

(** The field extraction of the two metadata parsers is outside the
    properties stated here and is a parameter: what the parser writes
    into the row from the text of library.properties, and from the
    decoded library.json (where it may raise). *)
Variable fill_library_dot_properties : string -> row -> row.
Variable fill_library_dot_json : json -> row -> result row.

(** [get_github_api_response], its call recorded. *)
Definition api_response (fuel : nat) (request : string)
           (request_parameters : string) (page_number : Z)
  : M World fetch_result :=
  modify (record_request request page_number) ;;;
  lift_net (get_github_api_response normalize_url network clock fuel
              request request_parameters page_number).

Definition raw_file_url (repository_object : json) (path : string)
  : result string :=
  match str_field repository_object "full_name" with
  | Ok full_name =>
      match str_field repository_object "default_branch" with
      | Ok default_branch =>
          Ok ("https://raw.githubusercontent.com/" ++ full_name ++ "/"
              ++ default_branch ++ "/" ++ path)%string
      | Raise e => Raise e
      | Diverge => Diverge
      end
  | Raise e => Raise e
  | Diverge => Diverge
  end.

(** The loop of [parse_library_dot_properties].  Falling off the loop
    returns [None], which its callers read as false. *)
Fixpoint parse_properties_loop (fuel : nat) (url : string) (row_list : row)
         (iterations : nat) : M Net (bool * row) :=
  match iterations with
  | O => ret (false, row_list)
  | S iterations' =>
      try_except
        (url_data <- urlopen network url [] ;;
         ret (true, fill_library_dot_properties (text url_data) row_list))
        (fun exception =>
           retry <- determine_urlopen_retry
                      (check_rate_limiting normalize_url network clock fuel)
                      exception ;;
           if retry
           then parse_properties_loop fuel url row_list iterations'
           else ret (false, row_list))
  end.

Definition parse_library_dot_properties (fuel : nat)
           (metadata_folder : string) (repository_object : json)
           (row_list : row) : M Net (bool * row) :=
  url <- lift_result
           (raw_file_url repository_object
              (metadata_folder ++ "/library.properties")%string) ;;
  parse_properties_loop fuel (normalize_url url) row_list
                        (S maximum_urlopen_retries).

Definition parse_library_dot_json (fuel : nat) (metadata_folder : string)
           (repository_object : json) (row_list : row)
  : M Net (bool * row) :=
  url <- lift_result
           (raw_file_url repository_object
              (metadata_folder ++ "/library.json")%string) ;;
  fetched <-
    try_except
      (r <- get_json_from_url normalize_url network clock fuel url ;;
       ret (inl r))
      (fun exception =>
         if String.eqb (exn_class exception) "JSONDecodeError"
         then ret (inr true)
         else if String.eqb (exn_class exception) "HTTPError"
                 || String.eqb (exn_class exception) "TimeoutError"
         then ret (inr false)
         else raise exception) ;;
  match fetched with
  | inr found => ret (found, row_list)
  | inl r =>
      json_data <- lift_result (dict (json_data r)) ;;
      row_list' <- lift_result (fill_library_dot_json json_data row_list) ;;
      ret (true, row_list')
  end.

(** The blind attempt to open [/{repo name}.h]. *)
Definition probe_header (repository_object : json) : M Net bool :=
  full_name <- lift_result (str_field repository_object "full_name") ;;
  default_branch <-
    lift_result (str_field repository_object "default_branch") ;;
  name <- lift_result (str_field repository_object "name") ;;
  let url := ("https://raw.githubusercontent.com/" ++ full_name ++ "/"
              ++ default_branch ++ "/" ++ name ++ ".h")%string in
  try_except_classes
    (_ <- urlopen network (normalize_url url) [] ;; ret true)
    ["HTTPError"; "RemoteDisconnected"]
    (fun _ => ret false).

Definition contents_request (full_name : string) : string :=
  ("repos/" ++ full_name ++ "/contents")%string.

Definition subfolder_request (full_name name : string) : string :=
  ("repos/" ++ full_name ++ "/contents/" ++ name)%string.

(** The paging loop over the root folder.  [None] is the [return None]
    of its two handlers. *)
Fixpoint root_listing_loop (fuel : nat) (request : string)
         (page_number : Z) (root_folder_listing : list json)
  : M World (option (list json)) :=
  match fuel with
  | O => diverge
  | S fuel' =>
      fetched <-
        try_except_classes
          (r <- api_response fuel request "" page_number ;; ret (Some r))
          ["HTTPError"; "JSONDecodeError"; "TimeoutError"]
          (fun _ => ret None) ;;
      match fetched with
      | None => ret None
      | Some r =>
          page <- lift_result (py_list (json_data r)) ;;
          let root_folder_listing := root_folder_listing ++ page in
          if additional_pages r
          then root_listing_loop fuel' request (page_number + 1)
                                 root_folder_listing
          else ret (Some root_folder_listing)
      end
  end.

(** The paging loop over a subfolder; its handler leaves the loop with
    what was listed so far. *)
Fixpoint subfolder_listing_loop (fuel : nat) (request : string)
         (page_number : Z) (subfolder_listing : list json)
  : M World (list json) :=
  match fuel with
  | O => diverge
  | S fuel' =>
      fetched <-
        try_except_classes
          (r <- api_response fuel request "" page_number ;; ret (Some r))
          ["JSONDecodeError"; "HTTPError"; "TimeoutError"]
          (fun _ => ret None) ;;
      match fetched with
      | None => ret subfolder_listing
      | Some r =>
          page <- lift_result (py_list (json_data r)) ;;
          let subfolder_listing := subfolder_listing ++ page in
          if additional_pages r
          then subfolder_listing_loop fuel' request (page_number + 1)
                                      subfolder_listing
          else ret subfolder_listing
      end
  end.

(** [for root_folder_item in root_folder_listing: ...] and the final
    [return None]. *)
Fixpoint search_subfolders (fuel : nat) (repository_object : json)
         (full_name : string) (verify : bool)
         (root_folder_listing : list folder_item) (row_list : row)
  : M World (option string * row) :=
  match root_folder_listing with
  | [] => ret (None, row_list)
  | root_folder_item :: rest =>
      let name := item_name root_folder_item in
      if String.eqb (item_type root_folder_item) "dir" then
        if matches_any library_subfolder_blacklist name then
          search_subfolders fuel repository_object full_name verify rest
                            row_list
        else
          listing <- subfolder_listing_loop fuel
                       (subfolder_request full_name name) 1 [] ;;
          subfolder_listing <- lift_result (folder_items listing) ;;
          match find_library subfolder_listing verify with
          | Some true =>
              '(_, row_list) <-
                lift_net (parse_library_dot_properties fuel name
                            repository_object row_list) ;;
              '(_, row_list) <-
                lift_net (parse_library_dot_json fuel name
                            repository_object row_list) ;;
              ret (Some name, row_list)
          | _ =>
              modify (write_non_library_folder name) ;;;
              search_subfolders fuel repository_object full_name verify rest
                                row_list
          end
      else
        search_subfolders fuel repository_object full_name verify rest
                          row_list
  end.

(** What [find_library_folder] does once it has the root listing. *)
Definition scan_root (fuel : nat) (repository_object : json)
           (full_name : string) (verify : bool)
           (root_folder_listing : list folder_item) (row_list : row)
  : M World (option string * row) :=
  match find_library root_folder_listing verify with
  | Some true => ret (Some "/", row_list)
  | library_found =>
      if verify && match library_found with
                   | None => false
                   | Some _ => true
                   end
      then ret (None, row_list)
      else search_subfolders fuel repository_object full_name verify
                             root_folder_listing row_list
  end.

(** [find_library_folder] up to the point where it has the root listing:
    either its answer ([inl]) or the repository's name with the listing to
    scan ([inr]). *)
Definition root_stage (fuel : nat) (repository_object : json)
           (row_list : row) (verify : bool)
  : M World ((option string + string * list folder_item) * row) :=
  '(found_properties, row_list) <-
    lift_net (parse_library_dot_properties fuel "/" repository_object
                row_list) ;;
  '(found_json, row_list) <-
    lift_net (parse_library_dot_json fuel "/" repository_object row_list) ;;
  if found_properties || found_json then ret (inl (Some "/"), row_list)
  else
    header_found <-
      (if verify then ret false
       else lift_net (probe_header repository_object)) ;;
    if header_found then ret (inl (Some "/"), row_list)
    else
      full_name <- lift_result (str_field repository_object "full_name") ;;
      listing <- root_listing_loop fuel (contents_request full_name) 1 [] ;;
      match listing with
      | None => ret (inl None, row_list)
      | Some listing =>
          root_folder_listing <- lift_result (folder_items listing) ;;
          ret (inr (full_name, root_folder_listing), row_list)
      end.

Definition find_library_folder (fuel : nat) (repository_object : json)
           (row_list : row) (verify : bool)
  : M World (option string * row) :=
  '(root, row_list) <- root_stage fuel repository_object row_list verify ;;
  match root with
  | inl library_folder => ret (library_folder, row_list)
  | inr (full_name, root_folder_listing) =>
      scan_root fuel repository_object full_name verify
                root_folder_listing row_list
  end.

End Scanner.

(* ===================================================================== *)
(** ** Reasoning about monadic code: what a computation ensures *)
(* ===================================================================== *)

Section Ensures.

Context {S : Type}.
Variable R : S -> S -> Prop.
Hypothesis R_refl : forall s, R s s.
Hypothesis R_trans : forall a b c, R a b -> R b c -> R a c.

(** However [m] ends, the states before and after are related by [R];
    when it returns, the value satisfies [Q]. *)
Definition ensures {A : Type} (Q : A -> Prop) (m : M S A) : Prop :=
  forall s r s', m s = (r, s') -> R s s' /\ forall a, r = Ok a -> Q a.

Lemma ensures_ret {A : Type} (Q : A -> Prop) a :
  Q a -> ensures Q (ret a).
Proof.
  intros HQ s r s' H. inversion H; subst. split; [apply R_refl|].
  intros b Hb. inversion Hb; subst. exact HQ.
Qed.

Lemma ensures_raise {A : Type} (Q : A -> Prop) e :
  ensures Q (raise e).
Proof.
  intros s r s' H. inversion H; subst. split; [apply R_refl|].
  intros b Hb. discriminate.
Qed.

Lemma ensures_diverge {A : Type} (Q : A -> Prop) :
  ensures Q diverge.
Proof.
  intros s r s' H. inversion H; subst. split; [apply R_refl|].
  intros b Hb. discriminate.
Qed.

Lemma ensures_lift_result {A : Type} (Q : A -> Prop) (x : result A) :
  (forall a, x = Ok a -> Q a) -> ensures Q (lift_result x).
Proof.
  intros HQ s r s' H. inversion H; subst. split; [apply R_refl | exact HQ].
Qed.

Lemma ensures_modify (f : S -> S) :
  (forall s, R s (f s)) -> ensures (fun _ => True) (modify f).
Proof.
  intros Hf s r s' H. inversion H; subst. split; [apply Hf | trivial].
Qed.

Lemma ensures_bind {A B : Type} (P : A -> Prop) (Q : B -> Prop)
      (m : M S A) (k : A -> M S B) :
  ensures P m -> (forall a, P a -> ensures Q (k a)) -> ensures Q (bind m k).
Proof.
  intros Hm Hk s r s' H. unfold bind in H.
  destruct (m s) as [[a|e|] s1] eqn:E; destruct (Hm _ _ _ E) as [HR HP].
  - destruct (Hk a (HP a eq_refl) _ _ _ H) as [HR' HQ].
    split; [eapply R_trans; eassumption | exact HQ].
  - inversion H; subst. split; [exact HR | discriminate].
  - inversion H; subst. split; [exact HR | discriminate].
Qed.

Lemma ensures_try_except {A : Type} (Q : A -> Prop) (m : M S A)
      (handler : exn -> M S A) :
  ensures Q m -> (forall e, ensures Q (handler e)) ->
  ensures Q (try_except m handler).
Proof.
  intros Hm Hh s r s' H. unfold try_except in H.
  destruct (m s) as [[a|e|] s1] eqn:E; destruct (Hm _ _ _ E) as [HR HP].
  - inversion H; subst. auto.
  - destruct (Hh e _ _ _ H) as [HR' HQ].
    split; [eapply R_trans; eassumption | exact HQ].
  - inversion H; subst. auto.
Qed.

Lemma ensures_try_except_classes {A : Type} (Q : A -> Prop) (m : M S A)
      classes (handler : exn -> M S A) :
  ensures Q m -> (forall e, ensures Q (handler e)) ->
  ensures Q (try_except_classes m classes handler).
Proof.
  intros Hm Hh. apply ensures_try_except; [exact Hm|].
  intros e. destruct (existsb _ classes); [apply Hh | apply ensures_raise].
Qed.

End Ensures.

(* ===================================================================== *)
(** ** The scanner never looks into a blacklisted subfolder *)
(* ===================================================================== *)

Lemma append_inj_l p : forall a b, (p ++ a)%string = (p ++ b)%string -> a = b.
Proof.
  induction p as [|c p IH]; intros a b H; cbn in H.
  - exact H.
  - inversion H. now apply IH.
Qed.

Lemma append_length a : forall b,
  String.length (a ++ b)%string = (String.length a + String.length b)%nat.
Proof. induction a as [|c a IH]; intros b; cbn; [reflexivity | now rewrite IH]. Qed.

Lemma subfolder_request_inj full_name name name' :
  subfolder_request full_name name = subfolder_request full_name name' ->
  name = name'.
Proof.
  unfold subfolder_request. intros H.
  apply append_inj_l in H. apply append_inj_l in H.
  apply append_inj_l in H. exact H.
Qed.

Lemma subfolder_request_not_contents full_name name :
  subfolder_request full_name name <> contents_request full_name.
Proof.
  unfold subfolder_request, contents_request. intros H.
  apply append_inj_l in H. apply append_inj_l in H.
  apply (f_equal String.length) in H. rewrite append_length in H.
  cbn in H. lia.
Qed.

(** A request the scanner may make for a repository: the root listing, or
    the listing of a subfolder whose name is not blacklisted. *)
Definition allowed_request (full_name : string) (request : string * Z) : Prop :=
  fst request = contents_request full_name
  \/ exists name,
       matches_any library_subfolder_blacklist name = false
       /\ fst request = subfolder_request full_name name.

(** What the scanner adds to the record of requests and to the list of
    non-library folders. *)
Definition scan_frame (full_name : string) (w w' : World) : Prop :=
  exists requests folders,
    api_requests w' = api_requests w ++ requests
    /\ non_library_folders_list w' = non_library_folders_list w ++ folders
    /\ Forall (allowed_request full_name) requests
    /\ Forall (fun name => matches_any library_subfolder_blacklist name = false)
              folders.

Lemma scan_frame_refl full_name w : scan_frame full_name w w.
Proof. exists [], []. rewrite !app_nil_r. auto. Qed.

Lemma scan_frame_trans full_name a b c :
  scan_frame full_name a b -> scan_frame full_name b c ->
  scan_frame full_name a c.
Proof.
  intros (r1 & f1 & Hr1 & Hf1 & Ha1 & Hb1) (r2 & f2 & Hr2 & Hf2 & Ha2 & Hb2).
  exists (r1 ++ r2), (f1 ++ f2).
  rewrite Hr2, Hr1, Hf2, Hf1, !app_assoc.
  repeat split; try reflexivity; apply Forall_app; auto.
Qed.

Section ScannerFrame.

Variable normalize_url : string -> string.
Variable network : nat -> string -> list (string * string) -> outcome.
Variable clock : nat -> Z.
Variable fill_library_dot_properties : string -> row -> row.
Variable fill_library_dot_json : json -> row -> result row.
Variable full_name : string.

Local Abbreviation frames Q m := (ensures (scan_frame full_name) Q m).

Local Hint Resolve scan_frame_refl scan_frame_trans : core.

Lemma frames_lift_net {A : Type} (m : M Net A) :
  frames (fun _ => True) (lift_net m).
Proof.
  intros w r w' H. unfold lift_net in H. destruct (m (net w)) as [r0 n].
  inversion H; subst. split; [|trivial].
  exists [], []. cbn. rewrite !app_nil_r. auto.
Qed.

Lemma frames_api_response fuel request parameters page_number :
  allowed_request full_name (request, page_number) ->
  frames (fun _ => True)
         (api_response normalize_url network clock fuel request parameters
                       page_number).
Proof.
  intros Ha. unfold api_response.
  eapply ensures_bind with (P := fun _ => True); eauto.
  - apply ensures_modify. intros w. exists [(request, page_number)], [].
    cbn. rewrite app_nil_r. auto.
  - intros _ _. apply frames_lift_net.
Qed.

Lemma frames_root_listing_loop fuel : forall page_number listing,
  frames (fun _ => True)
         (root_listing_loop normalize_url network clock fuel
                            (contents_request full_name) page_number listing).
Proof.
  induction fuel as [|fuel IH]; intros page_number listing;
    cbn [root_listing_loop].
  - apply ensures_diverge; auto.
  - eapply ensures_bind with (P := fun _ => True); eauto.
    + apply ensures_try_except_classes; eauto.
      * eapply ensures_bind with (P := fun _ => True); eauto.
        -- apply frames_api_response. now left.
        -- intros r _. apply ensures_ret; auto.
      * intros e. apply ensures_ret; auto.
    + intros [r|] _; [|apply ensures_ret; auto].
      eapply ensures_bind with (P := fun _ => True); eauto.
      * apply ensures_lift_result; auto.
      * intros page _. destruct (additional_pages r);
          [apply IH | apply ensures_ret; auto].
Qed.

Lemma frames_subfolder_listing_loop name fuel :
  matches_any library_subfolder_blacklist name = false ->
  forall page_number listing,
  frames (fun _ => True)
         (subfolder_listing_loop normalize_url network clock fuel
            (subfolder_request full_name name) page_number listing).
Proof.
  intros Hn.
  induction fuel as [|fuel IH]; intros page_number listing;
    cbn [subfolder_listing_loop].
  - apply ensures_diverge; auto.
  - eapply ensures_bind with (P := fun _ => True); eauto.
    + apply ensures_try_except_classes; eauto.
      * eapply ensures_bind with (P := fun _ => True); eauto.
        -- apply frames_api_response. right. now exists name.
        -- intros r _. apply ensures_ret; auto.
      * intros e. apply ensures_ret; auto.
    + intros [r|] _; [|apply ensures_ret; auto].
      eapply ensures_bind with (P := fun _ => True); eauto.
      * apply ensures_lift_result; auto.
      * intros page _. destruct (additional_pages r);
          [apply IH | apply ensures_ret; auto].
Qed.

(** The folder an answer names is not blacklisted. *)
Definition answer_allowed (answer : option string * row) : Prop :=
  forall name, fst answer = Some name ->
               matches_any library_subfolder_blacklist name = false.

Lemma frames_search_subfolders fuel repository_object verify
      root_folder_listing :
  forall row_list,
  frames answer_allowed
         (search_subfolders normalize_url network clock
            fill_library_dot_properties fill_library_dot_json fuel
            repository_object full_name verify root_folder_listing row_list).
Proof.
  induction root_folder_listing as [|item rest IH]; intros row_list;
    cbn [search_subfolders].
  - apply ensures_ret; auto. intros name H. discriminate.
  - destruct (String.eqb (item_type item) "dir"); [|apply IH].
    destruct (matches_any library_subfolder_blacklist (item_name item)) eqn:Hb;
      [apply IH|].
    eapply ensures_bind with (P := fun _ => True); eauto.
    { now apply frames_subfolder_listing_loop. }
    intros listing _.
    eapply ensures_bind with (P := fun _ => True); eauto.
    { apply ensures_lift_result; auto. }
    intros subfolder_listing _.
    destruct (find_library subfolder_listing verify) as [[|]|].
    + eapply ensures_bind with (P := fun _ => True); eauto.
      { apply frames_lift_net. }
      intros [b1 r1] _.
      eapply ensures_bind with (P := fun _ => True); eauto.
      { apply frames_lift_net. }
      intros [b2 r2] _. apply ensures_ret; auto.
      intros name H. cbn in H. inversion H; subst. exact Hb.
    + eapply ensures_bind with (P := fun _ => True); eauto.
      apply ensures_modify. intros w. exists [], [item_name item].
      cbn. rewrite app_nil_r. auto.
    + eapply ensures_bind with (P := fun _ => True); eauto.
      apply ensures_modify. intros w. exists [], [item_name item].
      cbn. rewrite app_nil_r. auto.
Qed.

Lemma root_not_blacklisted :
  matches_any library_subfolder_blacklist "/" = false.
Proof. vm_compute. reflexivity. Qed.

Lemma frames_scan_root fuel repository_object verify root_folder_listing
      row_list :
  frames answer_allowed
         (scan_root normalize_url network clock
            fill_library_dot_properties fill_library_dot_json fuel
            repository_object full_name verify root_folder_listing row_list).
Proof.
  unfold scan_root.
  destruct (find_library root_folder_listing verify) as [[|]|].
  - apply ensures_ret; auto. intros name H. cbn in H. inversion H; subst.
    apply root_not_blacklisted.
  - destruct (verify && true);
      [apply ensures_ret; auto; intros name H; discriminate
      | apply frames_search_subfolders].
  - destruct (verify && false);
      [apply ensures_ret; auto; intros name H; discriminate
      | apply frames_search_subfolders].
Qed.

(** The answer of the root stage is the root or nothing; a listing to
    scan comes with the repository's own name. *)
Definition root_stage_allowed
           (answer : (option string + string * list folder_item) * row)
  : Prop :=
  match fst answer with
  | inl library_folder => library_folder = Some "/" \/ library_folder = None
  | inr (name, _) => name = full_name
  end.

Lemma frames_root_stage fuel repository_object row_list verify :
  str_field repository_object "full_name" = Ok full_name ->
  frames root_stage_allowed
         (root_stage normalize_url network clock
            fill_library_dot_properties fill_library_dot_json fuel
            repository_object row_list verify).
Proof.
  intros Hfn. unfold root_stage.
  eapply ensures_bind with (P := fun _ => True); eauto.
  { apply frames_lift_net. }
  intros [found_properties r1] _.
  eapply ensures_bind with (P := fun _ => True); eauto.
  { apply frames_lift_net. }
  intros [found_json r2] _.
  destruct (found_properties || found_json).
  { apply ensures_ret; auto. now left. }
  eapply ensures_bind with (P := fun _ => True); eauto.
  { destruct verify; [apply ensures_ret; auto | apply frames_lift_net]. }
  intros [|] _.
  { apply ensures_ret; auto. now left. }
  eapply ensures_bind with (P := fun name => name = full_name); eauto.
  { apply ensures_lift_result; auto. intros a Ha. congruence. }
  intros name ->.
  eapply ensures_bind with (P := fun _ => True); eauto.
  { apply frames_root_listing_loop. }
  intros [listing|] _.
  - eapply ensures_bind with (P := fun _ => True); eauto.
    + apply ensures_lift_result; auto.
    + intros items _. apply ensures_ret; auto. reflexivity.
  - apply ensures_ret; auto. now right.
Qed.

Lemma frames_find_library_folder fuel repository_object row_list verify :
  str_field repository_object "full_name" = Ok full_name ->
  frames answer_allowed
         (find_library_folder normalize_url network clock
            fill_library_dot_properties fill_library_dot_json fuel
            repository_object row_list verify).
Proof.
  intros Hfn. unfold find_library_folder.
  eapply ensures_bind; eauto.
  { now apply frames_root_stage. }
  intros [[answer | [name listing]] r] Ha; cbn in Ha.
  - apply ensures_ret; auto. intros n Hn. cbn in Hn. subst answer.
    destruct Ha as [Ha | Ha]; inversion Ha; subst.
    apply root_not_blacklisted.
  - subst name. apply frames_scan_root.
Qed.

End ScannerFrame.

(** C4. Whatever the network answers, for a name that fully matches, case
    ignored, a pattern of [library_subfolder_blacklist],
    [find_library_folder] makes no request for the listing of that subfolder
    of the repository, does not write the name to the list of non-library
    folders and does not return it as the library folder: the subfolder is
    neither fetched nor classified. *)
Theorem find_library_folder_skips_blacklisted
        (normalize_url : string -> string)
        (network : nat -> string -> list (string * string) -> outcome)
        (clock : nat -> Z)
        (fill_library_dot_properties : string -> row -> row)
        (fill_library_dot_json : json -> row -> result row)
        (fuel : nat) (repository_object : json) (row_list : row)
        (verify : bool) (w w' : World)
        (res : result (option string * row)) (full_name name : string) :
  str_field repository_object "full_name" = Ok full_name ->
  (exists regex, In regex library_subfolder_blacklist
                 /\ Re.fullmatch regex name = true) ->
  find_library_folder normalize_url network clock fill_library_dot_properties
    fill_library_dot_json fuel repository_object row_list verify w = (res, w') ->
  (exists requests folders,
      api_requests w' = api_requests w ++ requests
      /\ non_library_folders_list w' = non_library_folders_list w ++ folders
      /\ (forall page_number,
             ~ In (subfolder_request full_name name, page_number) requests)
      /\ ~ In name folders)
  /\ (forall row_list', res <> Ok (Some name, row_list')).
Proof.
  intros Hfn Hbl Hrun.
  assert (Hb : matches_any library_subfolder_blacklist name = true)
    by (unfold matches_any; now apply existsb_exists).
  destruct (frames_find_library_folder normalize_url network clock
              fill_library_dot_properties fill_library_dot_json full_name
              fuel repository_object row_list verify Hfn _ _ _ Hrun)
    as [(requests & folders & Hr & Hf & Hreq & Hfold) Hans].
  split.
  - exists requests, folders. repeat split; try assumption.
    + intros page_number Hin.
      rewrite Forall_forall in Hreq. specialize (Hreq _ Hin).
      destruct Hreq as [Hc | (n & Hn & Hs)]; cbn [fst] in *.
      * now apply subfolder_request_not_contents in Hc.
      * apply subfolder_request_inj in Hs. subst n. congruence.
    + intros Hin. rewrite Forall_forall in Hfold.
      specialize (Hfold _ Hin). cbn beta in Hfold. congruence.
  - intros row_list' ->.
    specialize (Hans _ eq_refl name eq_refl). congruence.
Qed.

(* ===================================================================== *)
(** ** When the scanner goes on to the subfolders *)
(* ===================================================================== *)

Lemma bind_ok_inv {S A B : Type} (m : M S A) (k : A -> M S B) s b s' :
  bind m k s = (Ok b, s') ->
  exists a s1, m s = (Ok a, s1) /\ k a s1 = (Ok b, s').
Proof.
  unfold bind. destruct (m s) as [[a|e|] s1]; try discriminate.
  intros H. now exists a, s1.
Qed.

(** A subfolder the loop does not skip: a directory whose name is not
    blacklisted. *)
Definition eligible (it : folder_item) : bool :=
  String.eqb (item_type it) "dir"
  && negb (matches_any library_subfolder_blacklist (item_name it)).

(** Between [w] and [w'] the first page of the subfolder's listing was
    requested. *)
Definition fetched_since (full_name : string) (w w' : World)
           (it : folder_item) : Prop :=
  exists requests,
    api_requests w' = api_requests w ++ requests
    /\ In (subfolder_request full_name (item_name it), 1%Z) requests.

(** Between [w] and [w'] the subfolder was written to the list of
    non-library folders: it was classified and no library found in it. *)
Definition rejected_since (w w' : World) (it : folder_item) : Prop :=
  exists folders,
    non_library_folders_list w' = non_library_folders_list w ++ folders
    /\ In (item_name it) folders.

(** The subfolder search, by its answer.  With no folder found, every
    eligible subfolder was fetched and rejected.  With a folder found, it is
    an eligible entry of the listing that was fetched, and every eligible
    entry before it was fetched and rejected. *)
Definition subfolders_searched (full_name : string)
           (root_folder_listing : list folder_item) (w w' : World)
           (res : result (option string * row)) : Prop :=
  match res with
  | Ok (None, _) =>
      forall it, In it root_folder_listing -> eligible it = true ->
                 fetched_since full_name w w' it /\ rejected_since w w' it
  | Ok (Some name, _) =>
      exists before it after,
        root_folder_listing = before ++ it :: after
        /\ eligible it = true /\ item_name it = name
        /\ fetched_since full_name w w' it
        /\ forall it', In it' before -> eligible it' = true ->
                       fetched_since full_name w w' it'
                       /\ rejected_since w w' it'
  | _ => True
  end.

(** The two records only grow. *)
Definition grows (w w' : World) : Prop :=
  exists requests folders,
    api_requests w' = api_requests w ++ requests
    /\ non_library_folders_list w' = non_library_folders_list w ++ folders.

Lemma grows_refl w : grows w w.
Proof. exists [], []. now rewrite !app_nil_r. Qed.

Lemma grows_trans a b c : grows a b -> grows b c -> grows a c.
Proof.
  intros (r1 & f1 & Hr1 & Hf1) (r2 & f2 & Hr2 & Hf2).
  exists (r1 ++ r2), (f1 ++ f2). now rewrite Hr2, Hr1, Hf2, Hf1, !app_assoc.
Qed.

Lemma scan_frame_grows full_name w w' : scan_frame full_name w w' -> grows w w'.
Proof. intros (r & f & Hr & Hf & _). now exists r, f. Qed.

Lemma fetched_since_mono full_name a b c d it :
  grows a b -> fetched_since full_name b c it -> grows c d ->
  fetched_since full_name a d it.
Proof.
  intros (r1 & f1 & Hr1 & _) (r2 & Hr2 & Hin) (r3 & f3 & Hr3 & _).
  exists (r1 ++ r2 ++ r3). rewrite Hr3, Hr2, Hr1, <- !app_assoc.
  split; [reflexivity|]. apply in_or_app. right. apply in_or_app. now left.
Qed.

Lemma rejected_since_mono a b c d it :
  grows a b -> rejected_since b c it -> grows c d ->
  rejected_since a d it.
Proof.
  intros (r1 & f1 & _ & Hf1) (f2 & Hf2 & Hin) (r3 & f3 & _ & Hf3).
  exists (f1 ++ f2 ++ f3). rewrite Hf3, Hf2, Hf1, <- !app_assoc.
  split; [reflexivity|]. apply in_or_app. right. apply in_or_app. now left.
Qed.

Section SubfolderSearch.

Variable normalize_url : string -> string.
Variable network : nat -> string -> list (string * string) -> outcome.
Variable clock : nat -> Z.
Variable fill_library_dot_properties : string -> row -> row.
Variable fill_library_dot_json : json -> row -> result row.
Variable full_name : string.

(** A listing loop that returns has requested the first page. *)
Lemma subfolder_listing_loop_fetches fuel it w listing w' :
  matches_any library_subfolder_blacklist (item_name it) = false ->
  subfolder_listing_loop normalize_url network clock fuel
    (subfolder_request full_name (item_name it)) 1 [] w = (Ok listing, w') ->
  fetched_since full_name w w' it.
Proof.
  intros Hb H. destruct fuel as [|fuel]; [discriminate|].
  pose proof (frames_subfolder_listing_loop normalize_url network clock
                full_name (item_name it) (S fuel) Hb 1%Z [] _ _ _ H)
    as [(requests & folders & Hr & _) _].
  exists requests. split; [exact Hr|].
  cbn [subfolder_listing_loop] in H.
  unfold bind at 1, try_except_classes, try_except, api_response in H.
  unfold bind at 1 in H. unfold bind at 1 in H.
  cbn [modify] in H.
  match type of H with
  | context [lift_net ?m ?w0] =>
      pose proof (frames_lift_net full_name m w0) as Hl;
      destruct (lift_net m w0) as [r1 w1] eqn:E1
  end.
  destruct (Hl _ _ eq_refl) as [(q1 & g1 & Hq1 & _) _].
  cbn in Hq1.
  assert (Hpre : exists rest,
             api_requests w'
             = (api_requests w
                ++ [(subfolder_request full_name (item_name it), 1%Z)])
               ++ rest).
  { destruct r1 as [r|e|].
    - cbn [ret] in H.
      match type of H with
      | ?m w1 = _ =>
          assert (Hf : scan_frame full_name w1 w')
      end.
      { destruct (lift_result (py_list (json_data r)) w1)
          as [[page|e|] w2] eqn:E2.
        - unfold bind at 1 in H. rewrite E2 in H.
          unfold lift_result in E2. inversion E2; subst w2.
          destruct (additional_pages r).
          + eapply (frames_subfolder_listing_loop normalize_url network
                      clock full_name (item_name it) fuel Hb); exact H.
          + inversion H; subst. apply scan_frame_refl.
        - unfold bind at 1 in H. rewrite E2 in H. discriminate.
        - unfold bind at 1 in H. rewrite E2 in H. discriminate. }
      destruct Hf as (q2 & g2 & Hq2 & _).
      exists (q1 ++ q2). rewrite Hq2, Hq1, app_assoc. reflexivity.
    - destruct (existsb _ _); cbn [ret raise] in H.
      + inversion H; subst. exists q1. exact Hq1.
      + discriminate.
    - discriminate. }
  destruct Hpre as [rest Hpre]. rewrite <- app_assoc in Hpre.
  rewrite Hr in Hpre. apply app_inv_head in Hpre. subst requests.
  now left.
Qed.

Lemma search_subfolders_searched fuel repository_object verify listing :
  forall row_list w res w',
    search_subfolders normalize_url network clock
      fill_library_dot_properties fill_library_dot_json fuel
      repository_object full_name verify listing row_list w = (res, w') ->
    subfolders_searched full_name listing w w' res.
Proof.
  induction listing as [|item rest IH]; intros row_list w res w' H.
  - cbn in H. inversion H; subst. cbn. intros it [].
  - cbn [search_subfolders] in H.
    assert (Hskip :
              eligible item = false ->
              subfolders_searched full_name rest w w' res ->
              subfolders_searched full_name (item :: rest) w w' res).
    { intros He Hrest.
      destruct res as [[[name|] r]| |]; cbn in Hrest |- *; trivial.
      - destruct Hrest as (before & it & after & -> & Hit & Hn & Hf & Hbef).
        exists (item :: before), it, after.
        split; [reflexivity|]. split; [exact Hit|]. split; [exact Hn|].
        split; [exact Hf|].
        intros it' [<- | Hin] He'; [congruence | now apply Hbef].
      - intros it [<- | Hin] He'; [congruence | now apply Hrest]. }
    destruct (String.eqb (item_type item) "dir") eqn:Hdir.
    2:{ apply Hskip; [unfold eligible; now rewrite Hdir | eapply IH; exact H]. }
    destruct (matches_any library_subfolder_blacklist (item_name item)) eqn:Hb.
    1:{ apply Hskip; [unfold eligible; now rewrite Hdir, Hb | eapply IH; exact H]. }
    clear Hskip.
    assert (Hel : eligible item = true)
      by (unfold eligible; now rewrite Hdir, Hb).
    unfold bind at 1 in H.
    destruct (subfolder_listing_loop _ _ _ _ _ _ _ w) as [[l|e|] w1] eqn:El;
      [|inversion H; subst; exact I|inversion H; subst; exact I].
    pose proof (frames_subfolder_listing_loop normalize_url network clock
                  full_name (item_name item) fuel Hb 1%Z [] _ _ _ El)
      as [Hg1 _]. apply scan_frame_grows in Hg1.
    apply subfolder_listing_loop_fetches in El; [|exact Hb].
    unfold bind at 1 in H. unfold lift_result at 1 in H.
    destruct (folder_items l) as [sub|e|];
      [|inversion H; subst; exact I|inversion H; subst; exact I].
    assert (Hreject :
              bind (modify (write_non_library_folder (item_name item)))
                   (fun _ =>
                      search_subfolders normalize_url network clock
                        fill_library_dot_properties fill_library_dot_json
                        fuel repository_object full_name verify rest
                        row_list) w1 = (res, w') ->
              subfolders_searched full_name (item :: rest) w w' res).
    { clear H. intros Hrun. unfold bind at 1 in Hrun. cbn [modify] in Hrun.
      set (w2 := write_non_library_folder (item_name item) w1) in *.
      pose proof (frames_search_subfolders normalize_url network clock
                    fill_library_dot_properties fill_library_dot_json
                    full_name fuel repository_object verify rest row_list
                    _ _ _ Hrun) as [Hg3 _]. apply scan_frame_grows in Hg3.
      assert (Hg2 : grows w1 w2).
      { exists [], [item_name item]. cbn. now rewrite app_nil_r. }
      assert (Hrej : rejected_since w1 w2 item).
      { exists [item_name item]. cbn. auto. }
      assert (Hitem : fetched_since full_name w w' item
                      /\ rejected_since w w' item).
      { split.
        - eapply fetched_since_mono;
            [apply grows_refl | exact El | eapply grows_trans; eassumption].
        - eapply rejected_since_mono; eassumption. }
      apply IH in Hrun.
      assert (Hlift : forall it,
                 fetched_since full_name w2 w' it /\ rejected_since w2 w' it ->
                 fetched_since full_name w w' it /\ rejected_since w w' it).
      { intros it [Hf Hr]. split.
        - eapply fetched_since_mono;
            [eapply grows_trans; eassumption | exact Hf | apply grows_refl].
        - eapply rejected_since_mono;
            [eapply grows_trans; eassumption | exact Hr | apply grows_refl]. }
      destruct res as [[[name|] r]| |]; cbn in Hrun |- *; trivial.
      - destruct Hrun as (before & it & after & -> & Hit & Hn & Hf & Hbef).
        exists (item :: before), it, after.
        split; [reflexivity|]. split; [exact Hit|]. split; [exact Hn|].
        split.
        + eapply fetched_since_mono;
            [eapply grows_trans; eassumption | exact Hf | apply grows_refl].
        + intros it' [<- | Hin] He'; [exact Hitem|].
          apply Hlift. now apply Hbef.
      - intros it [<- | Hin] He'; [exact Hitem|].
        apply Hlift. now apply Hrun. }
    destruct (find_library sub verify) as [[|]|]; try (now apply Hreject).
    clear Hreject.
    destruct res as [[[name|] r]| |]; cbn; trivial.
    + apply bind_ok_inv in H as ([b1 r1] & wa & Ha & H).
      apply bind_ok_inv in H as ([b2 r2] & wb & Hb2 & H).
      inversion H; subst.
      pose proof (frames_lift_net full_name _ _ _ _ Ha) as [Hga _].
      pose proof (frames_lift_net full_name _ _ _ _ Hb2) as [Hgb _].
      apply scan_frame_grows in Hga, Hgb.
      exists [], item, rest.
      split; [reflexivity|]. split; [exact Hel|]. split; [reflexivity|].
      split; [|intros it' []].
      eapply fetched_since_mono;
        [apply grows_refl | exact El | eapply grows_trans; eassumption].
    + apply bind_ok_inv in H as ([b1 r1] & wa & Ha & H).
      apply bind_ok_inv in H as ([b2 r2] & wb & Hb2 & H).
      inversion H.
Qed.

End SubfolderSearch.


(** With verification off every root that is not Found, the NotFound one
    too, leads to the search of the subfolders. *)
Lemma find_library_folder_no_verify_subfolder_search
      (normalize_url : string -> string)
      (network : nat -> string -> list (string * string) -> outcome)
      (clock : nat -> Z)
      (fill_library_dot_properties : string -> row -> row)
      (fill_library_dot_json : json -> row -> result row)
      (fuel : nat) (repository_object : json) (row_list row_list1 : row)
      (w w1 w' : World) (full_name : string)
      (root_folder_listing : list folder_item)
      (res : result (option string * row)) :
  root_stage normalize_url network clock fill_library_dot_properties
    fill_library_dot_json fuel repository_object row_list false w
  = (Ok (inr (full_name, root_folder_listing), row_list1), w1) ->
  find_library_folder normalize_url network clock fill_library_dot_properties
    fill_library_dot_json fuel repository_object row_list false w = (res, w') ->
  find_library root_folder_listing false <> Found ->
  subfolders_searched full_name root_folder_listing w1 w' res.
Proof.
  intros Hroot Hrun Hc. unfold find_library_folder in Hrun.
  unfold bind at 1 in Hrun. rewrite Hroot in Hrun. unfold scan_root in Hrun.
  destruct (find_library root_folder_listing false) as [[|]|];
    [now elim Hc | |]; cbn in Hrun;
    eapply search_subfolders_searched; exact Hrun.
Qed.

(* ===================================================================== *)
(** ** The row builder and the search: [populate_row],
       [search_repositories] *)
(* ===================================================================== *)

Definition IndexError : exn := Exn "IndexError" "list index out of range".

(** [readRow[Column.repository_url]] *)
Definition repository_url_of (readRow : row) : result string :=
  match readRow with
  | [] => Raise IndexError
  | url :: _ => Ok url
  end.

(** [for readRow in table: if readRow[Column.repository_url] == url:
    return]: whether the loop finds the URL. *)
Fixpoint already_listed (table : list row) (url : string) : result bool :=
  match table with
  | [] => Ok false
  | readRow :: rest =>
      match repository_url_of readRow with
      | Ok cell_url =>
          if String.eqb cell_url url then Ok true else already_listed rest url
      | Raise e => Raise e
      | Diverge => Diverge
      end
  end.

(** [topic in topics] *)
Definition py_in (topic : string) (topics : json) : result bool :=
  match topics with
  | JList l =>
      Ok (existsb (fun t => match t with
                            | JStr s => String.eqb s topic
                            | _ => false
                            end) l)
  | JDict d => Ok (existsb (fun kv => String.eqb (fst kv) topic) d)
  | JStr s => Ok (negb (PyStr.find s topic =? -1)%Z)
  | _ => Raise (TypeError "argument is not iterable")
  end.

(** The loop over [topic_blacklist]. *)
Fixpoint has_blacklisted_topic (blacklist : list string) (topics : json)
  : result bool :=
  match blacklist with
  | [] => Ok false
  | blacklisted_topic :: rest =>
      match py_in blacklisted_topic topics with
      | Ok true => Ok true
      | Ok false => has_blacklisted_topic rest topics
      | Raise e => Raise e
      | Diverge => Diverge
      end
  end.

Fixpoint join (sep : string) (l : list string) : string :=
  match l with
  | [] => ""
  | [s] => s
  | s :: rest => (s ++ sep ++ join sep rest)%string
  end.

Fixpoint all_strings (l : list json) : result (list string) :=
  match l with
  | [] => Ok []
  | JStr s :: rest =>
      match all_strings rest with
      | Ok ss => Ok (s :: ss)
      | Raise e => Raise e
      | Diverge => Diverge
      end
  | _ :: _ => Raise (TypeError "sequence item: expected str instance")
  end.

(** [', '.join(topics)] *)
Definition join_topics (topics : json) : result string :=
  match py_list topics with
  | Ok l =>
      match all_strings l with
      | Ok ss => Ok (join ", " ss)
      | Raise e => Raise e
      | Diverge => Diverge
      end
  | Raise e => Raise e
  | Diverge => Diverge
  end.

(** [x == 0] for a decoded value *)
Definition py_eq_zero (j : json) : bool :=
  match j with
  | JInt z => (z =? 0)%Z
  | JBool b => negb b
  | _ => false
  end.

Definition str_of_page_count (p : page_count_value) : string :=
  match p with
  | PageInt n => str_of_Z n
  | PageStr s => s
  end.

Section RowBuilder.

Variable normalize_url : string -> string.
Variable network : nat -> string -> list (string * string) -> outcome.
Variable clock : nat -> Z.
Variable fill_library_dot_properties : string -> row -> row.
Variable fill_library_dot_json : json -> row -> result row.
(** [repr] of a list or a dict, which [str] gives for them. *)
Variable repr : json -> string.

(** [str(j)] *)
Definition py_str (j : json) : string :=
  match j with
  | JStr s => s
  | JInt z => str_of_Z z
  | JBool true => "True"
  | JBool false => "False"
  | JNull => "None"
  | _ => repr j
  end.

(** [str(obj[key])] *)
Definition str_of_field (obj : json) (key : string) : result string :=
  match subscript obj key with
  | Ok v => Ok (py_str v)
  | Raise e => Raise e
  | Diverge => Diverge
  end.

(** [row_list[column] = str(obj[key])] *)
Definition set_from_field (column : nat) (obj : json) (key : string)
           (row_list : row) : M World row :=
  value <- lift_result (str_of_field obj key) ;;
  lift_result (set_cell column value row_list).

Definition get_contributor_count (fuel : nat) (repository_object : json)
  : M Net string :=
  check_rate_limiting normalize_url network clock fuel core ;;;
  try_except_classes
    (full_name <- lift_result (str_field repository_object "full_name") ;;
     fetched <- get_json_from_url normalize_url network clock fuel
                  ("https://api.github.com/repos/" ++ full_name
                   ++ "/contributors?per_page=1")%string ;;
     ret (str_of_page_count (page_count fetched)))
    ["JSONDecodeError"; "TimeoutError"]
    (fun _ => ret "").

(** [get_repository_license]; the value is stored as it is and must be a
    string by the time the cells are cleaned. *)
Definition get_repository_license (repository_object : json) : result json :=
  match subscript repository_object "license" with
  | Ok JNull => Ok (JStr "none")
  | Ok license =>
      match subscript license "spdx_id" with
      | Ok spdx_id =>
          if String.eqb (py_str spdx_id) "NOASSERTION"
          then Ok (JStr "unrecognized")
          else Ok spdx_id
      | Raise e => Raise e
      | Diverge => Diverge
      end
  | Raise e => Raise e
  | Diverge => Diverge
  end.

(** [row_list[Column.fork_of] = str(obj["parent"]["full_name"])] *)
Definition set_fork_of (obj : json) (row_list : row) : result row :=
  match subscript obj "parent" with
  | Ok parent =>
      match str_of_field parent "full_name" with
      | Ok value => set_cell Column.fork_of value row_list
      | Raise e => Raise e
      | Diverge => Diverge
      end
  | Raise e => Raise e
  | Diverge => Diverge
  end.

(** [populate_row] from the assignment of the library path to the end. *)
Definition fill_row (fuel : nat) (repository_object : json)
           (in_library_manager : bool) (html_url library_folder : string)
           (row_list : row) : M World unit :=
  row_list <- lift_result (set_cell Column.library_path library_folder row_list) ;;
  row_list <- lift_result (set_cell Column.repository_url html_url row_list) ;;
  owner <- lift_result (subscript repository_object "owner") ;;
  row_list <- set_from_field Column.repository_owner owner "login" row_list ;;
  row_list <- set_from_field Column.repository_name repository_object "name"
                             row_list ;;
  row_list <- set_from_field Column.repository_default_branch
                             repository_object "default_branch" row_list ;;
  row_list <- set_from_field Column.archived repository_object "archived"
                             row_list ;;
  row_list <- set_from_field Column.is_fork repository_object "fork" row_list ;;
  fork <- lift_result (subscript repository_object "fork") ;;
  '(repository_object, row_list) <-
    (if truthy fork then
       try_except_classes
         (row_list <- lift_result (set_fork_of repository_object row_list) ;;
          ret (repository_object, row_list))
         ["KeyError"]
         (fun _ =>
            full_name <-
              lift_result (str_field repository_object "full_name") ;;
            fetched <- api_response normalize_url network clock fuel
                         ("repos/" ++ full_name)%string "" 1 ;;
            repository_object <- lift_result (dict (json_data fetched)) ;;
            row_list <- lift_result (set_fork_of repository_object row_list) ;;
            ret (repository_object, row_list))
     else ret (repository_object, row_list)) ;;
  row_list <- set_from_field Column.last_push_date repository_object
                             "pushed_at" row_list ;;
  row_list <- set_from_field Column.fork_count repository_object "forks_count"
                             row_list ;;
  row_list <- set_from_field Column.star_count repository_object
                             "stargazers_count" row_list ;;
  contributors <- lift_net (get_contributor_count fuel repository_object) ;;
  row_list <- lift_result (set_cell Column.contributor_count contributors
                                    row_list) ;;
  full_name <- lift_result (str_field repository_object "full_name") ;;
  default_branch <-
    lift_result (str_field repository_object "default_branch") ;;
  fetched <- api_response normalize_url network clock fuel
               ("repos/" ++ full_name ++ "/commits/" ++ default_branch
                ++ "/status")%string "" 1 ;;
  status_data <- lift_result (dict (json_data fetched)) ;;
  state <- lift_result (str_of_field status_data "state") ;;
  row_list <- lift_result
                (set_cell Column.tip_status
                          (if String.eqb state "pending" then "" else state)
                          row_list) ;;
  license <- lift_result (get_repository_license repository_object) ;;
  row_list <- set_from_field Column.repository_language repository_object
                             "language" row_list ;;
  description <- lift_result (subscript repository_object "description") ;;
  row_list <- lift_result
                match description with
                | JNull => Ok row_list
                | _ => set_cell Column.repository_description
                                (py_str description) row_list
                end ;;
  topics <- lift_result (subscript repository_object "topics") ;;
  topics <- lift_result (join_topics topics) ;;
  row_list <- lift_result (set_cell Column.github_topics topics row_list) ;;
  row_list <- lift_result
                (set_cell Column.in_library_manager_index
                          (py_str (JBool in_library_manager)) row_list) ;;
  license <- lift_result
               match license with
               | JStr s => Ok s
               | _ => Raise (Exn "AttributeError"
                                 "object has no attribute 'replace'")
               end ;;
  row_list <- lift_result (set_cell Column.repository_license license
                                    row_list) ;;
  let row_list := map clean_cell row_list in
  modify (table_append row_list).

Definition populate_row (fuel : nat) (repository_object : json)
           (in_library_manager verify log_verification_failures : bool)
  : M World unit :=
  html_url <- lift_result (str_field repository_object "html_url") ;;
  modify count_source ;;;
  name_blacklisted <-
    (if verify then
       name <- lift_result (str_field repository_object "name") ;;
       ret (matches_any repository_name_blacklist name)
     else ret false) ;;
  if name_blacklisted then ret tt
  else
    topic_blacklisted <-
      (if verify then
         topics <- lift_result (subscript repository_object "topics") ;;
         lift_result (has_blacklisted_topic topic_blacklist topics)
       else ret false) ;;
    if topic_blacklisted then ret tt
    else
      modify count_non_blacklisted ;;;
      rows <- gets table ;;
      listed <- lift_result (already_listed rows html_url) ;;
      if listed then ret tt
      else
        modify count_unique ;;;
        '(library_folder, row_list) <-
          find_library_folder normalize_url network clock
            fill_library_dot_properties fill_library_dot_json fuel
            repository_object (repeat "" Column.count) verify ;;
        match library_folder with
        | None =>
            if verify then
              if log_verification_failures
              then modify (write_verification_failed html_url)
              else ret tt
            else fill_row fuel repository_object in_library_manager html_url
                          "" row_list
        | Some library_folder =>
            fill_row fuel repository_object in_library_manager html_url
                     library_folder row_list
        end.

(** The retry loop of [search_repositories] for one page, by the number of
    iterations it has left; [last] is the latest response and its decoded
    payload. *)
Fixpoint search_page (fuel : nat) (request_parameters : string)
         (page_number : Z) (iterations : nat)
         (last : option (fetch_result * json))
  : M World (fetch_result * json) :=
  match iterations with
  | O =>
      match last with
      | Some response => ret response
      | None => raise (TypeError "tuple indices must be integers or slices")
      end
  | S iterations' =>
      do_github_api_request_return <-
        api_response normalize_url network clock fuel "search/repositories"
                     request_parameters page_number ;;
      json_data <- lift_result (dict (json_data do_github_api_request_return)) ;;
      incomplete_results <-
        lift_result (subscript json_data "incomplete_results") ;;
      if truthy incomplete_results then
        lift_net (time_sleep search_retry_delay) ;;;
        search_page fuel request_parameters page_number iterations'
                    (Some (do_github_api_request_return, json_data))
      else
        total_count <- lift_result (subscript json_data "total_count") ;;
        if py_eq_zero total_count then
          search_page fuel request_parameters page_number iterations'
                      (Some (do_github_api_request_return, json_data))
        else ret (do_github_api_request_return, json_data)
  end.

(** [for repository_object in json_data["items"]: ...] *)
Fixpoint populate_rows (fuel : nat) (items : list json)
         (verify log_verification_failures : bool) : M World unit :=
  match items with
  | [] => ret tt
  | repository_object :: rest =>
      populate_row fuel repository_object false verify
                   log_verification_failures ;;;
      populate_rows fuel rest verify log_verification_failures
  end.

(** The [while additional_pages] loop of one search segment. *)
Fixpoint search_segment (fuel : nat) (request_parameters : string)
         (verify log_verification_failures : bool) (page_number : Z)
         (search_results_count : Z) : M World unit :=
  match fuel with
  | O => diverge
  | S fuel' =>
      '(do_github_api_request_return, json_data) <-
        search_page fuel request_parameters page_number
                    maximum_search_retries None ;;
      items <- lift_result (subscript json_data "items") ;;
      items <- lift_result (py_list items) ;;
      populate_rows fuel items verify log_verification_failures ;;;
      let search_results_count :=
        (search_results_count + Z.of_nat (length items))%Z in
      if additional_pages do_github_api_request_return then
        search_segment fuel' request_parameters verify
                       log_verification_failures (page_number + 1)
                       search_results_count
      else
        total_count <- lift_result (subscript json_data "total_count") ;;
        _ <- lift_result (py_number total_count) ;;
        ret tt
  end.

Fixpoint search_repositories (fuel : nat) (search_query : string)
         (created_argument_list : list string) (fork_argument : string)
         (verify log_verification_failures : bool) : M World unit :=
  match created_argument_list with
  | [] => ret tt
  | created_argument :: rest =>
      search_segment fuel
        ("q=" ++ search_query ++ "+created:" ++ created_argument
         ++ "+fork:" ++ fork_argument ++ "&sort=forks&order=desc")%string
        verify log_verification_failures 1 0 ;;;
      search_repositories fuel search_query rest fork_argument verify
                          log_verification_failures
  end.

End RowBuilder.

(* ===================================================================== *)
(** ** Duplicates in the table *)
(* ===================================================================== *)

(** The repository-URL cells of the rows of a table. *)
Definition url_cells (t : list row) : list string :=
  map (cell Column.repository_url) t.

Lemma already_listed_false t url :
  already_listed t url = Ok false -> ~ In url (url_cells t).
Proof.
  induction t as [|r t IH]; cbn; [auto|].
  destruct r as [|c r]; cbn; [discriminate|].
  destruct (String.eqb c url) eqn:E; [discriminate|].
  intros H [Hc | Hin]; [|now apply IH].
  apply String.eqb_neq in E. unfold cell in Hc. cbn in Hc. congruence.
Qed.

Lemma already_listed_true t url :
  In url (url_cells t) -> Forall (fun r => r <> []) t ->
  already_listed t url = Ok true.
Proof.
  induction t as [|r t IH]; cbn; [intros []|].
  intros Hin Hne. inversion Hne as [|? ? Hr Ht]; subst.
  destruct r as [|c r]; [congruence|]. cbn.
  destruct (String.eqb c url) eqn:E; [reflexivity|].
  destruct Hin as [Hc | Hin]; [|now apply IH].
  apply String.eqb_neq in E. unfold cell in Hc. cbn in Hc. congruence.
Qed.

Lemma set_cell_url column value row_list row_list' :
  set_cell column value row_list = Ok row_list' ->
  cell Column.repository_url row_list'
  = match column with
    | O => value
    | S _ => cell Column.repository_url row_list
    end.
Proof.
  destruct row_list as [|c rest]; [destruct column; discriminate|].
  destruct column as [|column]; cbn.
  - intros H. inversion H. reflexivity.
  - destruct (set_cell column value rest); try discriminate.
    intros H. inversion H. reflexivity.
Qed.

Lemma set_cell_nonempty column value row_list row_list' :
  set_cell column value row_list = Ok row_list' -> row_list' <> [].
Proof.
  destruct row_list as [|c rest]; [destruct column; discriminate|].
  destruct column as [|column]; cbn.
  - intros H. inversion H. discriminate.
  - destruct (set_cell column value rest); try discriminate.
    intros H. inversion H. discriminate.
Qed.

Lemma clean_row_url row_list :
  cell Column.repository_url (map clean_cell row_list)
  = clean_cell (cell Column.repository_url row_list).
Proof. destruct row_list; reflexivity. Qed.

(** The table is left as it is. *)
Definition same_table (w w' : World) : Prop := table w' = table w.

Lemma same_table_refl w : same_table w w.
Proof. reflexivity. Qed.

Lemma same_table_trans a b c :
  same_table a b -> same_table b c -> same_table a c.
Proof. unfold same_table. congruence. Qed.

(** Steps through a computation built from the monad's operations, for a
    relation that every primitive step respects. *)
Ltac ensures_step refl trans :=
  first
    [ apply ensures_ret; [exact refl | trivial]
    | apply ensures_raise; exact refl
    | apply ensures_diverge; exact refl
    | apply ensures_lift_result; [exact refl | trivial]
    | apply ensures_try_except_classes; [exact refl | exact trans | | intros ?]
    | eapply ensures_bind with (P := fun _ => True);
      [exact trans | | intros ? _] ].

Section TableFrame.

Variable normalize_url : string -> string.
Variable network : nat -> string -> list (string * string) -> outcome.
Variable clock : nat -> Z.
Variable fill_library_dot_properties : string -> row -> row.
Variable fill_library_dot_json : json -> row -> result row.

Local Abbreviation keeps Q m := (ensures same_table Q m).

Ltac keeps_step := ensures_step same_table_refl same_table_trans.

Lemma keeps_lift_net {A : Type} (m : M Net A) :
  keeps (fun _ => True) (lift_net m).
Proof.
  intros w r w' H. unfold lift_net in H. destruct (m (net w)) as [r0 n].
  inversion H; subst. split; [reflexivity | trivial].
Qed.

Lemma keeps_modify (f : World -> World) :
  (forall w, table (f w) = table w) -> keeps (fun _ => True) (modify f).
Proof. intros Hf. apply ensures_modify. exact Hf. Qed.

Lemma keeps_api_response fuel request parameters page_number :
  keeps (fun _ => True)
        (api_response normalize_url network clock fuel request parameters
                      page_number).
Proof.
  unfold api_response. keeps_step.
  - apply keeps_modify. reflexivity.
  - apply keeps_lift_net.
Qed.

Lemma keeps_root_listing_loop fuel : forall request page_number listing,
  keeps (fun _ => True)
        (root_listing_loop normalize_url network clock fuel request
                           page_number listing).
Proof.
  induction fuel as [|fuel IH]; intros request page_number listing;
    cbn [root_listing_loop].
  - keeps_step.
  - keeps_step.
    + keeps_step; [|keeps_step]. keeps_step; [apply keeps_api_response|].
      keeps_step.
    + destruct a as [r|]; [|keeps_step].
      keeps_step; [keeps_step|].
      destruct (additional_pages r); [apply IH | keeps_step].
Qed.

Lemma keeps_subfolder_listing_loop fuel : forall request page_number listing,
  keeps (fun _ => True)
        (subfolder_listing_loop normalize_url network clock fuel request
                                page_number listing).
Proof.
  induction fuel as [|fuel IH]; intros request page_number listing;
    cbn [subfolder_listing_loop].
  - keeps_step.
  - keeps_step.
    + keeps_step; [|keeps_step]. keeps_step; [apply keeps_api_response|].
      keeps_step.
    + destruct a as [r|]; [|keeps_step].
      keeps_step; [keeps_step|].
      destruct (additional_pages r); [apply IH | keeps_step].
Qed.

Lemma keeps_search_subfolders fuel repository_object full_name verify listing :
  forall row_list,
  keeps (fun _ => True)
        (search_subfolders normalize_url network clock
           fill_library_dot_properties fill_library_dot_json fuel
           repository_object full_name verify listing row_list).
Proof.
  induction listing as [|item rest IH]; intros row_list;
    cbn [search_subfolders].
  - keeps_step.
  - destruct (String.eqb (item_type item) "dir"); [|apply IH].
    destruct (matches_any library_subfolder_blacklist (item_name item));
      [apply IH|].
    keeps_step; [apply keeps_subfolder_listing_loop|].
    keeps_step; [keeps_step|].
    destruct (find_library a0 verify) as [[|]|].
    + keeps_step; [apply keeps_lift_net|]. destruct a1.
      keeps_step; [apply keeps_lift_net|]. destruct a1. keeps_step.
    + keeps_step; [apply keeps_modify; reflexivity | apply IH].
    + keeps_step; [apply keeps_modify; reflexivity | apply IH].
Qed.

Lemma keeps_find_library_folder fuel repository_object row_list verify :
  keeps (fun _ => True)
        (find_library_folder normalize_url network clock
           fill_library_dot_properties fill_library_dot_json fuel
           repository_object row_list verify).
Proof.
  unfold find_library_folder, root_stage, scan_root.
  keeps_step.
  - keeps_step; [apply keeps_lift_net|]. destruct a.
    keeps_step; [apply keeps_lift_net|]. destruct a.
    destruct (b || b0); [keeps_step|].
    keeps_step; [destruct verify; [keeps_step | apply keeps_lift_net]|].
    destruct a; [keeps_step|].
    keeps_step; [keeps_step|].
    keeps_step; [apply keeps_root_listing_loop|].
    destruct a0; [|keeps_step].
    keeps_step; [keeps_step|]. keeps_step.
  - destruct a as [[answer | [name listing]] r]; [keeps_step|].
    destruct (find_library listing verify) as [[|]|]; [keeps_step| |].
    + destruct (verify && true); [keeps_step | apply keeps_search_subfolders].
    + destruct (verify && false); [keeps_step | apply keeps_search_subfolders].
Qed.

End TableFrame.

(** From a table [t0], the computation leaves the table as it is or, when
    [C] holds, appends one row whose repository-URL cell is the cleaned
    [url]. *)
Definition may_append {A : Type} (C : Prop) (t0 : list row) (url : string)
           (m : M World A) : Prop :=
  forall w r w', table w = t0 -> m w = (r, w') ->
    table w' = t0
    \/ (C /\ exists row_list,
               table w' = t0 ++ [row_list]
               /\ row_list <> []
               /\ cell Column.repository_url row_list = clean_cell url).

Lemma may_append_keeps {A : Type} C t0 url (Q : A -> Prop) (m : M World A) :
  ensures same_table Q m -> may_append C t0 url m.
Proof.
  intros Hm w r w' Ht H. destruct (Hm _ _ _ H) as [Hs _].
  left. unfold same_table in Hs. congruence.
Qed.

Lemma may_append_bind {A B : Type} C t0 url (P : A -> Prop)
      (m : M World A) (k : A -> M World B) :
  ensures same_table P m -> (forall a, P a -> may_append C t0 url (k a)) ->
  may_append C t0 url (bind m k).
Proof.
  intros Hm Hk w r w' Ht H. unfold bind in H.
  destruct (m w) as [[a|e|] w1] eqn:E; destruct (Hm _ _ _ E) as [Hs HP];
    unfold same_table in Hs.
  - eapply Hk; [now apply HP | | exact H]. congruence.
  - inversion H; subst. left. congruence.
  - inversion H; subst. left. congruence.
Qed.

Lemma may_append_gets_table {B : Type} C t0 url (k : list row -> M World B) :
  may_append C t0 url (k t0) -> may_append C t0 url (bind (gets table) k).
Proof.
  intros Hk w r w' Ht H. unfold bind, gets in H. rewrite Ht in H.
  eapply Hk; eassumption.
Qed.

Lemma may_append_condition {A : Type} (C : Prop) t0 url (m : M World A) :
  C -> may_append True t0 url m -> may_append C t0 url m.
Proof.
  intros HC Hm w r w' Ht H.
  destruct (Hm _ _ _ Ht H) as [Hs | [_ Hrow]]; [now left | right; auto].
Qed.

Section RowBuilderFacts.

Variable normalize_url : string -> string.
Variable network : nat -> string -> list (string * string) -> outcome.
Variable clock : nat -> Z.
Variable fill_library_dot_properties : string -> row -> row.
Variable fill_library_dot_json : json -> row -> result row.
Variable repr : json -> string.

Local Abbreviation keeps Q m := (ensures same_table Q m).

(** The row has the repository-URL cell [url] and is not empty. *)
Definition row_of (url : string) (row_list : row) : Prop :=
  cell Column.repository_url row_list = url /\ row_list <> [].

Lemma set_cell_row_of column value url row_list row_list' :
  cell Column.repository_url row_list = url ->
  set_cell (S column) value row_list = Ok row_list' ->
  row_of url row_list'.
Proof.
  intros Hu Hr. split.
  - apply set_cell_url in Hr. congruence.
  - eapply set_cell_nonempty; exact Hr.
Qed.

Lemma keeps_set_cell column value url row_list :
  cell Column.repository_url row_list = url ->
  keeps (row_of url) (lift_result (set_cell (S column) value row_list)).
Proof.
  intros Hu. apply ensures_lift_result; [exact same_table_refl|].
  intros r Hr. eapply set_cell_row_of; eassumption.
Qed.

Lemma keeps_set_from_field column obj key url row_list :
  cell Column.repository_url row_list = url ->
  keeps (row_of url)
        (set_from_field repr (S column) obj key row_list).
Proof.
  intros Hu. unfold set_from_field.
  eapply ensures_bind with (P := fun _ => True);
    [exact same_table_trans | | intros v _].
  - apply ensures_lift_result; [exact same_table_refl | trivial].
  - now apply keeps_set_cell.
Qed.

Lemma set_fork_of_row url obj row_list row_list' :
  cell Column.repository_url row_list = url ->
  set_fork_of repr obj row_list = Ok row_list' ->
  row_of url row_list'.
Proof.
  unfold set_fork_of. intros Hu H.
  destruct (subscript obj "parent"); try discriminate.
  destruct (str_of_field repr a "full_name"); try discriminate.
  eapply set_cell_row_of; eassumption.
Qed.

Ltac keeps_step := ensures_step same_table_refl same_table_trans.

(** A step that writes a cell other than the repository URL. *)
Ltac row_step url H :=
  eapply may_append_bind with (P := row_of url);
  [ first [apply keeps_set_from_field | apply keeps_set_cell]; exact H | ].

Lemma fill_row_appends fuel repository_object in_library_manager html_url
      library_folder row_list t0 :
  may_append True t0 html_url
    (fill_row normalize_url network clock repr fuel repository_object
              in_library_manager html_url library_folder row_list).
Proof.
  unfold fill_row.
  eapply may_append_bind with (P := fun _ => True); [keeps_step | intros r0 _].
  eapply may_append_bind with (P := row_of html_url).
  { apply ensures_lift_result; [exact same_table_refl|]. intros r Hr. split.
    - apply set_cell_url in Hr. exact Hr.
    - eapply set_cell_nonempty; exact Hr. }
  intros r1 [H1 _].
  eapply may_append_bind with (P := fun _ => True); [keeps_step | intros owner _].
  row_step html_url H1; intros r2 [H2 _].
  row_step html_url H2; intros r3 [H3 _].
  row_step html_url H3; intros r4 [H4 _].
  row_step html_url H4; intros r5 [H5 _].
  row_step html_url H5; intros r6 [H6 N6].
  eapply may_append_bind with (P := fun _ => True); [keeps_step | intros fork _].
  eapply may_append_bind with (P := fun x => row_of html_url (snd x)).
  { destruct (truthy fork).
    - apply ensures_try_except_classes;
        [exact same_table_refl | exact same_table_trans | | intros e].
      + eapply ensures_bind with (P := row_of html_url);
          [exact same_table_trans | | intros r Hr].
        * apply ensures_lift_result; [exact same_table_refl|].
          intros r Hr. eapply set_fork_of_row; [|exact Hr]. exact H6.
        * apply ensures_ret; [exact same_table_refl | exact Hr].
      + keeps_step; [keeps_step|].
        keeps_step; [apply keeps_api_response|].
        keeps_step; [keeps_step|].
        eapply ensures_bind with (P := row_of html_url);
          [exact same_table_trans | | intros r Hr].
        * apply ensures_lift_result; [exact same_table_refl|].
          intros r Hr. eapply set_fork_of_row; [|exact Hr]. exact H6.
        * apply ensures_ret; [exact same_table_refl | exact Hr].
    - apply ensures_ret; [exact same_table_refl|]. split; assumption. }
  intros [repository_object' r7] [H7 _]. cbn [snd] in H7.
  row_step html_url H7; intros r8 [H8 _].
  row_step html_url H8; intros r9 [H9 _].
  row_step html_url H9; intros r10 [H10 _].
  eapply may_append_bind with (P := fun _ => True);
    [apply keeps_lift_net | intros contributors _].
  row_step html_url H10; intros r11 [H11 _].
  eapply may_append_bind with (P := fun _ => True); [keeps_step | intros fn _].
  eapply may_append_bind with (P := fun _ => True); [keeps_step | intros db _].
  eapply may_append_bind with (P := fun _ => True);
    [apply keeps_api_response | intros fetched _].
  eapply may_append_bind with (P := fun _ => True); [keeps_step | intros sd _].
  eapply may_append_bind with (P := fun _ => True); [keeps_step | intros st _].
  row_step html_url H11; intros r12 [H12 _].
  eapply may_append_bind with (P := fun _ => True); [keeps_step | intros lic _].
  row_step html_url H12; intros r13 [H13 N13].
  eapply may_append_bind with (P := fun _ => True); [keeps_step | intros desc _].
  eapply may_append_bind with (P := row_of html_url).
  { apply ensures_lift_result; [exact same_table_refl|]. intros r Hr.
    destruct desc; try (eapply set_cell_row_of; [|exact Hr]; exact H13).
    inversion Hr; subst. split; assumption. }
  intros r14 [H14 _].
  eapply may_append_bind with (P := fun _ => True); [keeps_step | intros tp _].
  eapply may_append_bind with (P := fun _ => True); [keeps_step | intros tj _].
  row_step html_url H14; intros r15 [H15 _].
  row_step html_url H15; intros r16 [H16 _].
  eapply may_append_bind with (P := fun _ => True); [keeps_step | intros ls _].
  row_step html_url H16; intros r17 [H17 N17].
  intros w r w' Ht H. inversion H; subst. right. split; [exact I|].
  exists (map clean_cell r17). cbn. split; [reflexivity|]. split.
  - destruct r17; [congruence | discriminate].
  - rewrite clean_row_url. now rewrite H17.
Qed.

Lemma populate_row_appends fuel repository_object in_library_manager verify
      log_verification_failures html_url t0 :
  str_field repository_object "html_url" = Ok html_url ->
  may_append (already_listed t0 html_url = Ok false) t0 html_url
    (populate_row normalize_url network clock fill_library_dot_properties
       fill_library_dot_json repr fuel repository_object in_library_manager
       verify log_verification_failures).
Proof.
  intros Hurl. unfold populate_row.
  eapply may_append_bind with (P := fun u => u = html_url).
  { apply ensures_lift_result; [exact same_table_refl|]. congruence. }
  intros ? ->.
  eapply may_append_bind with (P := fun _ => True);
    [apply keeps_modify; reflexivity | intros _ _].
  eapply may_append_bind with (P := fun _ => True).
  { destruct verify; [|keeps_step]. keeps_step; [keeps_step | keeps_step]. }
  intros [|] _; [eapply may_append_keeps with (Q := fun _ => True); keeps_step|].
  eapply may_append_bind with (P := fun _ => True).
  { destruct verify; [|keeps_step]. keeps_step; [keeps_step | keeps_step]. }
  intros [|] _; [eapply may_append_keeps with (Q := fun _ => True); keeps_step|].
  eapply may_append_bind with (P := fun _ => True);
    [apply keeps_modify; reflexivity | intros _ _].
  apply may_append_gets_table.
  eapply may_append_bind
    with (P := fun listed => already_listed t0 html_url = Ok listed).
  { apply ensures_lift_result; [exact same_table_refl | trivial]. }
  intros [|] Hl; [eapply may_append_keeps with (Q := fun _ => True); keeps_step|].
  apply may_append_condition; [exact Hl|].
  eapply may_append_bind with (P := fun _ => True);
    [apply keeps_modify; reflexivity | intros _ _].
  eapply may_append_bind with (P := fun _ => True);
    [apply keeps_find_library_folder | intros [library_folder row_list] _].
  destruct library_folder as [library_folder|].
  - apply fill_row_appends.
  - destruct verify; [|apply fill_row_appends].
    destruct log_verification_failures; eapply may_append_keeps with (Q := fun _ => True).
    + apply keeps_modify. reflexivity.
    + keeps_step.
Qed.

(** A repository already in a well-formed table is dropped by a plain
    return when its name and topics are not looked at. *)
Lemma populate_row_duplicate_returns fuel repository_object in_library_manager
      log_verification_failures html_url w :
  str_field repository_object "html_url" = Ok html_url ->
  In html_url (url_cells (table w)) ->
  Forall (fun r => r <> []) (table w) ->
  fst (populate_row normalize_url network clock fill_library_dot_properties
         fill_library_dot_json repr fuel repository_object in_library_manager
         false log_verification_failures w) = Ok tt.
Proof.
  intros Hurl Hin Hne. unfold populate_row.
  unfold bind at 1. unfold lift_result at 1. rewrite Hurl.
  unfold bind at 1. cbn [modify].
  unfold bind at 1. cbn [ret].
  unfold bind at 1. cbn [ret].
  unfold bind at 1. cbn [modify].
  unfold bind at 1. cbn [gets].
  unfold bind at 1. unfold lift_result at 1.
  change (table (count_non_blacklisted (count_source w))) with (table w).
  rewrite (already_listed_true _ _ Hin Hne). reflexivity.
Qed.

End RowBuilderFacts.

Lemma NoDup_snoc {A : Type} (l : list A) (x : A) :
  NoDup l -> ~ In x l -> NoDup (l ++ [x]).
Proof.
  induction l as [|a l IH]; intros Hl Hx; cbn.
  - constructor; [intros [] | constructor].
  - inversion Hl as [|? ? Ha Hl']; subst. constructor.
    + intros Hin. apply in_app_or in Hin as [Hin | [-> | []]]; [auto|].
      apply Hx. now left.
    + apply IH; [exact Hl' | intros Hin; apply Hx; now right].
Qed.

(** A URL holds no white space.  The [html_url] of a repository is
    [https://github.com/OWNER/NAME], the two names made of letters, digits,
    hyphens, underscores and dots. *)
Definition without_white_space (url : string) : bool :=
  forallb (fun c => negb (isspace c)) (list_ascii_of_string url).

Lemma replace_tabs_without_white_space url :
  without_white_space url = true -> replace_tabs url = url.
Proof.
  unfold without_white_space.
  induction url as [|c url IH]; cbn [replace_tabs list_ascii_of_string forallb];
    [reflexivity|].
  intros H. apply andb_true_iff in H as [Hc Hu].
  destruct (Ascii.eqb c tab) eqn:E.
  - apply Ascii.eqb_eq in E. subst c. discriminate Hc.
  - now rewrite (IH Hu).
Qed.

Lemma lstrip_without_white_space url :
  without_white_space url = true -> lstrip url = url.
Proof.
  unfold without_white_space. destruct url as [|c url]; [reflexivity|].
  cbn. intros H. apply andb_true_iff in H as [Hc _].
  apply negb_true_iff in Hc. now rewrite Hc.
Qed.

Lemma rstrip_without_white_space url :
  without_white_space url = true -> rstrip url = url.
Proof.
  unfold without_white_space.
  induction url as [|c url IH]; cbn [rstrip list_ascii_of_string forallb];
    [reflexivity|].
  intros H. apply andb_true_iff in H as [Hc Hu].
  apply negb_true_iff in Hc. rewrite (IH Hu).
  destruct url; [now rewrite Hc | reflexivity].
Qed.

(** The clean-up of the cells leaves a URL as it is, so the cell that is
    stored is the URL the duplicate check compares with. *)
Lemma clean_cell_without_white_space url :
  without_white_space url = true -> clean_cell url = url.
Proof.
  intros H. unfold clean_cell, strip.
  rewrite (replace_tabs_without_white_space _ H).
  rewrite (lstrip_without_white_space _ H).
  exact (rstrip_without_white_space _ H).
Qed.


(* ===================================================================== *)
(** ** The retry policy of the search for one page *)
(* ===================================================================== *)

Section SearchRetry.

Variable normalize_url : string -> string.
Variable network : nat -> string -> list (string * string) -> outcome.
Variable clock : nat -> Z.
Variable fuel : nat.
Variable request_parameters : string.
Variable page_number : Z.

(** The request of the page at hand. *)
Definition page_request : M World fetch_result :=
  api_response normalize_url network clock fuel "search/repositories"
               request_parameters page_number.

(** The world after [time.sleep(seconds)]. *)
Definition slept (seconds : Z) (w : World) : World :=
  with_net (log_event (Sleep seconds) (net w)) w.

(** One retry, in the words of the policy: the response to the request of
    the page reports incomplete results, and the retry delay is slept; or it
    reports a total count of zero, and nothing more is done. *)
Inductive search_retry : World -> World -> fetch_result * json -> Prop :=
| RetryIncomplete w response w1 payload incomplete_results :
    page_request w = (Ok response, w1) ->
    dict (json_data response) = Ok payload ->
    subscript payload "incomplete_results" = Ok incomplete_results ->
    truthy incomplete_results = true ->
    search_retry w (slept search_retry_delay w1) (response, payload)
| RetryNoResults w response w1 payload incomplete_results total_count :
    page_request w = (Ok response, w1) ->
    dict (json_data response) = Ok payload ->
    subscript payload "incomplete_results" = Ok incomplete_results ->
    truthy incomplete_results = false ->
    subscript payload "total_count" = Ok total_count ->
    py_eq_zero total_count = true ->
    search_retry w w1 (response, payload).

Inductive search_retried
  : nat -> World -> option (fetch_result * json)
    -> World -> option (fetch_result * json) -> Prop :=
| search_retried_O w last : search_retried 0 w last w last
| search_retried_S k w last w1 response w' last' :
    search_retry w w1 response ->
    search_retried k w1 (Some response) w' last' ->
    search_retried (S k) w last w' last'.

(** The response that ends the loop before its retries are used up. *)
Inductive page_accepted : World -> fetch_result * json -> World -> Prop :=
| PageAccepted w response w1 payload incomplete_results total_count :
    page_request w = (Ok response, w1) ->
    dict (json_data response) = Ok payload ->
    subscript payload "incomplete_results" = Ok incomplete_results ->
    truthy incomplete_results = false ->
    subscript payload "total_count" = Ok total_count ->
    py_eq_zero total_count = false ->
    page_accepted w (response, payload) w1.

Abbreviation search_page_loop :=
  (search_page normalize_url network clock fuel request_parameters
               page_number).

Lemma search_page_retry n last w w1 response :
  search_retry w w1 response ->
  search_page_loop (S n) last w = search_page_loop n (Some response) w1.
Proof.
  intros H. cbn [search_page]. fold page_request.
  destruct H as [w0 r wa j inc Hr Hd Hi Ht | w0 r wa j inc tc Hr Hd Hi Ht Hc Hz].
  - unfold bind at 1. rewrite Hr.
    unfold bind at 1. unfold lift_result at 1. rewrite Hd.
    unfold bind at 1. unfold lift_result at 1. rewrite Hi. rewrite Ht.
    unfold bind at 1. reflexivity.
  - unfold bind at 1. rewrite Hr.
    unfold bind at 1. unfold lift_result at 1. rewrite Hd.
    unfold bind at 1. unfold lift_result at 1. rewrite Hi. rewrite Ht.
    unfold bind at 1. unfold lift_result at 1. rewrite Hc. rewrite Hz.
    reflexivity.
Qed.

Lemma search_page_retried k : forall n last w wk lastk,
  search_retried k w last wk lastk ->
  search_page_loop (k + n) last w = search_page_loop n lastk wk.
Proof.
  induction k as [|k IH]; intros n last w wk lastk H; inversion H; subst.
  - reflexivity.
  - cbn [Nat.add]. erewrite search_page_retry by eassumption. now apply IH.
Qed.

Lemma search_page_accepted n last w response w' :
  page_accepted w response w' ->
  search_page_loop (S n) last w = (Ok response, w').
Proof.
  intros [w0 r wa j inc tc Hr Hd Hi Ht Hc Hz].
  cbn [search_page]. fold page_request.
  unfold bind at 1. rewrite Hr.
  unfold bind at 1. unfold lift_result at 1. rewrite Hd.
  unfold bind at 1. unfold lift_result at 1. rewrite Hi. rewrite Ht.
  unfold bind at 1. unfold lift_result at 1. rewrite Hc. rewrite Hz.
  reflexivity.
Qed.

(** How the loop ends after its retries. *)
Definition search_page_end (n k : nat) (wk : World)
           (lastk : option (fetch_result * json))
           (res : result (fetch_result * json)) (w' : World) : Prop :=
  (k = n /\ w' = wk
   /\ match lastk with
      | Some response => res = Ok response
      | None => n = 0%nat
      end)
  \/ ((k < n)%nat /\ exists response,
         page_accepted wk response w' /\ res = Ok response)
  \/ ((k < n)%nat /\ forall response, res <> Ok response).

Lemma search_page_decompose n : forall last w res w',
  search_page_loop n last w = (res, w') ->
  exists k wk lastk,
    search_retried k w last wk lastk /\ search_page_end n k wk lastk res w'.
Proof.
  induction n as [|n IH]; intros last w res w' H.
  - exists 0%nat, w, last. split; [constructor|]. left.
    cbn in H. destruct last; inversion H; subst; auto.
  - assert (Hfail : (forall response, res <> Ok response) ->
                    exists k wk lastk,
                      search_retried k w last wk lastk
                      /\ search_page_end (S n) k wk lastk res w').
    { intros Hres. exists 0%nat, w, last. split; [constructor|].
      right. right. split; [lia | exact Hres]. }
    assert (Hnext : forall w1 response,
               search_retry w w1 response ->
               search_page_loop n (Some response) w1 = (res, w') ->
               exists k wk lastk,
                 search_retried k w last wk lastk
                 /\ search_page_end (S n) k wk lastk res w').
    { intros w1 response Hretry Hrun.
      apply IH in Hrun as (k & wk & lastk & Hk & Hend).
      exists (S k), wk, lastk. split; [econstructor; eassumption|].
      destruct Hend as [(-> & -> & Hl) | [(Hlt & Ha) | (Hlt & Hf)]].
      - left. repeat split; try reflexivity.
        destruct lastk; [exact Hl|].
        subst n. inversion Hk.
      - right. left. split; [lia | exact Ha].
      - right. right. split; [lia | exact Hf]. }
    cbn [search_page] in H. fold page_request in H.
    unfold bind at 1 in H.
    destruct (page_request w) as [[r|e|] w1] eqn:Hr;
      [| apply Hfail; inversion H; discriminate
       | apply Hfail; inversion H; discriminate].
    unfold bind at 1 in H. unfold lift_result at 1 in H.
    destruct (dict (json_data r)) as [j|e|] eqn:Hd;
      [| apply Hfail; inversion H; discriminate
       | apply Hfail; inversion H; discriminate].
    unfold bind at 1 in H. unfold lift_result at 1 in H.
    destruct (subscript j "incomplete_results") as [inc|e|] eqn:Hi;
      [| apply Hfail; inversion H; discriminate
       | apply Hfail; inversion H; discriminate].
    destruct (truthy inc) eqn:Ht.
    + unfold bind at 1 in H.
      eapply Hnext; [eapply RetryIncomplete; eassumption | exact H].
    + unfold bind at 1 in H. unfold lift_result at 1 in H.
      destruct (subscript j "total_count") as [tc|e|] eqn:Hc;
        [| apply Hfail; inversion H; discriminate
         | apply Hfail; inversion H; discriminate].
      destruct (py_eq_zero tc) eqn:Hz.
      * eapply Hnext; [eapply RetryNoResults; eassumption | exact H].
      * inversion H; subst. exists 0%nat, w, last. split; [constructor|].
        right. left. split; [lia|]. eexists. split; [|reflexivity].
        econstructor; eassumption.
Qed.

(** A request of the page records itself and nothing else. *)
Lemma page_request_records w r w1 :
  page_request w = (r, w1) ->
  api_requests w1
  = api_requests w ++ [("search/repositories", page_number)].
Proof.
  unfold page_request, api_response, bind, modify, lift_net. cbn.
  match goal with
  | |- context [get_github_api_response ?a ?b ?c ?d ?e ?f ?g ?h] =>
      destruct (get_github_api_response a b c d e f g h) as [[x|x|] n0]
  end; intros H; inversion H; reflexivity.
Qed.

(** Each retry has recorded one more request of the same page. *)
Lemma search_retried_requests k : forall w last wk lastk,
  search_retried k w last wk lastk ->
  api_requests wk
  = api_requests w ++ repeat ("search/repositories", page_number) k.
Proof.
  induction k as [|k IH]; intros w last wk lastk H; inversion H; subst.
  - cbn. now rewrite app_nil_r.
  - erewrite IH by eassumption.
    assert (Hone : api_requests w1
                   = api_requests w ++ [("search/repositories", page_number)]).
    { match goal with
      | Hs : search_retry _ _ _ |- _ =>
          destruct Hs as [w0 r wa j inc Hq _ _ _ | w0 r wa j inc tc Hq _ _ _ _ _]
      end; apply page_request_records in Hq; exact Hq. }
    rewrite Hone, <- app_assoc. reflexivity.
Qed.

End SearchRetry.


(* ===================================================================== *)
(** ** Worked scenarios *)
(* ===================================================================== *)

(** The identity stands for [normalize_url] on URLs it leaves alone. *)
Definition plain_url (url : string) : string := url.

Definition frozen_clock (n : nat) : Z := 0%Z.

Definition http_error (text : string) : outcome :=
  Failed (Exn "HTTPError" text).

Definition not_found : outcome := http_error "HTTP Error 404: Not Found".
Definition bad_gateway : outcome := http_error "HTTP Error 502: Bad Gateway".

(** A response with a decoded body, no Link header and budget left. *)
Definition answer (payload : json) : outcome :=
  Opened (Response "" (Decoded payload) None (Some 4999%Z)).

Definition entry (name type : string) : json :=
  JDict [("name", JStr name); ("type", JStr type)].

(** [part] occurs in [url]. *)
Definition mentions (url part : string) : bool :=
  negb (PyStr.find url part =? -1)%Z.

Definition fresh_net : Net := MkNet 5000 5000 None 0 0 [].
Definition fresh_world : World := MkWorld fresh_net [] 0 0 0 [] [] [].

(** *** A server that always answers 502 *)

Definition gateway_down (n : nat) (url : string)
           (headers : list (string * string)) : outcome := bad_gateway.

(** *** A paginated answer *)

Definition contributors_link : string :=
  "<https://api.github.com/repositories/1/contributors?per_page=1&page=2>; rel="
  ++ String quote ("next" ++ String quote
  (", <https://api.github.com/repositories/1/contributors?per_page=1&page=34>; rel="
   ++ String quote ("last" ++ String quote ""))).

Definition contributors_page : response :=
  Response "" (Decoded (JList [JDict [("login", JStr "octocat")]]))
           (Some contributors_link) (Some 4998%Z).

Definition contributors_server (n : nat) (url : string)
           (headers : list (string * string)) : outcome :=
  Opened contributors_page.

Definition contributors_url : string :=
  "https://api.github.com/repos/octocat/Hello/contributors?per_page=1".

Definition contributors_fetched : fetch_result :=
  FetchResult (JList [JDict [("login", JStr "octocat")]]) true (PageStr "34").

Lemma get_json_from_url_pagination_witness :
  get_json_from_url plain_url contributors_server frozen_clock 0
                    contributors_url fresh_net
  = (Ok contributors_fetched,
     snd (get_json_from_url plain_url contributors_server frozen_clock 0
                            contributors_url fresh_net))
  /\ exists url_data n headers,
       contributors_server n (plain_url contributors_url) headers
       = Opened url_data
       /\ body url_data = Decoded (json_data contributors_fetched)
       /\ (truthy (json_data contributors_fetched) = false ->
           additional_pages contributors_fetched = false
           /\ page_count contributors_fetched = PageInt 0)
       /\ (truthy (json_data contributors_fetched) = true ->
           (additional_pages contributors_fetched = true
            <-> has_next_relation (Link url_data))
           /\ page_count contributors_fetched
              = match last_relation_page (Link url_data) with
                | Some page => PageStr page
                | None => PageInt 1
                end).
Proof.
  split; [vm_compute; reflexivity|].
  apply (get_json_from_url_pagination plain_url contributors_server
           frozen_clock 0 contributors_url fresh_net
           (snd (get_json_from_url plain_url contributors_server frozen_clock
                                   0 contributors_url fresh_net))
           contributors_fetched).
  vm_compute. reflexivity.
Defined.

(** *** A budget that is used up and comes back *)

Definition rate_limit_payload (core_remaining : Z) : json :=
  JDict [("resources",
          JDict [("core", JDict [("limit", JInt 60);
                                 ("remaining", JInt core_remaining);
                                 ("reset", JInt 1000)]);
                 ("search", JDict [("limit", JInt 10);
                                   ("remaining", JInt 10);
                                   ("reset", JInt 1000)])])].

(** The first answer reports no core requests left, the later ones 60. *)
Definition rate_limit_server (n : nat) (url : string)
           (headers : list (string * string)) : outcome :=
  Opened (Response "" (Decoded (rate_limit_payload
                                  (if (n =? 0)%nat then 0 else 60)))
                   None None).

(** A clock that moves on by 100 seconds between two readings. *)
Definition ticking_clock (n : nat) : Z := (1000 + 100 * Z.of_nat n)%Z.

Definition exhausted_net : Net := MkNet 10 0 None 0 0 [].

Lemma rate_limit_server_nonnegative :
  budgets_nonnegative plain_url rate_limit_server.
Proof.
  intros n headers url_data payload api value Hn Hb resources Hd Hv.
  unfold rate_limit_server in Hn. inversion Hn; subst url_data. cbn in Hb.
  inversion Hb; subst payload. cbn in Hd. inversion Hd; subst resources.
  destruct api, (n =? 0)%nat; cbn in Hv; inversion Hv; lia.
Qed.

Lemma check_rate_limiting_releases_with_budget_witness :
  check_rate_limiting plain_url rate_limit_server ticking_clock 3 core
                      exhausted_net
  = (Ok tt, MkNet 10 60 None 2 5
              [Urlopen rate_limit_url
                 [("Accept", "application/vnd.github.mercy-preview+json")];
               Urlopen rate_limit_url
                 [("Accept", "application/vnd.github.mercy-preview+json")]])
  /\ (0 < 60)%Z.
Proof.
  split; [vm_compute; reflexivity|].
  apply (proj1 (check_rate_limiting_releases_with_budget
                  plain_url rate_limit_server ticking_clock 3 core
                  exhausted_net
                  (MkNet 10 60 None 2 5
                     [Urlopen rate_limit_url
                        [("Accept", "application/vnd.github.mercy-preview+json")];
                      Urlopen rate_limit_url
                        [("Accept", "application/vnd.github.mercy-preview+json")]])
                  rate_limit_server_nonnegative
                  ltac:(cbn; lia)
                  ltac:(vm_compute; reflexivity))).
Defined.

(** *** A server that is throttling *)

Definition unavailable : outcome :=
  http_error "HTTP Error 503: Service Unavailable".

(** The rate-limit endpoint answers with 60 core requests left; every
    other URL is refused with 503. *)
Definition throttling_server (n : nat) (url : string)
           (headers : list (string * string)) : outcome :=
  if String.eqb url rate_limit_url then
    Opened (Response "" (Decoded (rate_limit_payload 60)) None None)
  else unavailable.

Definition throttled_url : string :=
  "https://api.github.com/repos/someone/blinker".

(** The cached count of core requests is 0, so that the re-check after the
    first 503 asks the rate-limit endpoint. *)
Definition throttled_run : result fetch_result * Net :=
  get_json_from_url plain_url throttling_server frozen_clock 1 throttled_url
                    exhausted_net.

Lemma get_json_from_url_retry_policy_witness :
  retried throttling_server
          (check_rate_limiting plain_url throttling_server frozen_clock 1)
          (plain_url throttled_url) (S maximum_urlopen_retries)
          exhausted_net (snd throttled_run)
  /\ throttled_run = (Raise TimeoutError, snd throttled_run)
  /\ opens (snd throttled_run) = 7%nat
  /\ remaining_core (snd throttled_run) = 60%Z
  /\ filter (fun e => match e with Sleep _ => true | _ => false end)
            (net_log (snd throttled_run))
     = repeat (Sleep urlopen_retry_delay) 6.
Proof.
  assert (H : retried throttling_server
                (check_rate_limiting plain_url throttling_server frozen_clock 1)
                (plain_url throttled_url) (S maximum_urlopen_retries)
                exhausted_net (snd throttled_run)).
  { eapply retried_S.
    - eapply RetryAfterRecheck with (s1 := _) (s2 := _);
        [vm_compute; reflexivity..].
    - repeat (eapply retried_S;
              [eapply RetryAfterRecheck; [vm_compute; reflexivity..]|]).
      vm_compute. apply retried_O. }
  split; [exact H|]. split; [|vm_compute; repeat split; reflexivity].
  apply (proj1 (proj2 (get_json_from_url_retry_policy
                         plain_url throttling_server frozen_clock 1
                         throttled_url exhausted_net))).
  exact H.
Defined.

(** *** A repository with its library in a subfolder *)

Definition keep_row (content : string) (row_list : row) : row := row_list.
Definition keep_row_json (content : json) (row_list : row) : result row :=
  Ok row_list.

Definition talkie : json :=
  JDict [("full_name", JStr "going-digital/Talkie");
         ("default_branch", JStr "master");
         ("name", JStr "Talkie")].

(** The root holds two administrative files, a [docs] folder and the
    [Talkie] folder with the header; there are no metadata files. *)
Definition talkie_server (n : nat) (url : string)
           (headers : list (string * string)) : outcome :=
  if mentions url "/contents/Talkie?" then
    answer (JList [entry "Talkie.h" "file"])
  else if mentions url "/contents/docs?" then
    answer (JList [entry "library.properties" "file"])
  else if mentions url "/contents?" then
    answer (JList [entry "README.md" "file"; entry "LICENSE" "file";
                   entry "docs" "dir"; entry "Talkie" "dir"])
  else not_found.

Definition talkie_listing : list folder_item :=
  [FolderItem "README.md" "file"; FolderItem "LICENSE" "file";
   FolderItem "docs" "dir"; FolderItem "Talkie" "dir"].

Definition talkie_scan : result (option string * row) * World :=
  find_library_folder plain_url talkie_server frozen_clock keep_row
                      keep_row_json 2 talkie [] true fresh_world.

Lemma find_library_folder_skips_blacklisted_witness :
  fst talkie_scan = Ok (Some "Talkie", [])
  /\ (exists requests folders,
         api_requests (snd talkie_scan)
         = api_requests fresh_world ++ requests
         /\ non_library_folders_list (snd talkie_scan)
            = non_library_folders_list fresh_world ++ folders
         /\ (forall page_number,
                ~ In (subfolder_request "going-digital/Talkie" "docs",
                      page_number) requests)
         /\ ~ In "docs" folders)
  /\ (forall row_list', fst talkie_scan <> Ok (Some "docs", row_list')).
Proof.
  split; [vm_compute; reflexivity|].
  apply (find_library_folder_skips_blacklisted
           plain_url talkie_server frozen_clock keep_row keep_row_json 2
           talkie [] true fresh_world (snd talkie_scan) (fst talkie_scan)
           "going-digital/Talkie" "docs").
  - reflexivity.
  - exists "^docs$". split; [|vm_compute; reflexivity].
    unfold library_subfolder_blacklist. cbn. tauto.
  - vm_compute. reflexivity.
Defined.

Definition talkie_root : World :=
  snd (root_stage plain_url talkie_server frozen_clock keep_row keep_row_json
                  2 talkie [] true fresh_world).


(** *** A repository whose root fails verification *)

Definition sketchy : json :=
  JDict [("full_name", JStr "someone/blinker");
         ("default_branch", JStr "master");
         ("name", JStr "blinker")].

(** The root holds a source file; the library sits in the folder [Blinker]. *)
Definition sketchy_server (n : nat) (url : string)
           (headers : list (string * string)) : outcome :=
  if mentions url "/contents/Blinker?" then
    answer (JList [entry "Blinker.h" "file"])
  else if mentions url "/contents?" then
    answer (JList [entry "main.cpp" "file"; entry "Blinker" "dir"])
  else not_found.

Definition sketchy_listing : list folder_item :=
  [FolderItem "main.cpp" "file"; FolderItem "Blinker" "dir"].

(** C3 as it stands: with verification on, after a root listing classified
    as [classification] the eligible subfolders are searched. *)
Definition searches_subfolders_after (classification : option bool) : Prop :=
  forall normalize_url network clock fill_library_dot_properties
         fill_library_dot_json fuel repository_object row_list row_list1
         w w1 w' full_name root_folder_listing res,
    root_stage normalize_url network clock fill_library_dot_properties
      fill_library_dot_json fuel repository_object row_list true w
    = (Ok (inr (full_name, root_folder_listing), row_list1), w1) ->
    find_library root_folder_listing true = classification ->
    find_library_folder normalize_url network clock
      fill_library_dot_properties fill_library_dot_json fuel
      repository_object row_list true w = (res, w') ->
    subfolders_searched full_name root_folder_listing w1 w' res.


(** *** A search whose first answers are not final *)

Definition search_payload (incomplete : bool) (total : Z) (items : list json)
  : json :=
  JDict [("total_count", JInt total); ("incomplete_results", JBool incomplete);
         ("items", JList items)].

(** The first answer is incomplete, the second reports no results, the
    third is complete. *)
Definition search_server (n : nat) (url : string)
           (headers : list (string * string)) : outcome :=
  match n with
  | O => answer (search_payload true 1 [])
  | S O => answer (search_payload false 0 [])
  | _ => answer (search_payload false 1 [JDict [("name", JStr "Talkie")]])
  end.

Definition search_run : result (fetch_result * json) * World :=
  search_page plain_url search_server frozen_clock 1
              "q=topic:arduino-library" 1 maximum_search_retries None
              fresh_world.


(** *** A repository offered to the table twice *)

Definition repr_unused (j : json) : string := "".

Definition blinker (html_url : string) : json :=
  JDict [("html_url", JStr html_url);
         ("owner", JDict [("login", JStr "someone")]);
         ("name", JStr "blinker");
         ("full_name", JStr "someone/blinker");
         ("default_branch", JStr "master");
         ("archived", JBool false);
         ("fork", JBool false);
         ("pushed_at", JStr "2018-06-01T12:00:00Z");
         ("forks_count", JInt 3);
         ("stargazers_count", JInt 7);
         ("license", JNull);
         ("language", JStr "C++");
         ("description", JNull);
         ("topics", JList [JStr "arduino-library"])].

(** The header [blinker.h] is in the root; there are no metadata files. *)
Definition blinker_server (n : nat) (url : string)
           (headers : list (string * string)) : outcome :=
  if mentions url "/contributors" then Opened contributors_page
  else if mentions url "/status" then
    answer (JDict [("state", JStr "success")])
  else if PyStr.endswith url "/blinker.h" then
    Opened (Response "" (Undecodable "") None None)
  else not_found.

Definition heading : row := "Repository URL" :: repeat "" 37.

Definition headed_world : World :=
  MkWorld fresh_net [heading] 0 0 0 [] [] [].

Definition offer (html_url : string) (w : World) : result unit * World :=
  populate_row plain_url blinker_server frozen_clock keep_row keep_row_json
               repr_unused 1 (blinker html_url) false false false w.

Definition blinker_url : string := "https://github.com/someone/blinker".


(* ===================================================================== *)
(** * Further properties of the code *)
(* ===================================================================== *)

From Stdlib Require Import Sorting.Permutation.

(* ===================================================================== *)
(** ** More about the detector *)
(* ===================================================================== *)

Lemma existsb_permutation {A : Type} (f : A -> bool) l l' :
  Permutation l l' -> existsb f l = existsb f l'.
Proof.
  induction 1 as [|x l l' _ IH|x y l|l l' l'' _ IH1 _ IH2]; cbn.
  - reflexivity.
  - now rewrite IH.
  - destruct (f x), (f y); reflexivity.
  - congruence.
Qed.

Lemma forallb_permutation {A : Type} (f : A -> bool) l l' :
  Permutation l l' -> forallb f l = forallb f l'.
Proof.
  induction 1 as [|x l l' _ IH|x y l|l l' l'' _ IH1 _ IH2]; cbn.
  - reflexivity.
  - now rewrite IH.
  - destruct (f x), (f y); reflexivity.
  - congruence.
Qed.

(** X1. The result of [find_library] does not depend on the order in which
    the listing gives the entries. *)
Theorem find_library_ignores_listing_order
        (l l' : list folder_item) (verify : bool) :
  Permutation l l' -> find_library l verify = find_library l' verify.
Proof.
  intros H. destruct verify.
  - rewrite !find_library_verify_closed.
    rewrite (existsb_permutation metadata_b _ _ H),
      (existsb_permutation header_b _ _ H),
      (existsb_permutation sketch_b _ _ H),
      (existsb_permutation examples_b _ _ H),
      (existsb_permutation keywords_b _ _ H),
      (forallb_permutation administrative_b _ _ H).
    reflexivity.
  - rewrite !find_library_no_verify_closed.
    rewrite (existsb_permutation metadata_b _ _ H),
      (existsb_permutation header_b _ _ H).
    reflexivity.
Qed.

(** X2. Verification only ever rejects: a listing that is Found with
    verification on is Found with verification off. *)
Theorem find_library_verification_only_rejects (l : list folder_item) :
  find_library l true = Found -> find_library l false = Found.
Proof.
  rewrite find_library_verify_closed, find_library_no_verify_closed.
  unfold Found, NotFound, Inconclusive.
  destruct (existsb metadata_b l), (existsb header_b l), (existsb sketch_b l),
    (existsb examples_b l), (existsb keywords_b l), (forallb administrative_b l);
    cbn; congruence.
Qed.

(** The entries [find_library] looks at: the files and, with verification
    on, the folders with the name of an examples folder. *)
Definition read_by_find_library (verify : bool) (it : folder_item) : bool :=
  file_b it || (verify && examples_b it).

Lemma existsb_filter_implied {A : Type} (f p : A -> bool) l :
  (forall x, f x = true -> p x = true) ->
  existsb f (filter p l) = existsb f l.
Proof.
  intros H. induction l as [|x l IH]; cbn; [reflexivity|].
  destruct (p x) eqn:Hp; cbn; rewrite IH; [reflexivity|].
  destruct (f x) eqn:Hf; [|reflexivity].
  apply H in Hf. congruence.
Qed.

Lemma forallb_filter_implied {A : Type} (f p : A -> bool) l :
  (forall x, p x = false -> f x = true) ->
  forallb f (filter p l) = forallb f l.
Proof.
  intros H. induction l as [|x l IH]; cbn; [reflexivity|].
  destruct (p x) eqn:Hp; cbn; rewrite IH; [reflexivity|].
  now rewrite (H x Hp).
Qed.

(** X3. Entries that are neither files nor, with verification on, folders
    named like an examples folder have no influence on the result: symbolic
    links, submodules and all other folders can be dropped from the
    listing. *)
Theorem find_library_reads_files_and_examples_folders
        (l : list folder_item) (verify : bool) :
  find_library (filter (read_by_find_library verify) l) verify
  = find_library l verify.
Proof.
  assert (Hfile : forall (f : folder_item -> bool) v,
             (forall x, f x = true -> file_b x = true) ->
             existsb f (filter (read_by_find_library v) l) = existsb f l).
  { intros f v Hf. apply existsb_filter_implied. intros x Hx.
    unfold read_by_find_library. now rewrite (Hf x Hx). }
  assert (Hm : forall x, metadata_b x = true -> file_b x = true)
    by (unfold metadata_b; intros x Hx; now apply andb_true_iff in Hx).
  assert (Hh : forall x, header_b x = true -> file_b x = true)
    by (unfold header_b; intros x Hx; now apply andb_true_iff in Hx).
  assert (Hs : forall x, sketch_b x = true -> file_b x = true)
    by (unfold sketch_b; intros x Hx; now apply andb_true_iff in Hx).
  assert (Hk : forall x, keywords_b x = true -> file_b x = true)
    by (unfold keywords_b; intros x Hx; now apply andb_true_iff in Hx).
  destruct verify.
  - rewrite !find_library_verify_closed.
    rewrite (Hfile _ true Hm), (Hfile _ true Hh), (Hfile _ true Hs),
      (Hfile _ true Hk).
    rewrite (existsb_filter_implied examples_b).
    2:{ intros x Hx. unfold read_by_find_library. rewrite Hx.
        now rewrite orb_true_r. }
    rewrite (forallb_filter_implied administrative_b).
    2:{ intros x Hx. unfold read_by_find_library in Hx.
        apply orb_false_iff in Hx as [Hx _]. unfold administrative_b.
        now rewrite Hx. }
    reflexivity.
  - rewrite !find_library_no_verify_closed.
    rewrite (Hfile _ false Hm), (Hfile _ false Hh). reflexivity.
Qed.

(** X4. Without verification a listing put together from two parts is
    Found exactly when one of the parts is. *)
Theorem find_library_no_verify_concatenation (l1 l2 : list folder_item) :
  find_library (l1 ++ l2) false = Found
  <-> find_library l1 false = Found \/ find_library l2 false = Found.
Proof.
  rewrite !find_library_no_verify_closed, !existsb_app.
  unfold Found, NotFound.
  destruct (existsb metadata_b l1), (existsb metadata_b l2),
    (existsb header_b l1), (existsb header_b l2); cbn;
    intuition congruence.
Qed.

(** X5. A listing that holds no file, whatever folders and other entries
    it holds, is Inconclusive with verification on and NotFound with
    verification off. *)
Theorem find_library_without_files (l : list folder_item) :
  Forall (fun it => item_type it <> "file") l ->
  find_library l true = Inconclusive /\ find_library l false = NotFound.
Proof.
  intros H.
  assert (Hf : forall f : folder_item -> bool,
             (forall x, f x = true -> file_b x = true) ->
             existsb f l = false).
  { intros f Hf. induction H as [|it l Hit _ IH]; cbn; [reflexivity|].
    rewrite IH, orb_false_r. destruct (f it) eqn:E; [|reflexivity].
    apply Hf in E. unfold file_b in E. apply String.eqb_eq in E.
    contradiction. }
  assert (Ha : forallb administrative_b l = true).
  { clear Hf. induction H as [|it l Hit _ IH]; cbn; [reflexivity|].
    rewrite IH, andb_true_r. unfold administrative_b, file_b.
    apply String.eqb_neq in Hit. now rewrite Hit. }
  rewrite find_library_verify_closed, find_library_no_verify_closed.
  rewrite (Hf metadata_b), (Hf header_b), Ha.
  - split; reflexivity.
  - unfold header_b. intros x Hx. now apply andb_true_iff in Hx.
  - unfold metadata_b. intros x Hx. now apply andb_true_iff in Hx.
Qed.


(* ===================================================================== *)
(** ** Which failures are retried *)
(* ===================================================================== *)

(** X6. An HTTPError is retried exactly when its status is 403, 502 or
    503: of the patterns of [urlopen_retry_exceptions] only these three
    can be a prefix of the description of an HTTPError. *)
Theorem http_error_retried_by_status (msg : string) :
  is_retryable (Exn "HTTPError" msg)
  = PyStr.startswith msg "HTTP Error 403"
    || PyStr.startswith msg "HTTP Error 502"
    || PyStr.startswith msg "HTTP Error 503".
Proof.
  unfold is_retryable, exception_string, urlopen_retry_exceptions,
    check_rate_limiting_after_exception.
  cbn [exn_class exn_str existsb].
  cbn. rewrite !orb_false_r, !orb_assoc. reflexivity.
Qed.

(** X7. A URLError is never retried, whatever its reason: its description
    starts with the name of the class, which the last pattern of
    [urlopen_retry_exceptions] leaves out.  Neither is a TimeoutError nor
    a JSONDecodeError. *)
Theorem url_error_never_retried (msg : string) :
  is_retryable (Exn "URLError" msg) = false
  /\ is_retryable (Exn "TimeoutError" msg) = false
  /\ is_retryable (Exn "JSONDecodeError" msg) = false.
Proof.
  unfold is_retryable, exception_string, urlopen_retry_exceptions,
    check_rate_limiting_after_exception.
  cbn. auto.
Qed.

(* ===================================================================== *)
(** ** What the fetch layer sends *)
(* ===================================================================== *)

(** Between two states of the fetch layer the token is the same and every
    event added to the log satisfies [P], which may depend on the token. *)
Definition net_frame (P : option string -> net_event -> Prop) (s s' : Net)
  : Prop :=
  github_token s' = github_token s
  /\ exists added,
       net_log s' = added ++ net_log s /\ Forall (P (github_token s)) added.

Lemma net_frame_refl P s : net_frame P s s.
Proof.
  split; [reflexivity|]. exists []. split; [reflexivity | constructor].
Qed.

Lemma net_frame_trans P a b c :
  net_frame P a b -> net_frame P b c -> net_frame P a c.
Proof.
  intros (Ht1 & l1 & Hl1 & Hf1) (Ht2 & l2 & Hl2 & Hf2). split; [congruence|].
  exists (l2 ++ l1). split.
  - rewrite Hl2, Hl1. apply app_assoc.
  - apply Forall_app. split; [rewrite <- Ht1; exact Hf2 | exact Hf1].
Qed.

Lemma net_frame_silent P s s' :
  github_token s' = github_token s -> net_log s' = net_log s ->
  net_frame P s s'.
Proof.
  intros Ht Hl. split; [exact Ht|]. exists []. split; [exact Hl | constructor].
Qed.

Lemma net_frame_event P e s :
  P (github_token s) e -> net_frame P s (log_event e s).
Proof.
  intros H. split; [reflexivity|]. exists [e]. split; [reflexivity|].
  constructor; [exact H | constructor].
Qed.

Section Traffic.

Variable normalize_url : string -> string.
Variable network : nat -> string -> list (string * string) -> outcome.
Variable clock : nat -> Z.
Variable P : option string -> net_event -> Prop.

Local Abbreviation sends Q m := (ensures (net_frame P) Q m).

Ltac sends_step := ensures_step (net_frame_refl P) (net_frame_trans P).

Lemma sends_time_time : sends (fun _ => True) (time_time clock).
Proof.
  intros s r s' H. unfold time_time in H. inversion H; subst.
  split; [now apply net_frame_silent | trivial].
Qed.

Lemma sends_set_remaining api value :
  sends (fun _ => True) (modify (set_remaining api value)).
Proof.
  apply ensures_modify. intros s. destruct api; now apply net_frame_silent.
Qed.

Lemma sends_time_sleep seconds :
  (forall token, P token (Sleep seconds)) ->
  sends (fun _ => True) (time_sleep seconds).
Proof.
  intros H. apply ensures_modify. intros s. apply net_frame_event. apply H.
Qed.

Lemma sends_urlopen url headers :
  (forall token, P token (Urlopen url headers)) ->
  sends (fun _ => True) (urlopen network url headers).
Proof.
  intros H s r s' Hrun. split; [|trivial].
  assert (s' = count_open (log_event (Urlopen url headers) s)) as ->.
  { unfold urlopen in Hrun. destruct (network _ _ _); now inversion Hrun. }
  eapply net_frame_trans; [apply net_frame_event, H|].
  now apply net_frame_silent.
Qed.

Lemma sends_attempt url :
  (forall token, P token (Urlopen url (request_headers url token))) ->
  sends (fun _ => True) (attempt network url).
Proof.
  intros H s r s' Hrun. split; [|trivial].
  unfold attempt in Hrun. unfold bind at 1 in Hrun. cbn [gets] in Hrun.
  revert Hrun. generalize (request_headers url (github_token s)) (H (github_token s)).
  intros headers Hh Hrun.
  unfold bind at 1 in Hrun.
  destruct (urlopen network url headers s) as [[url_data|e|] s1] eqn:Ho.
  - assert (Hs1 : net_frame P s s1).
    { unfold urlopen in Ho. destruct (network _ _ _); inversion Ho; subst.
      eapply net_frame_trans; [apply net_frame_event, Hh|].
      now apply net_frame_silent. }
    eapply net_frame_trans; [exact Hs1|].
    unfold bind at 1 in Hrun.
    destruct (body url_data) as [j|msg].
    + cbn [ret] in Hrun. destruct (pagination j (Link url_data)) as [pc ap].
      unfold bind at 1 in Hrun.
      destruct (X_RateLimit_Remaining url_data) as [value|].
      * destruct (PyStr.startswith url api_github_com).
        -- destruct (PyStr.startswith url "https://api.github.com/search");
             cbn [modify ret] in Hrun; inversion Hrun; subst;
             now apply net_frame_silent.
        -- cbn [ret] in Hrun. inversion Hrun; subst. apply net_frame_refl.
      * cbn [ret] in Hrun. inversion Hrun; subst. apply net_frame_refl.
    + cbn [raise] in Hrun. inversion Hrun; subst. apply net_frame_refl.
  - inversion Hrun; subst. unfold urlopen in Ho.
    destruct (network _ _ _); inversion Ho; subst.
    eapply net_frame_trans; [apply net_frame_event, Hh|].
    now apply net_frame_silent.
  - unfold urlopen in Ho. destruct (network _ _ _); discriminate.
Qed.

Hypothesis P_retry_sleep : forall token, P token (Sleep urlopen_retry_delay).

Lemma sends_determine_urlopen_retry check exception :
  (forall api, sends (fun _ => True) (check api)) ->
  sends (fun _ => True) (determine_urlopen_retry check exception).
Proof.
  intros Hc. unfold determine_urlopen_retry, recheck_if_throttled.
  destruct (is_retryable exception); [|sends_step].
  sends_step.
  - destruct (is_throttling exception); [|sends_step].
    sends_step; apply Hc.
  - sends_step; [|sends_step]. now apply sends_time_sleep.
Qed.

Lemma sends_get_json_loop check url iterations :
  (forall api, sends (fun _ => True) (check api)) ->
  (forall token, P token (Urlopen url (request_headers url token))) ->
  sends (fun _ => True) (get_json_loop network check url iterations).
Proof.
  intros Hc Hu. induction iterations as [|n IH]; cbn [get_json_loop].
  - sends_step.
  - apply ensures_try_except; [exact (net_frame_trans P) | | intros e].
    + now apply sends_attempt.
    + sends_step; [now apply sends_determine_urlopen_retry|].
      destruct a; [exact IH | sends_step].
Qed.

Lemma sends_wait_for_reset fuel : forall reset_time stamp,
  sends (fun _ => True) (wait_for_reset clock fuel reset_time stamp).
Proof.
  induction fuel as [|fuel IH]; intros reset_time stamp; cbn [wait_for_reset].
  - sends_step.
  - sends_step; [apply sends_time_time|].
    destruct (_ <? reset_time)%Z; [|sends_step].
    sends_step; [apply sends_time_time|].
    destruct (_ >? _)%Z; [|apply IH].
    sends_step; [apply sends_time_time|].
    sends_step; [apply sends_time_time | apply IH].
Qed.

Hypothesis P_rate_limit : forall token,
  P token (Urlopen (normalize_url rate_limit_url)
                   (request_headers (normalize_url rate_limit_url) token)).

Lemma sends_check_rate_limiting fuel : forall api,
  sends (fun _ => True)
        (check_rate_limiting normalize_url network clock fuel api).
Proof.
  induction fuel as [|fuel IH]; intros api; cbn [check_rate_limiting].
  - sends_step.
  - sends_step; [intros s r s' H; inversion H; subst;
                 split; [apply net_frame_refl | trivial]|].
    destruct (_ =? 0)%Z; [|sends_step].
    sends_step.
    { unfold get_json_from_url_with.
      apply sends_get_json_loop; [exact IH | exact P_rate_limit]. }
    sends_step; [sends_step|].
    sends_step; [sends_step|].
    sends_step; [apply sends_set_remaining|].
    sends_step; [sends_step|].
    sends_step; [apply sends_set_remaining|].
    sends_step; [sends_step|].
    sends_step; [sends_step|].
    sends_step; [intros s r s' H; inversion H; subst;
                 split; [apply net_frame_refl | trivial]|].
    destruct (_ =? 0)%Z; [|sends_step].
    sends_step; [apply sends_wait_for_reset | apply IH].
Qed.

Lemma sends_get_json_from_url fuel url :
  (forall token,
     P token (Urlopen (normalize_url url)
                      (request_headers (normalize_url url) token))) ->
  sends (fun _ => True)
        (get_json_from_url normalize_url network clock fuel url).
Proof.
  intros Hu. unfold get_json_from_url, get_json_from_url_with.
  apply sends_get_json_loop; [apply sends_check_rate_limiting | exact Hu].
Qed.

End Traffic.

(** The traffic of a rate-limit check: the rate-limit endpoint is opened,
    with the headers of a request to the API, and the retry delay is
    slept. *)
Definition rate_limit_traffic (normalize_url : string -> string)
           (token : option string) (event : net_event) : Prop :=
  event = Sleep urlopen_retry_delay
  \/ event = Urlopen (normalize_url rate_limit_url)
                     (request_headers (normalize_url rate_limit_url) token).

(** X8. However it ends, [check_rate_limiting] opens no URL but the
    rate-limit endpoint, sleeps nothing but the retry delay, and leaves the
    token as it is. *)
Theorem check_rate_limiting_traffic
        (normalize_url : string -> string)
        (network : nat -> string -> list (string * string) -> outcome)
        (clock : nat -> Z) (fuel : nat) (api : api_type) (s : Net) :
  net_frame (rate_limit_traffic normalize_url) s
            (snd (check_rate_limiting normalize_url network clock fuel api s)).
Proof.
  destruct (check_rate_limiting normalize_url network clock fuel api s)
    as [r s'] eqn:H.
  eapply sends_check_rate_limiting in H; [exact (proj1 H) | |].
  - intros token. now left.
  - intros token. now right.
Qed.

(* ===================================================================== *)
(** ** The cached counts after a fetch, and how much a fetch opens *)
(* ===================================================================== *)

(** The class whose cached count a response for [url] updates. *)
Definition api_of_url (url : string) : option api_type :=
  if PyStr.startswith url api_github_com then
    Some (if PyStr.startswith url "https://api.github.com/search"
          then search else core)
  else None.

Lemma attempt_ok_state network url s fetched s' :
  attempt network url s = (Ok fetched, s') ->
  exists url_data,
    network (opens s) url (request_headers url (github_token s))
    = Opened url_data
    /\ s' = match X_RateLimit_Remaining url_data, api_of_url url with
            | Some value, Some api => set_remaining api value
            | _, _ => fun s => s
            end (count_open
                   (log_event
                      (Urlopen url (request_headers url (github_token s))) s)).
Proof.
  unfold attempt, bind, gets, urlopen, ret, raise, modify, api_of_url.
  destruct (network (opens s) url _) as [url_data|e]; [|discriminate].
  intros H. exists url_data. split; [reflexivity|].
  destruct (body url_data) as [j|msg]; [|discriminate].
  destruct (pagination j (Link url_data)) as [pc ap].
  destruct (X_RateLimit_Remaining url_data);
    [destruct (PyStr.startswith url api_github_com);
     [destruct (PyStr.startswith url "https://api.github.com/search")|]|];
    inversion H; reflexivity.
Qed.

Lemma remaining_set_remaining api value s :
  remaining api (set_remaining api value s) = value.
Proof. destruct api; reflexivity. Qed.

(** X9. When a fetch succeeds, the response it returns came from the
    network for the normalized URL, and when that URL is one of the API
    and the response carries the remaining-requests header, the cached
    count of the URL's class (search for a search URL, core otherwise) is
    the value of the header. *)
Theorem get_json_from_url_caches_remaining
        (normalize_url : string -> string)
        (network : nat -> string -> list (string * string) -> outcome)
        (clock : nat -> Z) (fuel : nat) (url : string) (s s' : Net)
        (fetched : fetch_result) :
  get_json_from_url normalize_url network clock fuel url s = (Ok fetched, s') ->
  exists url_data n headers,
    network n (normalize_url url) headers = Opened url_data
    /\ body url_data = Decoded (json_data fetched)
    /\ forall value api,
         X_RateLimit_Remaining url_data = Some value ->
         api_of_url (normalize_url url) = Some api ->
         remaining api s' = value.
Proof.
  intros H. unfold get_json_from_url, get_json_from_url_with in H.
  apply get_json_loop_decompose in H as (k & sk & _ & Hend).
  destruct Hend as [(_ & Hres & _) | (_ & Hl)]; [discriminate|].
  inversion Hl as [r s0 Ha | | | | | ]; subst.
  pose proof (attempt_ok _ _ _ _ _ Ha) as (url_data & Hnet & Hbody & _).
  apply attempt_ok_state in Ha as (url_data' & Hnet' & Hs').
  rewrite Hnet in Hnet'. inversion Hnet'; subst url_data'.
  exists url_data, (opens sk),
    (request_headers (normalize_url url) (github_token sk)).
  split; [exact Hnet|]. split; [exact Hbody|].
  intros value api Hv Hapi. rewrite Hs', Hv, Hapi.
  apply remaining_set_remaining.
Qed.

Section BoundedFetch.

Variable normalize_url : string -> string.
Variable network : nat -> string -> list (string * string) -> outcome.
Variable clock : nat -> Z.
Variable fuel : nat.

Local Abbreviation check :=
  (check_rate_limiting normalize_url network clock (S fuel)).

Lemma recheck_with_budget exception s :
  remaining_core s <> 0%Z -> remaining_search s <> 0%Z ->
  recheck_if_throttled check exception s = (Ok tt, s).
Proof.
  intros Hc Hs. unfold recheck_if_throttled.
  destruct (is_throttling exception); [|reflexivity].
  unfold bind. rewrite check_rate_limiting_cached by exact Hc.
  now rewrite check_rate_limiting_cached by exact Hs.
Qed.

Lemma get_json_loop_bounded url iterations : forall s res s',
  remaining_core s <> 0%Z -> remaining_search s <> 0%Z ->
  get_json_loop network check url iterations s = (res, s') ->
  res <> Diverge
  /\ (opens s' <= opens s + iterations)%nat
  /\ ticks s' = ticks s.
Proof.
  induction iterations as [|n IH]; intros s res s' Hc Hs H.
  - cbn in H. inversion H; subst. repeat split; [discriminate | lia].
  - cbn [get_json_loop] in H. unfold try_except at 1 in H.
    destruct (attempt network url s) as [[r|e|] s1] eqn:Ha.
    + inversion H; subst.
      apply attempt_ok_state in Ha as (url_data & _ & ->).
      split; [discriminate|].
      destruct (X_RateLimit_Remaining url_data) as [v|];
        [destruct (api_of_url url) as [[|]|]|]; cbn; split; lia.
    + apply attempt_raise_state in Ha. subst s1.
      unfold determine_urlopen_retry in H.
      destruct (is_retryable e).
      * unfold bind at 1 in H. unfold bind at 1 in H.
        rewrite recheck_with_budget in H by assumption.
        unfold bind at 1 in H. cbn [time_sleep modify ret] in H.
        apply IH in H; [|assumption..]. cbn in H.
        destruct H as (Hd & Ho & Ht). repeat split; [assumption | lia | assumption].
      * cbn in H. inversion H; subst. cbn.
        repeat split; [discriminate | lia].
    + exfalso. eapply attempt_never_diverges. exact Ha.
Qed.

End BoundedFetch.

(** X10. With a count other than 0 cached for both classes, a fetch ends
    (it returns or raises), opens at most [maximum_urlopen_retries + 1]
    URLs and never reads the clock. *)
Theorem get_json_from_url_opens_at_most
        (normalize_url : string -> string)
        (network : nat -> string -> list (string * string) -> outcome)
        (clock : nat -> Z) (fuel : nat) (url : string) (s s' : Net)
        (res : result fetch_result) :
  remaining_core s <> 0%Z -> remaining_search s <> 0%Z ->
  get_json_from_url normalize_url network clock (S fuel) url s = (res, s') ->
  res <> Diverge
  /\ (opens s' <= opens s + S maximum_urlopen_retries)%nat
  /\ ticks s' = ticks s.
Proof.
  intros Hc Hs H. unfold get_json_from_url, get_json_from_url_with in H.
  eapply get_json_loop_bounded; eassumption.
Qed.

(* ===================================================================== *)
(** ** The traffic of a request to the API *)
(* ===================================================================== *)

(** The URL of [get_github_api_response]. *)
Definition api_request_url (request request_parameters : string)
           (page_number : Z) : string :=
  ("https://api.github.com/" ++ request ++ "?" ++ request_parameters
   ++ "&page=" ++ str_of_Z page_number
   ++ "&per_page=" ++ str_of_Z results_per_page)%string.

(** The traffic of a rate-limit check, and the opening of [url] with the
    headers of its host. *)
Definition request_traffic (normalize_url : string -> string) (url : string)
           (token : option string) (event : net_event) : Prop :=
  rate_limit_traffic normalize_url token event
  \/ event = Urlopen (normalize_url url)
                     (request_headers (normalize_url url) token).

(** X11. However it ends, [get_github_api_response] opens no URL but the
    rate-limit endpoint and the normalized URL of its request, which is
    [https://api.github.com/] followed by the request, [?], the
    parameters, the page number and [per_page=100]; it sleeps nothing but
    the retry delay, and leaves the token as it is. *)
Theorem get_github_api_response_traffic
        (normalize_url : string -> string)
        (network : nat -> string -> list (string * string) -> outcome)
        (clock : nat -> Z) (fuel : nat) (request request_parameters : string)
        (page_number : Z) (s : Net) :
  net_frame
    (request_traffic normalize_url
       (api_request_url request request_parameters page_number))
    s
    (snd (get_github_api_response normalize_url network clock fuel request
                                  request_parameters page_number s)).
Proof.
  destruct (get_github_api_response normalize_url network clock fuel request
              request_parameters page_number s) as [r s'] eqn:H.
  cbn [snd].
  set (P := request_traffic normalize_url
              (api_request_url request request_parameters page_number)).
  assert (Hsleep : forall token, P token (Sleep urlopen_retry_delay))
    by (intros token; left; now left).
  assert (Hrate : forall token,
             P token (Urlopen (normalize_url rate_limit_url)
                        (request_headers (normalize_url rate_limit_url) token)))
    by (intros token; left; now right).
  unfold get_github_api_response in H.
  eapply (ensures_bind (net_frame P) (net_frame_trans P)
            (fun _ => True) (fun _ => True)) in H.
  - exact (proj1 H).
  - now apply sends_check_rate_limiting.
  - intros _ _. apply sends_get_json_from_url; [exact Hsleep | exact Hrate|].
    intros token. now right.
Qed.


(* ===================================================================== *)
(** ** The Library Manager index and the whole run:
       [process_library_manager_index], [populate_table] *)
(* ===================================================================== *)

(** [l[i]] *)
Definition py_index {A : Type} (l : list A) (i : nat) : result A :=
  match nth_error l i with
  | Some x => Ok x
  | None => Raise IndexError
  end.

(** [s[:-4]] *)
Definition without_last_four (s : string) : string :=
  PyStr.take (String.length s - 4) s.

(** What [process_library_manager_index] asks the API for a repository
    URL of the index: nothing ([None]) when the host is not github.com,
    otherwise [repos/] followed by the fourth part of the URL, a slash and
    the fifth part without its last four characters. *)
Definition library_manager_request (repository_url : string)
  : result (option string) :=
  let parts := PyStr.split repository_url "/" in
  match py_index parts 2 with
  | Ok host =>
      if String.eqb host "github.com" then
        match py_index parts 3 with
        | Ok owner =>
            match py_index parts 4 with
            | Ok name =>
                Ok (Some ("repos/" ++ owner ++ "/"
                          ++ without_last_four name)%string)
            | Raise e => Raise e
            | Diverge => Diverge
            end
        | Raise e => Raise e
        | Diverge => Diverge
        end
      else Ok None
  | Raise e => Raise e
  | Diverge => Diverge
  end.

Definition library_index_url : string :=
  "http://downloads.arduino.cc/libraries/library_index.json".

Section Run.

Variable normalize_url : string -> string.
Variable network : nat -> string -> list (string * string) -> outcome.
Variable clock : nat -> Z.
Variable fill_library_dot_properties : string -> row -> row.
Variable fill_library_dot_json : json -> row -> result row.
Variable repr : json -> string.

(** The loop of [process_library_manager_index] over the libraries that
    are left.  A repository that is not a string is different from the
    last URL and has no [split]. *)
Fixpoint index_loop (fuel : nat) (libraries : list json)
         (last_repository_url : string) : M World unit :=
  match libraries with
  | [] => ret tt
  | library_data :: rest =>
      repository_url <- lift_result (subscript library_data "repository") ;;
      match repository_url with
      | JStr repository_url =>
          if String.eqb repository_url last_repository_url then
            index_loop fuel rest last_repository_url
          else
            request <- lift_result (library_manager_request repository_url) ;;
            match request with
            | Some request =>
                fetched <- api_response normalize_url network clock fuel
                             request "" 1 ;;
                populate_row normalize_url network clock
                  fill_library_dot_properties fill_library_dot_json repr
                  fuel (json_data fetched) true false false
            | None => ret tt
            end ;;;
            index_loop fuel rest repository_url
      | _ =>
          raise (Exn "AttributeError" "object has no attribute 'split'")
      end
  end.

Definition process_library_manager_index (fuel : nat) (json_data : json)
  : M World unit :=
  libraries <- lift_result (subscript json_data "libraries") ;;
  libraries <- lift_result (py_list libraries) ;;
  index_loop fuel libraries "".

Definition populate_table (fuel : nat) : M World unit :=
  fetched <- lift_net (get_json_from_url normalize_url network clock fuel
                         library_index_url) ;;
  json_data <- lift_result (dict (json_data fetched)) ;;
  process_library_manager_index fuel json_data ;;;
  search_repositories normalize_url network clock
    fill_library_dot_properties fill_library_dot_json repr fuel
    "topic:arduino-library"
    ["<=2018-05-29"; ">=2018-05-30"]
    "true" false false ;;;
  search_repositories normalize_url network clock
    fill_library_dot_properties fill_library_dot_json repr fuel
    "topic:arduino"
    ["<=2016-03-23"; "2016-03-24..2017-01-07"; "2017-01-08..2017-03-22";
     "2017-03-23..2017-06-15"; "2017-06-16..2017-09-18";
     "2017-09-19..2017-12-19"; "2017-12-20..2018-03-07";
     "2018-03-08..2018-06-05"; ">=2018-06-06"]
    "true" true false ;;;
  search_repositories normalize_url network clock
    fill_library_dot_properties fill_library_dot_json repr fuel
    "arduino+library+NOT+mongoose+NOT+particle+topics:0+language:cpp+language:c+language:arduino"
    ["<=2012-12-25"; "2012-12-26..2013-12-27"; "2013-12-28..2014-10-05";
     "2014-10-06..2015-04-28"; "2015-04-29..2015-11-25";
     "2015-11-26..2016-05-18"; "2016-05-19..2016-11-20";
     "2016-11-21..2017-04-14"; "2017-04-15..2017-09-18";
     "2017-09-19..2018-01-31"; "2018-02-01..2018-06-12"; ">=2018-06-13"]
    "false" true true.

End Run.

(* ===================================================================== *)
(** ** The fields of library.properties *)
(* ===================================================================== *)

(** The line boundaries of [str.splitlines] among the characters of the
    model. *)
Definition is_line_boundary (c : ascii) : bool :=
  let n := nat_of_ascii c in
  ((10 <=? n) && (n <=? 13) || (28 <=? n) && (n <=? 30) || (n =? 133))%nat.

Definition carriage_return : ascii := "013"%char.
Definition line_feed : ascii := "010"%char.

(** [s.splitlines()]: a carriage return and the line feed after it are
    one boundary, and a boundary at the end opens no further line. *)
Fixpoint splitlines (s : string) : list string :=
  match s with
  | EmptyString => []
  | String c s' =>
      if is_line_boundary c then
        EmptyString ::
          match s' with
          | String d s'' =>
              if Ascii.eqb c carriage_return && Ascii.eqb d line_feed
              then splitlines s''
              else splitlines s'
          | EmptyString => []
          end
      else
        match splitlines s' with
        | [] => [String c EmptyString]
        | line :: lines => String c line :: lines
        end
  end.

(** [line.split(sep, 1)] when it has two elements; [None] when [sep] does
    not occur and the list is the line alone. *)
Fixpoint split_first (sep : ascii) (line : string) : option (string * string) :=
  match line with
  | EmptyString => None
  | String c rest =>
      if Ascii.eqb c sep then Some (EmptyString, rest)
      else match split_first sep rest with
           | Some (before, after) => Some (String c before, after)
           | None => None
           end
  end.

(** The [if]/[elif] chain over the field name. *)
Definition library_properties_column (field_name : string) : option nat :=
  if String.eqb field_name "name" then Some Column.library_manager_name
  else if String.eqb field_name "version"
  then Some Column.library_manager_version
  else if String.eqb field_name "author"
  then Some Column.library_manager_author
  else if String.eqb field_name "maintainer"
  then Some Column.library_manager_maintainer
  else if String.eqb field_name "sentence"
  then Some Column.library_manager_sentence
  else if String.eqb field_name "paragraph"
  then Some Column.library_manager_paragraph
  else if String.eqb field_name "category"
  then Some Column.library_manager_category
  else if String.eqb field_name "url" then Some Column.library_manager_url
  else if String.eqb field_name "architectures"
  then Some Column.library_manager_architectures
  else None.

(** The column a line assigns, with the value. *)
Definition assignment (line : string) : option (nat * string) :=
  match split_first "=" line with
  | Some (field_name, field_value) =>
      match library_properties_column (strip field_name) with
      | Some column => Some (column, field_value)
      | None => None
      end
  | None => None
  end.

(** The [for line in ...] loop of [parse_library_dot_properties]. *)
Fixpoint read_properties_lines (lines : list string) (row_list : row)
  : result row :=
  match lines with
  | [] => Ok row_list
  | line :: rest =>
      match assignment line with
      | Some (column, field_value) =>
          match set_cell column field_value row_list with
          | Ok row_list => read_properties_lines rest row_list
          | Raise e => Raise e
          | Diverge => Diverge
          end
      | None => read_properties_lines rest row_list
      end
  end.

(** What [parse_library_dot_properties] makes of the text of the file. *)
Definition read_library_properties (text : string) (row_list : row)
  : result row :=
  read_properties_lines (splitlines text) row_list.

(* ===================================================================== *)
(** ** Cells after the clean-up *)
(* ===================================================================== *)

(** [c] does not occur in [s]. *)
Definition without_char (c : ascii) (s : string) : bool :=
  forallb (fun d => negb (Ascii.eqb c d)) (list_ascii_of_string s).

Lemma replace_tabs_without_tab s : without_char tab (replace_tabs s) = true.
Proof.
  unfold without_char.
  induction s as [|c s IH]; cbn [replace_tabs]; [reflexivity|].
  destruct (Ascii.eqb c tab) eqn:E.
  - cbn [append list_ascii_of_string forallb]. rewrite IH. reflexivity.
  - cbn [list_ascii_of_string forallb]. rewrite Ascii.eqb_sym, E. exact IH.
Qed.

Lemma replace_tabs_nothing s :
  without_char tab s = true -> replace_tabs s = s.
Proof.
  unfold without_char.
  induction s as [|c s IH];
    cbn [replace_tabs list_ascii_of_string forallb]; [reflexivity|].
  intros H. apply andb_true_iff in H as [Hc Hs].
  apply negb_true_iff in Hc. rewrite Ascii.eqb_sym, Hc.
  now rewrite (IH Hs).
Qed.

Lemma lstrip_without_char c s :
  without_char c s = true -> without_char c (lstrip s) = true.
Proof.
  unfold without_char. induction s as [|d s IH]; cbn; [reflexivity|].
  intros H. destruct (isspace d); [|exact H].
  apply andb_true_iff in H as [_ Hs]. now apply IH.
Qed.

Lemma rstrip_without_char c s :
  without_char c s = true -> without_char c (rstrip s) = true.
Proof.
  unfold without_char. induction s as [|d s IH]; cbn; [reflexivity|].
  intros H. apply andb_true_iff in H as [Hd Hs]. specialize (IH Hs).
  destruct (rstrip s) as [|e kept].
  - destruct (isspace d); cbn; [reflexivity | now rewrite Hd].
  - cbn in *. now rewrite Hd.
Qed.

Lemma rstrip_idempotent s : rstrip (rstrip s) = rstrip s.
Proof.
  induction s as [|c s IH]; cbn; [reflexivity|].
  destruct (rstrip s) as [|d kept] eqn:E.
  - destruct (isspace c) eqn:Hc; cbn; [reflexivity | now rewrite Hc].
  - cbn [rstrip]. fold rstrip. cbn [rstrip] in IH. rewrite IH. reflexivity.
Qed.

Lemma lstrip_idempotent s : lstrip (lstrip s) = lstrip s.
Proof.
  induction s as [|c s IH]; cbn; [reflexivity|].
  destruct (isspace c) eqn:Hc; [exact IH|]. cbn. now rewrite Hc.
Qed.

(** Stripping on the right leaves a string that starts with something
    other than a space stripped on the left. *)
Lemma lstrip_rstrip s : lstrip s = s -> lstrip (rstrip s) = rstrip s.
Proof.
  destruct s as [|c s]; [reflexivity|]. cbn.
  destruct (isspace c) eqn:Hc.
  - intros H. exfalso.
    assert (Hl : forall t, (String.length (lstrip t) <= String.length t)%nat).
    { induction t as [|d t IHt]; cbn; [lia|].
      destruct (isspace d); cbn; lia. }
    specialize (Hl s). rewrite H in Hl. cbn in Hl. lia.
  - intros _. destruct (rstrip s); cbn; now rewrite Hc.
Qed.

Lemma strip_idempotent s : strip (strip s) = strip s.
Proof.
  unfold strip.
  rewrite (lstrip_rstrip (lstrip s) (lstrip_idempotent s)).
  apply rstrip_idempotent.
Qed.

(** A cell that the clean-up leaves as it is, and that holds no tab. *)
Definition clean (c : string) : Prop :=
  clean_cell c = c /\ without_char tab c = true.

Lemma clean_cell_clean c : clean (clean_cell c).
Proof.
  assert (Ht : without_char tab (clean_cell c) = true).
  { unfold clean_cell, strip.
    apply rstrip_without_char, lstrip_without_char, replace_tabs_without_tab. }
  split; [|exact Ht].
  unfold clean_cell at 1. rewrite (replace_tabs_nothing _ Ht).
  unfold clean_cell. apply strip_idempotent.
Qed.

Lemma clean_row row_list : Forall clean (map clean_cell row_list).
Proof.
  induction row_list as [|c rest IH]; cbn; constructor;
    [apply clean_cell_clean | exact IH].
Qed.

(* ===================================================================== *)
(** ** Where the token goes *)
(* ===================================================================== *)

Lemma ensures_weaken {S A : Type} (R R' : S -> S -> Prop) (Q : A -> Prop)
      (m : M S A) :
  (forall s s', R s s' -> R' s s') -> ensures R Q m -> ensures R' Q m.
Proof.
  intros HR Hm s r s' H. destruct (Hm _ _ _ H) as [H1 H2]. auto.
Qed.

Lemma ensures_gets {S A : Type} (R : S -> S -> Prop) (f : S -> A) :
  (forall s, R s s) -> ensures R (fun _ => True) (gets f).
Proof.
  intros Hrefl s r s' H. inversion H; subst. split; [apply Hrefl | trivial].
Qed.

Section OpenTraffic.

Variable normalize_url : string -> string.
Variable network : nat -> string -> list (string * string) -> outcome.
Variable clock : nat -> Z.
Variable fill_library_dot_properties : string -> row -> row.
Variable fill_library_dot_json : json -> row -> result row.
Variable P : option string -> net_event -> Prop.

Hypothesis P_sleep : forall token seconds, P token (Sleep seconds).
Hypothesis P_plain : forall token url, P token (Urlopen url []).
Hypothesis P_request : forall token url,
  P token (Urlopen url (request_headers url token)).

Local Abbreviation sends Q m := (ensures (net_frame P) Q m).

Ltac sends_step := ensures_step (net_frame_refl P) (net_frame_trans P).

Lemma open_check_rate_limiting fuel api :
  sends (fun _ => True)
        (check_rate_limiting normalize_url network clock fuel api).
Proof.
  apply sends_check_rate_limiting; intros; [apply P_sleep | apply P_request].
Qed.

Lemma open_get_json_from_url fuel url :
  sends (fun _ => True)
        (get_json_from_url normalize_url network clock fuel url).
Proof.
  apply sends_get_json_from_url; intros; [apply P_sleep | apply P_request..].
Qed.

Lemma open_get_github_api_response fuel request parameters page_number :
  sends (fun _ => True)
        (get_github_api_response normalize_url network clock fuel request
                                 parameters page_number).
Proof.
  unfold get_github_api_response.
  sends_step; [apply open_check_rate_limiting | apply open_get_json_from_url].
Qed.

Lemma open_parse_properties_loop fuel url row_list iterations :
  sends (fun _ => True)
        (parse_properties_loop normalize_url network clock
           fill_library_dot_properties fuel url row_list iterations).
Proof.
  induction iterations as [|n IH]; cbn [parse_properties_loop].
  - sends_step.
  - apply ensures_try_except; [exact (net_frame_trans P) | | intros e].
    + sends_step; [apply sends_urlopen; intros; apply P_plain | sends_step].
    + sends_step.
      * apply sends_determine_urlopen_retry; [intros; apply P_sleep|].
        intros api. apply open_check_rate_limiting.
      * destruct a; [exact IH | sends_step].
Qed.

Lemma open_parse_library_dot_properties fuel folder repository_object row_list :
  sends (fun _ => True)
        (parse_library_dot_properties normalize_url network clock
           fill_library_dot_properties fuel folder repository_object
           row_list).
Proof.
  unfold parse_library_dot_properties.
  sends_step; [sends_step | apply open_parse_properties_loop].
Qed.

Lemma open_parse_library_dot_json fuel folder repository_object row_list :
  sends (fun _ => True)
        (parse_library_dot_json normalize_url network clock
           fill_library_dot_json fuel folder repository_object row_list).
Proof.
  unfold parse_library_dot_json.
  sends_step; [sends_step|].
  sends_step.
  - apply ensures_try_except; [exact (net_frame_trans P) | | intros e].
    + sends_step; [apply open_get_json_from_url | sends_step].
    + destruct (String.eqb _ _); [sends_step|].
      destruct (_ || _); sends_step.
  - destruct a0 as [r|found]; [|sends_step].
    sends_step; [sends_step|]. sends_step; [sends_step | sends_step].
Qed.

Lemma open_probe_header repository_object :
  sends (fun _ => True) (probe_header normalize_url network repository_object).
Proof.
  unfold probe_header.
  sends_step; [sends_step|]. sends_step; [sends_step|].
  sends_step; [sends_step|].
  sends_step; [|sends_step].
  sends_step; [apply sends_urlopen; intros; apply P_plain | sends_step].
Qed.

Lemma open_get_contributor_count fuel repository_object :
  sends (fun _ => True)
        (get_contributor_count normalize_url network clock fuel
                               repository_object).
Proof.
  unfold get_contributor_count.
  sends_step; [apply open_check_rate_limiting|].
  sends_step; [|sends_step].
  sends_step; [sends_step|].
  sends_step; [apply open_get_json_from_url | sends_step].
Qed.

End OpenTraffic.

(** An Authorization header is sent only to a URL that starts with
    [https://api.github.com], and it carries the token that is set. *)
Definition token_confined (token : option string) (event : net_event)
  : Prop :=
  match event with
  | Sleep _ => True
  | Urlopen url headers =>
      forall value, In ("Authorization", value) headers ->
        PyStr.startswith url api_github_com = true
        /\ exists t, token = Some t /\ value = ("token " ++ t)%string
  end.

Lemma token_confined_request token url :
  token_confined token (Urlopen url (request_headers url token)).
Proof.
  unfold token_confined, request_headers. intros value Hin.
  destruct (PyStr.startswith url api_github_com); [|destruct Hin].
  split; [reflexivity|].
  destruct Hin as [Hin | Hin]; [discriminate|].
  destruct token as [t|]; [|destruct Hin].
  destruct Hin as [Hin | []]. inversion Hin. now exists t.
Qed.

(** *** The scanner and the row builder in the world *)

(** The three counts and the list of failed verifications are as they
    were. *)
Definition tallies_kept (w w' : World) : Prop :=
  source_count w' = source_count w
  /\ non_blacklisted_source_count w' = non_blacklisted_source_count w
  /\ non_blacklisted_unique_source_count w'
     = non_blacklisted_unique_source_count w
  /\ verification_failed_list w' = verification_failed_list w.

(** What [find_library_folder] leaves alone. *)
Definition scan_keeps (w w' : World) : Prop :=
  net_frame token_confined (net w) (net w')
  /\ table w' = table w
  /\ tallies_kept w w'.

(** What the filling of a row leaves alone. *)
Definition row_keeps (w w' : World) : Prop :=
  net_frame token_confined (net w) (net w') /\ tallies_kept w w'.

Lemma tallies_kept_refl w : tallies_kept w w.
Proof. repeat split. Qed.

Lemma tallies_kept_trans a b c :
  tallies_kept a b -> tallies_kept b c -> tallies_kept a c.
Proof.
  unfold tallies_kept. intros (? & ? & ? & ?) (? & ? & ? & ?).
  repeat split; congruence.
Qed.

Lemma scan_keeps_refl w : scan_keeps w w.
Proof.
  split; [apply net_frame_refl|]. split; [reflexivity | apply tallies_kept_refl].
Qed.

Lemma scan_keeps_trans a b c : scan_keeps a b -> scan_keeps b c -> scan_keeps a c.
Proof.
  intros (N1 & T1 & K1) (N2 & T2 & K2). split; [|split].
  - eapply net_frame_trans; eassumption.
  - congruence.
  - eapply tallies_kept_trans; eassumption.
Qed.

Lemma row_keeps_refl w : row_keeps w w.
Proof. split; [apply net_frame_refl | apply tallies_kept_refl]. Qed.

Lemma row_keeps_trans a b c : row_keeps a b -> row_keeps b c -> row_keeps a c.
Proof.
  intros (N1 & K1) (N2 & K2). split.
  - eapply net_frame_trans; eassumption.
  - eapply tallies_kept_trans; eassumption.
Qed.

Lemma scan_keeps_silent w w' :
  net w' = net w -> table w' = table w -> tallies_kept w w' ->
  scan_keeps w w'.
Proof.
  intros Hn Ht Hk. split; [rewrite Hn; apply net_frame_refl | now split].
Qed.

Lemma row_keeps_silent w w' :
  net w' = net w -> tallies_kept w w' -> row_keeps w w'.
Proof.
  intros Hn Hk. split; [rewrite Hn; apply net_frame_refl | exact Hk].
Qed.

Lemma scan_keeps_row_keeps w w' : scan_keeps w w' -> row_keeps w w'.
Proof. intros (N & _ & K). now split. Qed.

Lemma scan_keeps_lift_net {A : Type} (Q : A -> Prop) (m : M Net A) :
  ensures (net_frame token_confined) Q m -> ensures scan_keeps Q (lift_net m).
Proof.
  intros Hm w r w' H. unfold lift_net in H.
  destruct (m (net w)) as [r0 n] eqn:E. inversion H; subst.
  destruct (Hm _ _ _ E) as [HR HQ]. split; [|exact HQ].
  split; [exact HR|]. split; [reflexivity | repeat split].
Qed.

(** The table is as it was, or has one more row, every cell of which went
    through the clean-up. *)
Definition appends_cleaned_row {A : Type} (m : M World A) : Prop :=
  forall w r w', m w = (r, w') ->
    table w' = table w
    \/ exists row_list, table w' = table w ++ [map clean_cell row_list].

Lemma appends_cleaned_row_bind {A B : Type} (P : A -> Prop)
      (m : M World A) (k : A -> M World B) :
  ensures scan_keeps P m -> (forall a, appends_cleaned_row (k a)) ->
  appends_cleaned_row (bind m k).
Proof.
  intros Hm Hk w r w' H. unfold bind in H.
  destruct (m w) as [[a|e|] w1] eqn:E;
    destruct (Hm _ _ _ E) as [(_ & Ht & _) _].
  - destruct (Hk a _ _ _ H) as [H1 | [row_list H1]];
      [left | right; exists row_list]; congruence.
  - inversion H; subst. now left.
  - inversion H; subst. now left.
Qed.

Section WorldTraffic.

Variable normalize_url : string -> string.
Variable network : nat -> string -> list (string * string) -> outcome.
Variable clock : nat -> Z.
Variable fill_library_dot_properties : string -> row -> row.
Variable fill_library_dot_json : json -> row -> result row.
Variable repr : json -> string.

Local Abbreviation scans Q m := (ensures scan_keeps Q m).

Ltac scans_step := ensures_step scan_keeps_refl scan_keeps_trans.

(** A computation of the fetch layer run in the world. *)
Ltac lifted :=
  apply scan_keeps_lift_net;
  first [ apply open_parse_library_dot_properties
        | apply open_parse_library_dot_json
        | apply open_probe_header
        | apply open_get_github_api_response
        | apply open_get_contributor_count ];
  first [ intros; exact I
        | intros; intros ? []
        | intros; apply token_confined_request ].

Lemma scans_api_response fuel request parameters page_number :
  scans (fun _ => True)
        (api_response normalize_url network clock fuel request parameters
                      page_number).
Proof.
  unfold api_response. scans_step.
  - apply ensures_modify. intros w.
    apply scan_keeps_silent; [reflexivity | reflexivity | repeat split].
  - lifted.
Qed.

Lemma scans_root_listing_loop fuel : forall request page_number listing,
  scans (fun _ => True)
        (root_listing_loop normalize_url network clock fuel request
                           page_number listing).
Proof.
  induction fuel as [|fuel IH]; intros request page_number listing;
    cbn [root_listing_loop].
  - scans_step.
  - scans_step.
    + scans_step; [|scans_step]. scans_step; [apply scans_api_response|].
      scans_step.
    + destruct a as [r|]; [|scans_step].
      scans_step; [scans_step|].
      destruct (additional_pages r); [apply IH | scans_step].
Qed.

Lemma scans_subfolder_listing_loop fuel : forall request page_number listing,
  scans (fun _ => True)
        (subfolder_listing_loop normalize_url network clock fuel request
                                page_number listing).
Proof.
  induction fuel as [|fuel IH]; intros request page_number listing;
    cbn [subfolder_listing_loop].
  - scans_step.
  - scans_step.
    + scans_step; [|scans_step]. scans_step; [apply scans_api_response|].
      scans_step.
    + destruct a as [r|]; [|scans_step].
      scans_step; [scans_step|].
      destruct (additional_pages r); [apply IH | scans_step].
Qed.

Lemma scans_write_non_library_folder name :
  scans (fun _ => True) (modify (write_non_library_folder name)).
Proof.
  apply ensures_modify. intros w.
  apply scan_keeps_silent; [reflexivity | reflexivity | repeat split].
Qed.

Lemma scans_search_subfolders fuel repository_object full_name verify listing :
  forall row_list,
  scans (fun _ => True)
        (search_subfolders normalize_url network clock
           fill_library_dot_properties fill_library_dot_json fuel
           repository_object full_name verify listing row_list).
Proof.
  induction listing as [|item rest IH]; intros row_list;
    cbn [search_subfolders].
  - scans_step.
  - destruct (String.eqb (item_type item) "dir"); [|apply IH].
    destruct (matches_any library_subfolder_blacklist (item_name item));
      [apply IH|].
    scans_step; [apply scans_subfolder_listing_loop|].
    scans_step; [scans_step|].
    destruct (find_library a0 verify) as [[|]|].
    + scans_step; [lifted|]. destruct a1.
      scans_step; [lifted|]. destruct a1. scans_step.
    + scans_step; [apply scans_write_non_library_folder | apply IH].
    + scans_step; [apply scans_write_non_library_folder | apply IH].
Qed.

Lemma scans_find_library_folder fuel repository_object row_list verify :
  scans (fun _ => True)
        (find_library_folder normalize_url network clock
           fill_library_dot_properties fill_library_dot_json fuel
           repository_object row_list verify).
Proof.
  unfold find_library_folder, root_stage, scan_root.
  scans_step.
  - scans_step; [lifted|]. destruct a.
    scans_step; [lifted|]. destruct a.
    destruct (b || b0); [scans_step|].
    scans_step; [destruct verify; [scans_step | lifted]|].
    destruct a; [scans_step|].
    scans_step; [scans_step|].
    scans_step; [apply scans_root_listing_loop|].
    destruct a0; [|scans_step].
    scans_step; [scans_step|]. scans_step.
  - destruct a as [[answer | [name listing]] r]; [scans_step|].
    destruct (find_library listing verify) as [[|]|]; [scans_step| |].
    + destruct (verify && true); [scans_step | apply scans_search_subfolders].
    + destruct (verify && false); [scans_step | apply scans_search_subfolders].
Qed.

Local Abbreviation fills Q m := (ensures row_keeps Q m).

Ltac fills_step := ensures_step row_keeps_refl row_keeps_trans.

Lemma fills_of_scans {A : Type} (Q : A -> Prop) (m : M World A) :
  scans Q m -> fills Q m.
Proof. apply ensures_weaken. exact scan_keeps_row_keeps. Qed.

Lemma fills_set_from_field column obj key row_list :
  fills (fun _ => True) (set_from_field repr column obj key row_list).
Proof. unfold set_from_field. fills_step; fills_step. Qed.

Lemma fills_fill_row fuel repository_object in_library_manager html_url
      library_folder row_list :
  fills (fun _ => True)
        (fill_row normalize_url network clock repr fuel repository_object
                  in_library_manager html_url library_folder row_list).
Proof.
  unfold fill_row.
  repeat first
    [ apply fills_set_from_field
    | apply fills_of_scans; first [apply scans_api_response | lifted]
    | match goal with
      | |- ensures _ _ (modify (table_append _)) =>
          apply ensures_modify; intros w;
          apply row_keeps_silent; [reflexivity | repeat split]
      | |- ensures _ _ (if ?c then _ else _) => destruct c
      | |- ensures _ _ (match ?x with pair _ _ => _ end) => destruct x
      end
    | fills_step ].
Qed.

Lemma scans_set_from_field column obj key row_list :
  scans (fun _ => True) (set_from_field repr column obj key row_list).
Proof. unfold set_from_field. scans_step; scans_step. Qed.

Lemma fill_row_appends_cleaned_row fuel repository_object in_library_manager
      html_url library_folder row_list :
  appends_cleaned_row
    (fill_row normalize_url network clock repr fuel repository_object
              in_library_manager html_url library_folder row_list).
Proof.
  unfold fill_row.
  repeat first
    [ match goal with
      | |- appends_cleaned_row (match ?x with pair _ _ => _ end) => destruct x
      end
    | eapply appends_cleaned_row_bind with (P := fun _ => True);
      [ solve [ repeat first
                  [ apply scans_set_from_field
                  | apply scans_api_response
                  | lifted
                  | match goal with
                    | |- ensures _ _ (if ?c then _ else _) => destruct c
                    | |- ensures _ _ (match ?x with pair _ _ => _ end) =>
                        destruct x
                    end
                  | scans_step ] ]
      | intros ? ] ].
  intros world result world' H. inversion H; subst.
  right. eexists. reflexivity.
Qed.

End WorldTraffic.

(* ===================================================================== *)
(** ** The bookkeeping of [populate_row] *)
(* ===================================================================== *)

(** From a world satisfying [I], [m] returns in a world satisfying [Post]
    of its value, and ends otherwise in a world satisfying [Exc]. *)
Definition triple {A : Type} (I : World -> Prop) (m : M World A)
           (Post : A -> World -> Prop) (Exc : World -> Prop) : Prop :=
  forall w r w', I w -> m w = (r, w') ->
    match r with
    | Ok a => Post a w'
    | _ => Exc w'
    end.

Lemma triple_bind {A B : Type} (I : World -> Prop) (m : M World A)
      (k : A -> M World B) (Mid : A -> World -> Prop)
      (Post : B -> World -> Prop) (Exc : World -> Prop) :
  triple I m Mid Exc -> (forall a, triple (Mid a) (k a) Post Exc) ->
  triple I (bind m k) Post Exc.
Proof.
  intros Hm Hk w r w' HI H. unfold bind in H.
  destruct (m w) as [[a|e|] w1] eqn:E; specialize (Hm _ _ _ HI E); cbn in Hm.
  - eapply Hk; eassumption.
  - inversion H; subst. exact Hm.
  - inversion H; subst. exact Hm.
Qed.

Lemma triple_ensures {A : Type} (R : World -> World -> Prop) (Q : A -> Prop)
      (I J : World -> Prop) (m : M World A) :
  ensures R Q m -> (forall w w', I w -> R w w' -> J w') ->
  triple I m (fun a w' => J w' /\ Q a) J.
Proof.
  intros Hm HJ w r w' HI H. destruct (Hm _ _ _ H) as [HR HQ].
  destruct r; eauto.
Qed.

(** A computation that leaves the world as it is. *)
Lemma triple_pure {A : Type} (I : World -> Prop) (m : M World A) :
  ensures eq (fun _ => True) m -> triple I m (fun _ => I) I.
Proof.
  intros Hm w r w' HI H. destruct (Hm _ _ _ H) as [<- _].
  destruct r; exact HI.
Qed.

Lemma triple_modify (I J Exc : World -> Prop) (f : World -> World) :
  (forall w, I w -> J (f w)) -> triple I (modify f) (fun _ => J) Exc.
Proof. intros H w r w' HI E. inversion E; subst. now apply H. Qed.

Lemma triple_ret {A : Type} (I Exc : World -> Prop) (a : A) :
  triple I (ret a) (fun _ => I) Exc.
Proof. intros w r w' HI E. inversion E; subst. exact HI. Qed.

Lemma triple_post {A : Type} (I : World -> Prop) (m : M World A)
      (Post Post' : A -> World -> Prop) (Exc Exc' : World -> Prop) :
  triple I m Post Exc ->
  (forall a w, Post a w -> Post' a w) -> (forall w, Exc w -> Exc' w) ->
  triple I m Post' Exc'.
Proof.
  intros Hm HP HE w r w' HI H. specialize (Hm _ _ _ HI H).
  destruct r; auto.
Qed.

Ltac pure_step := ensures_step (@eq_refl World) (@eq_trans World).

(** How far [populate_row] went with the repository, from the world [w]:
    it added one to the count of sources, and then one to the count of the
    sources that are not blacklisted, and then one to the count of those
    that are not listed yet. *)
Definition counted (w : World) (others unique : Z) (w' : World) : Prop :=
  net_frame token_confined (net w) (net w')
  /\ source_count w' = (source_count w + 1)%Z
  /\ non_blacklisted_source_count w'
     = (non_blacklisted_source_count w + others)%Z
  /\ non_blacklisted_unique_source_count w'
     = (non_blacklisted_unique_source_count w + unique)%Z.

(** The table and the list of failed verifications are as in [w]. *)
Definition nothing_written (w w' : World) : Prop :=
  table w' = table w
  /\ verification_failed_list w' = verification_failed_list w.

(** What a call of [populate_row] for a repository with the URL [url] has
    done when it ends, whether it returns or raises: the repository was
    counted as a source; it was dropped as blacklisted, or counted and
    dropped as a duplicate, or counted as new, and only then a row may
    have been appended or, with verification and logging on, the URL been
    added to the list of failed verifications, never both. *)
Definition row_ledger (url : string) (verify log_verification_failures : bool)
           (w w' : World) : Prop :=
  (counted w 0 0 w' /\ nothing_written w w')
  \/ (counted w 1 0 w' /\ nothing_written w w')
  \/ (counted w 1 1 w'
      /\ (nothing_written w w'
          \/ ((exists row_list,
                 table w' = table w ++ [map clean_cell row_list])
              /\ verification_failed_list w' = verification_failed_list w)
          \/ (table w' = table w
              /\ verification_failed_list w'
                 = verification_failed_list w ++ [url]
              /\ verify = true /\ log_verification_failures = true))).

Lemma counted_scan_keeps w others unique a b :
  counted w others unique a -> scan_keeps a b -> counted w others unique b.
Proof.
  intros (N & S1 & S2 & S3) (N' & _ & K1 & K2 & K3 & _).
  split; [eapply net_frame_trans; eassumption|].
  repeat split; congruence.
Qed.

Lemma counted_row_keeps w others unique a b :
  counted w others unique a -> row_keeps a b -> counted w others unique b.
Proof.
  intros (N & S1 & S2 & S3) (N' & K1 & K2 & K3 & _).
  split; [eapply net_frame_trans; eassumption|].
  repeat split; congruence.
Qed.

Section Ledger.

Variable normalize_url : string -> string.
Variable network : nat -> string -> list (string * string) -> outcome.
Variable clock : nat -> Z.
Variable fill_library_dot_properties : string -> row -> row.
Variable fill_library_dot_json : json -> row -> result row.
Variable repr : json -> string.

(** The filling of a row after the repository was counted as new. *)
Lemma fill_row_ledger fuel repository_object in_library_manager html_url
      library_folder row_list verify log w0 :
  triple (fun w => counted w0 1 1 w /\ nothing_written w0 w)
         (fill_row normalize_url network clock repr fuel repository_object
                   in_library_manager html_url library_folder row_list)
         (fun _ => row_ledger html_url verify log w0)
         (row_ledger html_url verify log w0).
Proof.
  intros w r w' [Hc [Ht Hv]] H.
  assert (Hl : row_ledger html_url verify log w0 w').
  { right. right.
    destruct (fills_fill_row normalize_url network clock repr fuel
                repository_object in_library_manager html_url library_folder
                row_list _ _ _ H) as [Hk _].
    split; [eapply counted_row_keeps; eassumption|].
    destruct Hk as (_ & _ & _ & _ & Hv').
    destruct (fill_row_appends_cleaned_row normalize_url network clock repr
                fuel repository_object in_library_manager html_url
                library_folder row_list w r w' H)
      as [Hsame | (row_list' & Happ)].
    - left. split; congruence.
    - right. left. split; [|congruence].
      exists row_list'. congruence. }
  destruct r; exact Hl.
Qed.

Lemma populate_row_ledger fuel repository_object in_library_manager verify
      log_verification_failures html_url w r w' :
  str_field repository_object "html_url" = Ok html_url ->
  populate_row normalize_url network clock fill_library_dot_properties
    fill_library_dot_json repr fuel repository_object in_library_manager
    verify log_verification_failures w = (r, w') ->
  row_ledger html_url verify log_verification_failures w w'.
Proof.
  intros Hurl H. unfold populate_row in H.
  unfold bind at 1 in H. unfold lift_result at 1 in H. rewrite Hurl in H.
  unfold bind at 1 in H. cbn [modify] in H.
  set (ledger := row_ledger html_url verify log_verification_failures w).
  assert (H1 : counted w 0 0 (count_source w) /\ nothing_written w (count_source w)).
  { split; [|split; reflexivity].
    split; [apply net_frame_refl|]. cbn. repeat split; lia. }
  assert (L0 : forall x, counted w 0 0 x /\ nothing_written w x -> ledger x)
    by (intros x Hx; left; exact Hx).
  assert (L1 : forall x, counted w 1 0 x /\ nothing_written w x -> ledger x)
    by (intros x Hx; right; left; exact Hx).
  assert (L2 : forall x, counted w 1 1 x /\ nothing_written w x -> ledger x)
    by (intros x [Hc Hn]; right; right; split; [exact Hc | left; exact Hn]).
  match type of H with
  | ?m _ = _ =>
      assert (T : triple (fun x => counted w 0 0 x /\ nothing_written w x) m
                         (fun _ => ledger) ledger)
  end.
  2:{ specialize (T _ _ _ H1 H). destruct r; exact T. }
  clear H H1.
  eapply triple_bind.
  { eapply triple_post; [apply triple_pure | intros ? ? HH; exact HH | exact L0].
    destruct verify; [|pure_step]. pure_step; pure_step. }
  intros [|]; [eapply triple_post; [apply triple_ret | auto | exact L0]|].
  eapply triple_bind.
  { eapply triple_post; [apply triple_pure | intros ? ? HH; exact HH | exact L0].
    destruct verify; [|pure_step]. pure_step; pure_step. }
  intros [|]; [eapply triple_post; [apply triple_ret | auto | exact L0]|].
  eapply triple_bind
    with (Mid := fun _ x => counted w 1 0 x /\ nothing_written w x).
  { apply triple_modify. intros x [(N & S1 & S2 & S3) [Ht Hv]].
    split; [|split; assumption].
    split; [exact N|]. cbn. repeat split; lia. }
  intros _.
  eapply triple_bind.
  { eapply triple_post; [apply triple_pure | intros ? ? HH; exact HH | exact L1].
    apply ensures_gets. reflexivity. }
  intros rows.
  eapply triple_bind.
  { eapply triple_post; [apply triple_pure | intros ? ? HH; exact HH | exact L1].
    pure_step. }
  intros [|]; [eapply triple_post; [apply triple_ret | auto | exact L1]|].
  eapply triple_bind
    with (Mid := fun _ x => counted w 1 1 x /\ nothing_written w x).
  { apply triple_modify. intros x [(N & S1 & S2 & S3) [Ht Hv]].
    split; [|split; assumption].
    split; [exact N|]. cbn. repeat split; lia. }
  intros _.
  eapply triple_bind
    with (Mid := fun _ x => counted w 1 1 x /\ nothing_written w x).
  { eapply triple_post.
    - eapply triple_ensures
        with (J := fun x => counted w 1 1 x /\ nothing_written w x).
      + apply scans_find_library_folder.
      + intros a b [Hc [Ht Hv]] Hk. split.
        * eapply counted_scan_keeps; eassumption.
        * destruct Hk as (_ & Ht' & _ & _ & _ & Hv').
          split; congruence.
    - intros ? ? [HH _]. exact HH.
    - exact L2. }
  intros [[library_folder|] row_list].
  - apply fill_row_ledger.
  - destruct verify; [|apply fill_row_ledger].
    destruct log_verification_failures.
    + apply triple_modify. intros x [Hc [Ht Hv]].
      right. right. split.
      * destruct Hc as (N & S1 & S2 & S3). split; [exact N|].
        cbn. repeat split; assumption.
      * right. right. cbn. repeat split; congruence.
    + eapply triple_post; [apply triple_ret | auto | exact L2].
Qed.

End Ledger.

(** The numbers [create_output_file] reports are in order: the rows under
    the heading are no more than the sources counted as new, those no more
    than the sources that were not blacklisted, and those no more than the
    sources. *)
Definition tallies_ordered (w : World) : Prop :=
  (Z.of_nat (length (table w)) - 1 <= non_blacklisted_unique_source_count w
   /\ non_blacklisted_unique_source_count w <= non_blacklisted_source_count w
   /\ non_blacklisted_source_count w <= source_count w)%Z.

Lemma row_ledger_tallies_ordered url verify log w w' :
  row_ledger url verify log w w' -> tallies_ordered w -> tallies_ordered w'.
Proof.
  unfold tallies_ordered.
  intros [[(_ & S1 & S2 & S3) [Ht _]]
         | [[(_ & S1 & S2 & S3) [Ht _]]
           | [(_ & S1 & S2 & S3) [[Ht _] | [[[row_list Ht] _] | [Ht _]]]]]] Ho;
    rewrite Ht, S1, S2, S3; try rewrite length_app; cbn [length]; lia.
Qed.

Lemma row_ledger_grows url verify log w w' :
  row_ledger url verify log w w' ->
  (exists rows, table w' = table w ++ rows /\ Forall (Forall clean) rows)
  /\ (exists urls,
        verification_failed_list w' = verification_failed_list w ++ urls).
Proof.
  intros [[_ [Ht Hv]]
         | [[_ [Ht Hv]]
           | [_ [[Ht Hv] | [[[row_list Ht] Hv] | [Ht [Hv _]]]]]]];
    split;
    first [ exists []; rewrite app_nil_r; split; [assumption | constructor]
          | exists []; rewrite app_nil_r; assumption
          | eexists; eassumption
          | eexists; split; [eassumption|];
            constructor; [apply clean_row | constructor] ].
Qed.

Lemma row_ledger_net url verify log w w' :
  row_ledger url verify log w w' ->
  net_frame token_confined (net w) (net w').
Proof. intros [[[N _] _] | [[[N _] _] | [[N _] _]]]; exact N. Qed.

Section RowBookkeeping.

Variable normalize_url : string -> string.
Variable network : nat -> string -> list (string * string) -> outcome.
Variable clock : nat -> Z.
Variable fill_library_dot_properties : string -> row -> row.
Variable fill_library_dot_json : json -> row -> result row.
Variable repr : json -> string.

Local Abbreviation populate_row' :=
  (populate_row normalize_url network clock fill_library_dot_properties
                fill_library_dot_json repr).

(** Without a URL to report, [populate_row] raises before it does
    anything. *)
Lemma populate_row_without_url fuel repository_object in_library_manager
      verify log_verification_failures w r w' :
  (forall html_url, str_field repository_object "html_url" <> Ok html_url) ->
  populate_row' fuel repository_object in_library_manager verify
                log_verification_failures w = (r, w') ->
  w' = w.
Proof.
  intros Hurl H. unfold populate_row in H. unfold bind at 1 in H.
  unfold lift_result at 1 in H.
  destruct (str_field repository_object "html_url") as [url|e|].
  - now destruct (Hurl url).
  - now inversion H.
  - now inversion H.
Qed.

End RowBookkeeping.

(** X12. [populate_row] counts every repository that has a URL as a
    source.  It leaves the table as it is or appends one row to it, every
    cell of which is as the clean-up leaves it and holds no tab, and it
    leaves the list of failed verifications as it is or, only with
    verification and logging both on, appends the repository's URL to it;
    it never does both. *)
Theorem populate_row_lists_or_logs
        (normalize_url : string -> string)
        (network : nat -> string -> list (string * string) -> outcome)
        (clock : nat -> Z)
        (fill_library_dot_properties : string -> row -> row)
        (fill_library_dot_json : json -> row -> result row)
        (repr : json -> string) (fuel : nat) (repository_object : json)
        (in_library_manager verify log_verification_failures : bool)
        (html_url : string) (w w' : World) (r : result unit) :
  str_field repository_object "html_url" = Ok html_url ->
  populate_row normalize_url network clock fill_library_dot_properties
    fill_library_dot_json repr fuel repository_object in_library_manager
    verify log_verification_failures w = (r, w') ->
  source_count w' = (source_count w + 1)%Z
  /\ ((table w' = table w
       /\ verification_failed_list w' = verification_failed_list w)
      \/ ((exists row_list,
             table w' = table w ++ [row_list] /\ Forall clean row_list)
          /\ verification_failed_list w' = verification_failed_list w)
      \/ (table w' = table w
          /\ verification_failed_list w'
             = verification_failed_list w ++ [html_url]
          /\ verify = true /\ log_verification_failures = true)).
Proof.
  intros Hurl H.
  pose proof (populate_row_ledger _ _ _ _ _ _ _ _ _ _ _ _ _ _ _ Hurl H) as L.
  destruct L as [[(_ & S1 & _) Hn]
                | [[(_ & S1 & _) Hn] | [(_ & S1 & _) Hc]]];
    (split; [exact S1|]); auto.
  destruct Hc as [Hn | [[[row_list Ht] Hv] | Hl]]; auto.
  right. left. split; [|exact Hv].
  exists (map clean_cell row_list). split; [exact Ht | apply clean_row].
Qed.

(* ===================================================================== *)
(** ** Repositories that cost nothing *)
(* ===================================================================== *)

(** The name or a topic of the repository is blacklisted, as the two
    checks of [populate_row] find it. *)
Definition blacklisted (repository_object : json) : Prop :=
  exists name,
    str_field repository_object "name" = Ok name
    /\ (matches_any repository_name_blacklist name = true
        \/ exists topics,
             matches_any repository_name_blacklist name = false
             /\ subscript repository_object "topics" = Ok topics
             /\ has_blacklisted_topic topic_blacklist topics = Ok true).

(** The two checks let the repository through, or are not made. *)
Definition passes_blacklists (verify : bool) (repository_object : json)
  : Prop :=
  verify = false
  \/ exists name topics,
       str_field repository_object "name" = Ok name
       /\ matches_any repository_name_blacklist name = false
       /\ subscript repository_object "topics" = Ok topics
       /\ has_blacklisted_topic topic_blacklist topics = Ok false.

(** X13. With verification on, a repository with a blacklisted name or
    topic is only counted as a source: [populate_row] returns without a
    request to the network, without a row, and without an entry in the
    list of failed verifications even when logging is on. *)
Theorem populate_row_skips_blacklisted
        (normalize_url : string -> string)
        (network : nat -> string -> list (string * string) -> outcome)
        (clock : nat -> Z)
        (fill_library_dot_properties : string -> row -> row)
        (fill_library_dot_json : json -> row -> result row)
        (repr : json -> string) (fuel : nat) (repository_object : json)
        (in_library_manager log_verification_failures : bool)
        (html_url : string) (w : World) :
  str_field repository_object "html_url" = Ok html_url ->
  blacklisted repository_object ->
  populate_row normalize_url network clock fill_library_dot_properties
    fill_library_dot_json repr fuel repository_object in_library_manager
    true log_verification_failures w
  = (Ok tt, count_source w).
Proof.
  intros Hurl (name & Hname & Hb). unfold populate_row.
  unfold bind at 1. unfold lift_result at 1. rewrite Hurl.
  unfold bind at 1. cbn [modify].
  unfold bind at 1. unfold bind at 1. unfold lift_result at 1. rewrite Hname.
  cbn [ret].
  destruct Hb as [Hb | (topics & Hb & Ht & Hh)]; rewrite Hb; [reflexivity|].
  unfold bind at 1. unfold bind at 1. unfold lift_result at 1. rewrite Ht.
  unfold lift_result at 1. rewrite Hh. reflexivity.
Qed.

(** X14. A repository that passes the blacklists and whose URL is in the
    table already is counted and dropped: [populate_row] returns without
    a request to the network and without a row. *)
Theorem populate_row_drops_duplicate
        (normalize_url : string -> string)
        (network : nat -> string -> list (string * string) -> outcome)
        (clock : nat -> Z)
        (fill_library_dot_properties : string -> row -> row)
        (fill_library_dot_json : json -> row -> result row)
        (repr : json -> string) (fuel : nat) (repository_object : json)
        (in_library_manager verify log_verification_failures : bool)
        (html_url : string) (w : World) :
  str_field repository_object "html_url" = Ok html_url ->
  passes_blacklists verify repository_object ->
  In html_url (url_cells (table w)) ->
  Forall (fun row_list => row_list <> []) (table w) ->
  populate_row normalize_url network clock fill_library_dot_properties
    fill_library_dot_json repr fuel repository_object in_library_manager
    verify log_verification_failures w
  = (Ok tt, count_non_blacklisted (count_source w)).
Proof.
  intros Hurl Hp Hin Hne. unfold populate_row.
  unfold bind at 1. unfold lift_result at 1. rewrite Hurl.
  unfold bind at 1. cbn [modify].
  assert (Hl : already_listed
                 (table (count_non_blacklisted (count_source w))) html_url
               = Ok true) by (now apply already_listed_true).
  destruct Hp as [-> | (name & topics & Hname & Hb & Ht & Hh)].
  - unfold bind at 1. cbn [ret].
    unfold bind at 1. cbn [ret].
    unfold bind at 1. cbn [modify].
    unfold bind at 1. cbn [gets].
    unfold bind at 1. unfold lift_result at 1. rewrite Hl. reflexivity.
  - destruct verify.
    + unfold bind at 1. unfold bind at 1. unfold lift_result at 1.
      rewrite Hname. cbn [ret]. rewrite Hb.
      unfold bind at 1. unfold bind at 1. unfold lift_result at 1. rewrite Ht.
      unfold lift_result at 1. rewrite Hh.
      unfold bind at 1. cbn [modify].
      unfold bind at 1. cbn [gets].
      unfold bind at 1. unfold lift_result at 1. rewrite Hl. reflexivity.
    + unfold bind at 1. cbn [ret].
      unfold bind at 1. cbn [ret].
      unfold bind at 1. cbn [modify].
      unfold bind at 1. cbn [gets].
      unfold bind at 1. unfold lift_result at 1. rewrite Hl. reflexivity.
Qed.

(* ===================================================================== *)
(** ** The whole run *)
(* ===================================================================== *)

(** What every step of the run respects: the token stays where it
    belongs, the reported numbers stay in order, and the table and the
    list of failed verifications only grow at their ends, the table by
    rows of clean cells. *)
Definition run_keeps (w w' : World) : Prop :=
  net_frame token_confined (net w) (net w')
  /\ (tallies_ordered w -> tallies_ordered w')
  /\ (exists rows, table w' = table w ++ rows /\ Forall (Forall clean) rows)
  /\ (exists urls,
        verification_failed_list w' = verification_failed_list w ++ urls).

Lemma run_keeps_refl w : run_keeps w w.
Proof.
  split; [apply net_frame_refl|]. split; [auto|]. split.
  - exists []. rewrite app_nil_r. split; [reflexivity | constructor].
  - exists []. now rewrite app_nil_r.
Qed.

Lemma run_keeps_trans a b c : run_keeps a b -> run_keeps b c -> run_keeps a c.
Proof.
  intros (N1 & O1 & (r1 & T1 & C1) & [u1 V1])
         (N2 & O2 & (r2 & T2 & C2) & [u2 V2]).
  split; [eapply net_frame_trans; eassumption|]. split; [auto|]. split.
  - exists (r1 ++ r2). split.
    + rewrite T2, T1. now rewrite app_assoc.
    + apply Forall_app. now split.
  - exists (u1 ++ u2). rewrite V2, V1. now rewrite app_assoc.
Qed.

Lemma scan_keeps_run_keeps w w' : scan_keeps w w' -> run_keeps w w'.
Proof.
  intros (N & T & S1 & S2 & S3 & V). split; [exact N|]. split.
  - unfold tallies_ordered. rewrite T, S1, S2, S3. auto.
  - split.
    + exists []. rewrite app_nil_r. split; [exact T | constructor].
    + exists []. now rewrite app_nil_r.
Qed.

Lemma row_ledger_run_keeps url verify log w w' :
  row_ledger url verify log w w' -> run_keeps w w'.
Proof.
  intros L. split; [eapply row_ledger_net; exact L|]. split.
  - eapply row_ledger_tallies_ordered; exact L.
  - eapply row_ledger_grows; exact L.
Qed.

Section WholeRun.

Variable normalize_url : string -> string.
Variable network : nat -> string -> list (string * string) -> outcome.
Variable clock : nat -> Z.
Variable fill_library_dot_properties : string -> row -> row.
Variable fill_library_dot_json : json -> row -> result row.
Variable repr : json -> string.

Local Abbreviation runs Q m := (ensures run_keeps Q m).

Ltac runs_step := ensures_step run_keeps_refl run_keeps_trans.

Lemma runs_of_scans {A : Type} (Q : A -> Prop) (m : M World A) :
  ensures scan_keeps Q m -> runs Q m.
Proof. apply ensures_weaken. exact scan_keeps_run_keeps. Qed.

Lemma runs_api_response fuel request parameters page_number :
  runs (fun _ => True)
       (api_response normalize_url network clock fuel request parameters
                     page_number).
Proof. apply runs_of_scans, scans_api_response. Qed.

Lemma runs_populate_row fuel repository_object in_library_manager verify
      log_verification_failures :
  runs (fun _ => True)
       (populate_row normalize_url network clock fill_library_dot_properties
          fill_library_dot_json repr fuel repository_object
          in_library_manager verify log_verification_failures).
Proof.
  intros w r w' H. split; [|trivial].
  destruct (str_field repository_object "html_url") as [url|e|] eqn:Hurl.
  - eapply row_ledger_run_keeps. eapply populate_row_ledger; eassumption.
  - apply populate_row_without_url in H; [|congruence].
    subst. apply run_keeps_refl.
  - apply populate_row_without_url in H; [|congruence].
    subst. apply run_keeps_refl.
Qed.

Lemma runs_search_page fuel request_parameters page_number iterations :
  forall last,
  runs (fun _ => True)
       (search_page normalize_url network clock fuel request_parameters
                    page_number iterations last).
Proof.
  induction iterations as [|n IH]; intros last; cbn [search_page].
  - destruct last; runs_step.
  - runs_step; [apply runs_api_response|].
    runs_step; [runs_step|]. runs_step; [runs_step|].
    destruct (truthy _).
    + runs_step; [|apply IH].
      apply runs_of_scans, scan_keeps_lift_net, sends_time_sleep.
      intros token. exact I.
    + runs_step; [runs_step|].
      destruct (py_eq_zero _); [apply IH | runs_step].
Qed.

Lemma runs_populate_rows fuel items verify log_verification_failures :
  runs (fun _ => True)
       (populate_rows normalize_url network clock fill_library_dot_properties
          fill_library_dot_json repr fuel items verify
          log_verification_failures).
Proof.
  induction items as [|item rest IH]; cbn [populate_rows].
  - runs_step.
  - runs_step; [apply runs_populate_row | exact IH].
Qed.

Lemma runs_search_segment request_parameters verify
      log_verification_failures :
  forall fuel page_number search_results_count,
  runs (fun _ => True)
       (search_segment normalize_url network clock
          fill_library_dot_properties fill_library_dot_json repr fuel
          request_parameters verify log_verification_failures page_number
          search_results_count).
Proof.
  induction fuel as [|fuel IH]; intros page_number search_results_count;
    cbn [search_segment].
  - runs_step.
  - runs_step; [apply runs_search_page|]. destruct a as [response payload].
    runs_step; [runs_step|]. runs_step; [runs_step|].
    runs_step; [apply runs_populate_rows|].
    destruct (additional_pages response); [apply IH|].
    runs_step; [runs_step|]. runs_step; [runs_step | runs_step].
Qed.

Lemma runs_search_repositories fuel search_query created_argument_list
      fork_argument verify log_verification_failures :
  runs (fun _ => True)
       (search_repositories normalize_url network clock
          fill_library_dot_properties fill_library_dot_json repr fuel
          search_query created_argument_list fork_argument verify
          log_verification_failures).
Proof.
  induction created_argument_list as [|created_argument rest IH];
    cbn [search_repositories].
  - runs_step.
  - runs_step; [|exact IH]. apply runs_search_segment.
Qed.

Lemma runs_index_loop fuel libraries : forall last_repository_url,
  runs (fun _ => True)
       (index_loop normalize_url network clock fill_library_dot_properties
          fill_library_dot_json repr fuel libraries last_repository_url).
Proof.
  induction libraries as [|library_data rest IH]; intros last;
    cbn [index_loop].
  - runs_step.
  - runs_step; [runs_step|].
    destruct a; try runs_step.
    destruct (String.eqb s last); [apply IH|].
    runs_step; [runs_step|].
    runs_step; [|apply IH].
    destruct a as [request|]; [|runs_step].
    runs_step; [apply runs_api_response | apply runs_populate_row].
Qed.

Lemma runs_process_library_manager_index fuel json_data :
  runs (fun _ => True)
       (process_library_manager_index normalize_url network clock
          fill_library_dot_properties fill_library_dot_json repr fuel
          json_data).
Proof.
  unfold process_library_manager_index.
  runs_step; [runs_step|]. runs_step; [runs_step | apply runs_index_loop].
Qed.

Lemma runs_populate_table fuel :
  runs (fun _ => True)
       (populate_table normalize_url network clock
          fill_library_dot_properties fill_library_dot_json repr fuel).
Proof.
  unfold populate_table.
  runs_step.
  { apply runs_of_scans, scan_keeps_lift_net, open_get_json_from_url.
    - intros token seconds. exact I.
    - intros token url. apply token_confined_request. }
  runs_step; [runs_step|].
  runs_step; [apply runs_process_library_manager_index|].
  runs_step; [apply runs_search_repositories|].
  runs_step; apply runs_search_repositories.
Qed.

End WholeRun.

(** X15. In a whole run of [populate_table], however it ends, an
    Authorization header is only ever sent to a URL that starts with
    [https://api.github.com], it carries the token that was set, and the
    token is not changed; none is sent when no token was set. *)
Theorem populate_table_confines_token
        (normalize_url : string -> string)
        (network : nat -> string -> list (string * string) -> outcome)
        (clock : nat -> Z)
        (fill_library_dot_properties : string -> row -> row)
        (fill_library_dot_json : json -> row -> result row)
        (repr : json -> string) (fuel : nat) (w : World) :
  net_frame token_confined (net w)
    (net (snd (populate_table normalize_url network clock
                 fill_library_dot_properties fill_library_dot_json repr
                 fuel w))).
Proof.
  destruct (populate_table _ _ _ _ _ _ _ w) as [r w'] eqn:H.
  apply runs_populate_table in H. exact (proj1 (proj1 H)).
Qed.

(** X16. A whole run of [populate_table], however it ends, only appends to
    the table and to the list of failed verifications: the heading and the
    rows and entries that were there stay as they are, in their places,
    and every cell of a row it appends is as the clean-up leaves it and
    holds no tab. *)
Theorem populate_table_only_appends
        (normalize_url : string -> string)
        (network : nat -> string -> list (string * string) -> outcome)
        (clock : nat -> Z)
        (fill_library_dot_properties : string -> row -> row)
        (fill_library_dot_json : json -> row -> result row)
        (repr : json -> string) (fuel : nat) (w : World) :
  let w' := snd (populate_table normalize_url network clock
                   fill_library_dot_properties fill_library_dot_json repr
                   fuel w) in
  (exists rows, table w' = table w ++ rows /\ Forall (Forall clean) rows)
  /\ (exists urls,
        verification_failed_list w' = verification_failed_list w ++ urls).
Proof.
  cbv zeta.
  destruct (populate_table _ _ _ _ _ _ _ w) as [r w'] eqn:H.
  apply runs_populate_table in H. exact (proj2 (proj2 (proj1 H))).
Qed.

(** X17. The numbers that [create_output_file] reports at the end of a run
    are in order: when the run of [populate_table] starts with no more rows
    under the heading than sources counted as new, no more of those than
    sources not blacklisted, and no more of those than sources, it ends
    so, whether it returns or raises. *)
Theorem populate_table_keeps_tallies_ordered
        (normalize_url : string -> string)
        (network : nat -> string -> list (string * string) -> outcome)
        (clock : nat -> Z)
        (fill_library_dot_properties : string -> row -> row)
        (fill_library_dot_json : json -> row -> result row)
        (repr : json -> string) (fuel : nat) (w : World) :
  tallies_ordered w ->
  tallies_ordered
    (snd (populate_table normalize_url network clock
            fill_library_dot_properties fill_library_dot_json repr fuel w)).
Proof.
  destruct (populate_table _ _ _ _ _ _ _ w) as [r w'] eqn:H.
  apply runs_populate_table in H. exact (proj1 (proj2 (proj1 H))).
Qed.

(* ===================================================================== *)
(** ** The walk over the Library Manager index *)
(* ===================================================================== *)

Lemma bind_ext {S A B : Type} (m : M S A) (k k' : A -> M S B) s :
  (forall a s', k a s' = k' a s') -> bind m k s = bind m k' s.
Proof.
  intros H. unfold bind. destruct (m s) as [[a|e|] s']; auto.
Qed.

(** One turn of the loop for an entry whose repository is the string
    [repository_url]. *)
Lemma index_loop_turn
      (normalize_url : string -> string)
      (network : nat -> string -> list (string * string) -> outcome)
      (clock : nat -> Z)
      (fill_library_dot_properties : string -> row -> row)
      (fill_library_dot_json : json -> row -> result row)
      (repr : json -> string) (fuel : nat) (library_data : json)
      (rest : list json) (repository_url last_repository_url : string)
      (w : World) :
  subscript library_data "repository" = Ok (JStr repository_url) ->
  index_loop normalize_url network clock fill_library_dot_properties
    fill_library_dot_json repr fuel (library_data :: rest)
    last_repository_url w
  = if String.eqb repository_url last_repository_url then
      index_loop normalize_url network clock fill_library_dot_properties
        fill_library_dot_json repr fuel rest last_repository_url w
    else
      (request <- lift_result (library_manager_request repository_url) ;;
       match request with
       | Some request =>
           fetched <- api_response normalize_url network clock fuel
                        request "" 1 ;;
           populate_row normalize_url network clock
             fill_library_dot_properties fill_library_dot_json repr
             fuel (json_data fetched) true false false
       | None => ret tt
       end ;;;
       index_loop normalize_url network clock fill_library_dot_properties
         fill_library_dot_json repr fuel rest repository_url) w.
Proof.
  intros H. cbn [index_loop]. unfold bind at 1. unfold lift_result at 1.
  rewrite H. destruct (String.eqb repository_url last_repository_url);
    reflexivity.
Qed.

(** X18. An entry of the index with the repository URL of the entry
    before it is passed over: with it or without it the walk does the
    same, so the releases of one library cost one request. *)
Theorem index_loop_passes_over_repeated_url
        (normalize_url : string -> string)
        (network : nat -> string -> list (string * string) -> outcome)
        (clock : nat -> Z)
        (fill_library_dot_properties : string -> row -> row)
        (fill_library_dot_json : json -> row -> result row)
        (repr : json -> string) (fuel : nat)
        (library_data next_library_data : json) (rest : list json)
        (repository_url last_repository_url : string) (w : World) :
  subscript library_data "repository" = Ok (JStr repository_url) ->
  subscript next_library_data "repository" = Ok (JStr repository_url) ->
  index_loop normalize_url network clock fill_library_dot_properties
    fill_library_dot_json repr fuel
    (library_data :: next_library_data :: rest) last_repository_url w
  = index_loop normalize_url network clock fill_library_dot_properties
      fill_library_dot_json repr fuel
      (library_data :: rest) last_repository_url w.
Proof.
  intros Ha Hb.
  rewrite (index_loop_turn _ _ _ _ _ _ _ _ (next_library_data :: rest)
             _ _ _ Ha).
  rewrite (index_loop_turn _ _ _ _ _ _ _ _ rest _ _ _ Ha).
  destruct (String.eqb repository_url last_repository_url) eqn:E.
  - rewrite (index_loop_turn _ _ _ _ _ _ _ _ _ _ _ _ Hb). now rewrite E.
  - apply bind_ext. intros request s. apply bind_ext. intros _ s'.
    rewrite (index_loop_turn _ _ _ _ _ _ _ _ _ _ _ _ Hb).
    now rewrite String.eqb_refl.
Qed.

(** X19. An index whose repositories are all on hosts other than
    github.com is walked without a request and without a change of the
    world. *)
Theorem index_loop_ignores_other_hosts
        (normalize_url : string -> string)
        (network : nat -> string -> list (string * string) -> outcome)
        (clock : nat -> Z)
        (fill_library_dot_properties : string -> row -> row)
        (fill_library_dot_json : json -> row -> result row)
        (repr : json -> string) (fuel : nat) (libraries : list json)
        (last_repository_url : string) (w : World) :
  Forall (fun library_data =>
            exists repository_url,
              subscript library_data "repository" = Ok (JStr repository_url)
              /\ library_manager_request repository_url = Ok None)
         libraries ->
  index_loop normalize_url network clock fill_library_dot_properties
    fill_library_dot_json repr fuel libraries last_repository_url w
  = (Ok tt, w).
Proof.
  intros H. revert last_repository_url.
  induction H as [|library_data rest (url & Hu & Hr) _ IH]; intros last.
  - reflexivity.
  - rewrite (index_loop_turn _ _ _ _ _ _ _ _ _ _ _ _ Hu).
    destruct (String.eqb url last); [apply IH|].
    unfold bind at 1. unfold lift_result at 1. rewrite Hr.
    unfold bind at 1. cbn [ret]. apply IH.
Qed.

(** *** The request made for a repository URL *)

Lemma split_no_separator c s :
  without_char c s = true -> PyStr.split s c = [s].
Proof.
  unfold PyStr.split, without_char.
  induction s as [|d s IH]; cbn; [reflexivity|].
  intros H. apply andb_true_iff in H as [Hd Hs].
  apply negb_true_iff in Hd. rewrite Hd, (IH Hs). reflexivity.
Qed.

Lemma split_at_separator c s rest :
  without_char c s = true ->
  PyStr.split (s ++ String c rest)%string c = s :: PyStr.split rest c.
Proof.
  unfold PyStr.split, without_char.
  induction s as [|d s IH]; cbn.
  - intros _. now rewrite Ascii.eqb_refl.
  - intros H. apply andb_true_iff in H as [Hd Hs].
    apply negb_true_iff in Hd. rewrite Hd, (IH Hs). reflexivity.
Qed.

Lemma take_app_length s t :
  PyStr.take (String.length s) (s ++ t)%string = s.
Proof. induction s as [|c s IH]; cbn; [reflexivity | now rewrite IH]. Qed.

Lemma without_last_four_git name :
  without_last_four (name ++ ".git")%string = name.
Proof.
  unfold without_last_four.
  replace (String.length (name ++ ".git") - 4)%nat with (String.length name).
  - apply take_app_length.
  - rewrite append_length. cbn. lia.
Qed.

(** X20. For the URL [https://github.com/OWNER/NAME] of an entry of the
    index, with no slash in OWNER or NAME, the request is for
    [repos/OWNER/] followed by NAME without its last four characters,
    whatever they are: [repos/OWNER/REPO] when NAME is REPO.git. *)
Theorem library_manager_request_of_github_url (owner name : string) :
  without_char "/" owner = true -> without_char "/" name = true ->
  library_manager_request
    ("https://github.com/" ++ owner ++ "/" ++ name)%string
  = Ok (Some ("repos/" ++ owner ++ "/" ++ without_last_four name)%string)
  /\ forall repository,
       name = (repository ++ ".git")%string ->
       library_manager_request
         ("https://github.com/" ++ owner ++ "/" ++ name)%string
       = Ok (Some ("repos/" ++ owner ++ "/" ++ repository)%string).
Proof.
  intros Ho Hn.
  assert (H : library_manager_request
                ("https://github.com/" ++ owner ++ "/" ++ name)%string
              = Ok (Some ("repos/" ++ owner ++ "/"
                          ++ without_last_four name)%string)).
  { unfold library_manager_request.
    change ("https://github.com/" ++ owner ++ "/" ++ name)%string
      with ("https:" ++ String "/" ("" ++ String "/" ("github.com"
            ++ String "/" (owner ++ String "/" name))))%string.
    rewrite !split_at_separator, split_no_separator
      by (assumption || reflexivity).
    reflexivity. }
  split; [exact H|].
  intros repository ->. rewrite H. now rewrite without_last_four_git.
Qed.

(* ===================================================================== *)
(** ** What library.properties can write into a row *)
(* ===================================================================== *)

Lemma set_cell_in_range column value : forall row_list,
  (column < length row_list)%nat ->
  exists row_list', set_cell column value row_list = Ok row_list'.
Proof.
  induction column as [|column IH]; intros [|c rest] H; cbn in *; try lia.
  - now eexists.
  - destruct (IH rest ltac:(lia)) as [rest' ->]. now eexists.
Qed.

Lemma set_cell_length column value : forall row_list row_list',
  set_cell column value row_list = Ok row_list' ->
  length row_list' = length row_list.
Proof.
  induction column as [|column IH]; intros [|c rest] row_list' H; cbn in *;
    try discriminate.
  - inversion H. reflexivity.
  - destruct (set_cell column value rest) eqn:E; try discriminate.
    inversion H. cbn. f_equal. eapply IH. exact E.
Qed.

Lemma set_cell_written column value : forall row_list row_list',
  set_cell column value row_list = Ok row_list' ->
  cell column row_list' = value.
Proof.
  unfold cell.
  induction column as [|column IH]; intros [|c rest] row_list' H; cbn in *;
    try discriminate.
  - inversion H. reflexivity.
  - destruct (set_cell column value rest) eqn:E; try discriminate.
    inversion H. cbn. eapply IH. exact E.
Qed.

Lemma set_cell_elsewhere column value other : forall row_list row_list',
  set_cell column value row_list = Ok row_list' ->
  other <> column ->
  cell other row_list' = cell other row_list.
Proof.
  unfold cell. revert other.
  induction column as [|column IH]; intros other [|c rest] row_list' H Hne;
    cbn in *; try discriminate.
  - inversion H. destruct other; [congruence | reflexivity].
  - destruct (set_cell column value rest) eqn:E; try discriminate.
    inversion H. destruct other; [reflexivity|]. cbn.
    eapply IH; [exact E | congruence].
Qed.

(** The columns the chain over the field name can give. *)
Lemma library_properties_column_range field_name column :
  library_properties_column field_name = Some column ->
  (Column.library_manager_name <= column
   <= Column.library_manager_architectures)%nat.
Proof.
  unfold library_properties_column.
  repeat match goal with
         | |- context [if ?c then _ else _] => destruct c
         end;
    intros H; inversion H; cbv; lia.
Qed.

Lemma assignment_range line column field_value :
  assignment line = Some (column, field_value) ->
  (Column.library_manager_name <= column
   <= Column.library_manager_architectures)%nat.
Proof.
  unfold assignment. destruct (split_first "=" line) as [[name v]|];
    [|discriminate].
  destruct (library_properties_column (strip name)) eqn:E; [|discriminate].
  intros H. inversion H; subst. eapply library_properties_column_range.
  exact E.
Qed.

Lemma read_properties_lines_frame lines : forall row_list,
  (Column.library_manager_architectures < length row_list)%nat ->
  exists row_list',
    read_properties_lines lines row_list = Ok row_list'
    /\ length row_list' = length row_list
    /\ forall column,
         (column < Column.library_manager_name
          \/ Column.library_manager_architectures < column)%nat ->
         cell column row_list' = cell column row_list.
Proof.
  induction lines as [|line rest IH]; intros row_list Hlen;
    cbn [read_properties_lines].
  - exists row_list. auto.
  - destruct (assignment line) as [[column field_value]|] eqn:Ea;
      [|now apply IH].
    pose proof (assignment_range _ _ _ Ea) as Hr.
    destruct (set_cell_in_range column field_value row_list ltac:(lia))
      as [row1 H1].
    rewrite H1.
    pose proof (set_cell_length _ _ _ _ H1) as Hl1.
    destruct (IH row1 ltac:(lia)) as (row' & Hrun & Hl & Hc).
    exists row'. split; [exact Hrun|]. split; [congruence|].
    intros other Ho. rewrite (Hc other Ho).
    eapply set_cell_elsewhere; [exact H1 | lia].
Qed.

(** X21. From a row with all its columns the fields of library.properties
    are read without an exception, whatever the text of the file, and only
    the nine Library Manager columns can change: the row keeps its length
    and every other cell. *)
Theorem read_library_properties_writes_its_columns
        (text : string) (row_list : row) :
  length row_list = Column.count ->
  exists row_list',
    read_library_properties text row_list = Ok row_list'
    /\ length row_list' = Column.count
    /\ forall column,
         (column < Column.library_manager_name
          \/ Column.library_manager_architectures < column)%nat ->
         cell column row_list' = cell column row_list.
Proof.
  intros Hlen. unfold read_library_properties.
  destruct (read_properties_lines_frame (splitlines text) row_list)
    as (row' & Hrun & Hl & Hc).
  - rewrite Hlen. cbv. lia.
  - exists row'. split; [exact Hrun|]. split; [congruence | exact Hc].
Qed.

(** *** The last assignment of a field *)

Lemma read_properties_lines_app lines : forall more row_list,
  read_properties_lines (lines ++ more) row_list
  = match read_properties_lines lines row_list with
    | Ok row_list' => read_properties_lines more row_list'
    | Raise e => Raise e
    | Diverge => Diverge
    end.
Proof.
  induction lines as [|line rest IH]; intros more row_list; cbn; [reflexivity|].
  destruct (assignment line) as [[column field_value]|]; [|apply IH].
  destruct (set_cell column field_value row_list); [apply IH | reflexivity..].
Qed.

(** [n] spaces *)
Fixpoint spaces (n : nat) : string :=
  match n with
  | O => ""
  | S n' => String " " (spaces n')
  end.

Lemma lstrip_spaces n s : lstrip (spaces n ++ s) = lstrip s.
Proof. induction n as [|n IH]; cbn; [reflexivity | exact IH]. Qed.

Lemma rstrip_only_spaces n : rstrip (spaces n) = ""%string.
Proof. induction n as [|n IH]; cbn; [reflexivity | now rewrite IH]. Qed.

Lemma rstrip_spaces n s : rstrip (s ++ spaces n) = rstrip s.
Proof.
  induction s as [|c s IH]; cbn [append rstrip].
  - apply rstrip_only_spaces.
  - now rewrite IH.
Qed.

Lemma split_first_at sep before after :
  without_char sep before = true ->
  split_first sep (before ++ String sep after) = Some (before, after).
Proof.
  unfold without_char.
  induction before as [|c before IH]; cbn.
  - intros _. now rewrite Ascii.eqb_refl.
  - intros H. apply andb_true_iff in H as [Hc Hb].
    apply negb_true_iff in Hc. rewrite Ascii.eqb_sym in Hc.
    rewrite Hc, (IH Hb). reflexivity.
Qed.

Lemma forallb_string_app (f : ascii -> bool) s t :
  forallb f (list_ascii_of_string (s ++ t))
  = forallb f (list_ascii_of_string s) && forallb f (list_ascii_of_string t).
Proof.
  induction s as [|c s IH]; cbn; [reflexivity|].
  now rewrite IH, andb_assoc.
Qed.

Lemma forallb_spaces (f : ascii -> bool) n :
  f " "%char = true -> forallb f (list_ascii_of_string (spaces n)) = true.
Proof. intros H. induction n as [|n IH]; cbn; [reflexivity | now rewrite H]. Qed.

Lemma string_append_assoc (a b c : string) :
  ((a ++ b) ++ c)%string = (a ++ b ++ c)%string.
Proof. induction a as [|d a IH]; cbn; [reflexivity | now rewrite IH]. Qed.

(** The nine field names. *)
Definition library_properties_fields : list string :=
  ["name"; "version"; "author"; "maintainer"; "sentence"; "paragraph";
   "category"; "url"; "architectures"].

Lemma library_properties_column_field field_name column :
  library_properties_column field_name = Some column ->
  In field_name library_properties_fields.
Proof.
  unfold library_properties_column, library_properties_fields.
  repeat match goal with
         | |- context [if String.eqb ?a ?b then _ else _] =>
             let E := fresh "E" in
             destruct (String.eqb a b) eqn:E;
             [apply String.eqb_eq in E; subst; intros _; cbn;
              repeat (first [left; reflexivity | right])|]
         end.
  intros H; discriminate.
Qed.

(** A line [KEY=VALUE] for one of the nine fields, with spaces around the
    key, assigns VALUE as it stands. *)
Lemma assignment_of_field before after field_name column field_value :
  library_properties_column field_name = Some column ->
  assignment (spaces before ++ field_name ++ spaces after ++ "="
              ++ field_value)%string
  = Some (column, field_value).
Proof.
  intros Hc. pose proof (library_properties_column_field _ _ Hc) as Hin.
  unfold assignment.
  replace (spaces before ++ field_name ++ spaces after ++ "=" ++ field_value)%string
    with ((spaces before ++ field_name ++ spaces after)
          ++ String "=" field_value)%string
    by (rewrite !string_append_assoc; reflexivity).
  rewrite split_first_at.
  - assert (Hs : strip (spaces before ++ field_name ++ spaces after)
                 = field_name).
    { unfold strip. rewrite lstrip_spaces.
      assert (Hl : lstrip (field_name ++ spaces after)
                   = (field_name ++ spaces after)%string)
        by (cbn in Hin; repeat destruct Hin as [<- | Hin];
            try reflexivity; destruct Hin).
      rewrite Hl, rstrip_spaces.
      cbn in Hin; repeat destruct Hin as [<- | Hin];
        try reflexivity; destruct Hin. }
    rewrite Hs, Hc. reflexivity.
  - unfold without_char. rewrite !forallb_string_app.
    rewrite !forallb_spaces by reflexivity.
    cbn in Hin; repeat destruct Hin as [<- | Hin];
      try reflexivity; destruct Hin.
Qed.

(** X22. The last line of library.properties, as [splitlines] gives it
    (the file may end in a line boundary or not, and may be this one line),
    when it is [KEY=VALUE] for one of the nine fields, with or without
    spaces around the key, decides the cell of the field: it holds VALUE as
    it stands, further [=] and leading spaces included, whatever the lines
    before assigned. *)
Theorem read_library_properties_last_assignment
        (text : string) (earlier : list string)
        (field_name field_value : string) (before after column : nat)
        (row_list : row) :
  splitlines text
  = earlier ++ [(spaces before ++ field_name ++ spaces after ++ "="
                 ++ field_value)%string] ->
  library_properties_column field_name = Some column ->
  length row_list = Column.count ->
  exists row_list',
    read_library_properties text row_list = Ok row_list'
    /\ cell column row_list' = field_value.
Proof.
  intros Hlines Hc Hlen. unfold read_library_properties.
  rewrite Hlines, read_properties_lines_app.
  destruct (read_properties_lines_frame earlier row_list)
    as (row1 & -> & Hl1 & _); [rewrite Hlen; cbv; lia|].
  cbn [read_properties_lines].
  rewrite (assignment_of_field _ _ _ _ _ Hc).
  pose proof (library_properties_column_range _ _ Hc) as Hr.
  destruct (set_cell_in_range column field_value row1) as [row' H'].
  { rewrite Hl1, Hlen. cbv in Hr |- *. lia. }
  rewrite H'. exists row'. split; [reflexivity|].
  eapply set_cell_written. exact H'.
Qed.

(* ===================================================================== *)
(** ** Looking for the metadata files *)
(* ===================================================================== *)

Section MetadataFiles.

Variable normalize_url : string -> string.
Variable network : nat -> string -> list (string * string) -> outcome.
Variable clock : nat -> Z.
Variable fill_library_dot_properties : string -> row -> row.
Variable fill_library_dot_json : json -> row -> result row.

(** The state after one open of [url]. *)
Definition opened_once (url : string) (s : Net) : Net :=
  count_open (log_event (Urlopen url (request_headers url (github_token s))) s).

Lemma attempt_undecodable url s url_data msg :
  network (opens s) url (request_headers url (github_token s))
  = Opened url_data ->
  body url_data = Undecodable msg ->
  attempt network url s
  = (Raise (Exn "JSONDecodeError" msg), opened_once url s).
Proof.
  intros Hn Hb. unfold attempt, bind, gets, urlopen.
  rewrite Hn, Hb. reflexivity.
Qed.

Lemma attempt_failed url s exception :
  network (opens s) url (request_headers url (github_token s))
  = Failed exception ->
  attempt network url s = (Raise exception, opened_once url s).
Proof.
  intros Hn. unfold attempt, bind, gets, urlopen. rewrite Hn. reflexivity.
Qed.

(** A failure that is not retried ends the fetch at once. *)
Lemma get_json_from_url_permanent fuel url s exception s' :
  attempt network (normalize_url url) s = (Raise exception, s') ->
  is_retryable exception = false ->
  get_json_from_url normalize_url network clock fuel url s
  = (Raise exception, s').
Proof.
  intros Ha Hr. unfold get_json_from_url, get_json_from_url_with.
  cbn [get_json_loop]. unfold try_except. rewrite Ha.
  unfold determine_urlopen_retry. rewrite Hr. reflexivity.
Qed.

Lemma parse_library_dot_json_raised fuel folder repository_object row_list
      url s exception s' :
  raw_file_url repository_object (folder ++ "/library.json")%string = Ok url ->
  get_json_from_url normalize_url network clock fuel url s
  = (Raise exception, s') ->
  parse_library_dot_json normalize_url network clock fill_library_dot_json
    fuel folder repository_object row_list s
  = if String.eqb (exn_class exception) "JSONDecodeError"
    then (Ok (true, row_list), s')
    else if String.eqb (exn_class exception) "HTTPError"
            || String.eqb (exn_class exception) "TimeoutError"
    then (Ok (false, row_list), s')
    else (Raise exception, s').
Proof.
  intros Hu Hf. unfold parse_library_dot_json.
  unfold bind at 1. unfold lift_result at 1. rewrite Hu.
  unfold bind at 1. unfold try_except. unfold bind at 1. rewrite Hf.
  destruct (String.eqb (exn_class exception) "JSONDecodeError");
    [reflexivity|].
  destruct (_ || _); reflexivity.
Qed.

Lemma parse_properties_loop_returns fuel url row_list iterations : forall s,
  remaining_core s <> 0%Z -> remaining_search s <> 0%Z ->
  exists found row_list' s',
    parse_properties_loop normalize_url network clock
      fill_library_dot_properties (S fuel) url row_list iterations s
    = (Ok (found, row_list'), s')
    /\ (opens s' <= opens s + iterations)%nat
    /\ (found = false -> row_list' = row_list).
Proof.
  induction iterations as [|n IH]; intros s Hc Hs; cbn [parse_properties_loop].
  - exists false, row_list, s. split; [reflexivity|].
    split; [cbn; lia | auto].
  - unfold try_except, bind at 1, urlopen.
    destruct (network (opens s) url []) as [url_data|e].
    + cbn [ret]. eexists _, _, _. split; [reflexivity|].
      split; [cbn; lia | discriminate].
    + unfold determine_urlopen_retry. destruct (is_retryable e).
      * unfold bind at 1. unfold bind at 1.
        rewrite recheck_with_budget by assumption.
        unfold bind at 1. cbn [time_sleep modify ret].
        destruct (IH (log_event (Sleep urlopen_retry_delay)
                        (count_open (log_event (Urlopen url []) s))))
          as (found & row' & s' & Hrun & Ho & Hf); [assumption..|].
        exists found, row', s'. split; [exact Hrun|].
        split; [cbn in Ho; lia | exact Hf].
      * cbn. eexists _, _, _. split; [reflexivity|].
        split; [cbn; lia | auto].
Qed.

End MetadataFiles.

(** X23. With a count other than 0 cached for both classes,
    [parse_library_dot_properties] returns whatever the network answers: it
    raises nothing of what the opening of the file raises, opens the file
    at most [maximum_urlopen_retries + 1] times, and leaves the row as it is
    when it reports that there is no such file. *)
Theorem parse_library_dot_properties_returns
        (normalize_url : string -> string)
        (network : nat -> string -> list (string * string) -> outcome)
        (clock : nat -> Z)
        (fill_library_dot_properties : string -> row -> row)
        (fuel : nat) (metadata_folder : string) (repository_object : json)
        (row_list : row) (url : string) (s : Net) :
  raw_file_url repository_object
               (metadata_folder ++ "/library.properties")%string = Ok url ->
  remaining_core s <> 0%Z -> remaining_search s <> 0%Z ->
  exists found row_list' s',
    parse_library_dot_properties normalize_url network clock
      fill_library_dot_properties (S fuel) metadata_folder repository_object
      row_list s
    = (Ok (found, row_list'), s')
    /\ (opens s' <= opens s + S maximum_urlopen_retries)%nat
    /\ (found = false -> row_list' = row_list).
Proof.
  intros Hu Hc Hs. unfold parse_library_dot_properties.
  unfold bind at 1. unfold lift_result at 1. rewrite Hu.
  now apply parse_properties_loop_returns.
Qed.

(** X24. A library.json that is there but cannot be decoded counts as
    found, and one that the server refuses with an HTTP error that is not
    retried counts as not found; either way [parse_library_dot_json]
    returns after one open of the file and leaves the row as it is. *)
Theorem parse_library_dot_json_without_content
        (normalize_url : string -> string)
        (network : nat -> string -> list (string * string) -> outcome)
        (clock : nat -> Z)
        (fill_library_dot_json : json -> row -> result row)
        (fuel : nat) (metadata_folder : string) (repository_object : json)
        (row_list : row) (url : string) (s : Net) :
  raw_file_url repository_object
               (metadata_folder ++ "/library.json")%string = Ok url ->
  let u := normalize_url url in
  let answer := network (opens s) u (request_headers u (github_token s)) in
  let run := parse_library_dot_json normalize_url network clock
               fill_library_dot_json fuel metadata_folder repository_object
               row_list s in
  (forall url_data msg,
     answer = Opened url_data -> body url_data = Undecodable msg ->
     run = (Ok (true, row_list), opened_once u s))
  /\ (forall msg,
        answer = Failed (Exn "HTTPError" msg) ->
        is_retryable (Exn "HTTPError" msg) = false ->
        run = (Ok (false, row_list), opened_once u s)).
Proof.
  intros Hu u answer run. subst u answer run. split.
  - intros url_data msg Hn Hb.
    erewrite parse_library_dot_json_raised; [|exact Hu|].
    2:{ apply get_json_from_url_permanent.
        - eapply attempt_undecodable; eassumption.
        - reflexivity. }
    reflexivity.
  - intros msg Hn Hr.
    erewrite parse_library_dot_json_raised; [|exact Hu|].
    2:{ apply get_json_from_url_permanent.
        - eapply attempt_failed; eassumption.
        - exact Hr. }
    reflexivity.
Qed.

(* ===================================================================== *)
(** ** The contributor count *)
(* ===================================================================== *)

Lemma try_except_classes_raises {S A : Type} (m : M S A) classes (a : A)
      s e s' :
  try_except_classes m classes (fun _ => ret a) s = (Raise e, s') ->
  existsb (String.eqb (exn_class e)) classes = false.
Proof.
  unfold try_except_classes, try_except.
  destruct (m s) as [[x|e0|] s1]; try discriminate.
  destruct (existsb (String.eqb (exn_class e0)) classes) eqn:E;
    [discriminate|].
  intros H. inversion H; subst. exact E.
Qed.

Lemma try_except_classes_bound {S A : Type} (m : M S A) classes (a : A)
      (J : S -> Prop) s r s' :
  try_except_classes m classes (fun _ => ret a) s = (r, s') ->
  (forall r0 s0, m s = (r0, s0) -> r0 <> Diverge /\ J s0) ->
  r <> Diverge /\ J s'.
Proof.
  unfold try_except_classes, try_except. intros H Hm.
  destruct (m s) as [[x|e0|] s1] eqn:E; destruct (Hm _ _ eq_refl) as [Hd HJ].
  - inversion H; subst. split; [discriminate | exact HJ].
  - destruct (existsb _ classes); inversion H; subst;
      (split; [discriminate | exact HJ]).
  - congruence.
Qed.

Lemma str_field_never_diverges obj key : str_field obj key <> Diverge.
Proof.
  unfold str_field, subscript. destruct obj; try discriminate.
  destruct (lookup key d) as [v|]; [destruct v|]; discriminate.
Qed.

(** The URL of the contributors of a repository, one to a page. *)
Definition contributors_request (full_name : string) : string :=
  ("https://api.github.com/repos/" ++ full_name
   ++ "/contributors?per_page=1")%string.

(** X25. With a count other than 0 cached for both classes,
    [get_contributor_count] ends after at most
    [maximum_urlopen_retries + 1] opens, and it raises neither a
    JSONDecodeError nor a TimeoutError: when the fetch of the contributors
    raises one of the two, it returns the empty string, in the state the
    fetch left. *)
Theorem get_contributor_count_absorbs
        (normalize_url : string -> string)
        (network : nat -> string -> list (string * string) -> outcome)
        (clock : nat -> Z) (fuel : nat) (repository_object : json)
        (s s' : Net) (r : result string) :
  remaining_core s <> 0%Z -> remaining_search s <> 0%Z ->
  get_contributor_count normalize_url network clock (S fuel)
                        repository_object s = (r, s') ->
  r <> Diverge
  /\ (opens s' <= opens s + S maximum_urlopen_retries)%nat
  /\ (forall e, r = Raise e ->
        exn_class e <> "JSONDecodeError" /\ exn_class e <> "TimeoutError")
  /\ (forall full_name e s1,
        str_field repository_object "full_name" = Ok full_name ->
        get_json_from_url normalize_url network clock (S fuel)
                          (contributors_request full_name) s
        = (Raise e, s1) ->
        exn_class e = "JSONDecodeError" \/ exn_class e = "TimeoutError" ->
        r = Ok ""%string /\ s' = s1).
Proof.
  intros Hc Hs H. unfold get_contributor_count in H.
  unfold bind at 1 in H.
  rewrite check_rate_limiting_cached in H by exact Hc.
  assert (Hb : r <> Diverge
               /\ (opens s' <= opens s + S maximum_urlopen_retries)%nat).
  { eapply (try_except_classes_bound _ _ _
              (fun s0 => (opens s0 <= opens s + S maximum_urlopen_retries)%nat));
      [exact H|].
    intros r0 s0 H0. unfold bind at 1 in H0. unfold lift_result at 1 in H0.
    destruct (str_field repository_object "full_name")
      as [full_name|e|] eqn:Efn.
    - unfold bind at 1 in H0.
      destruct (get_json_from_url _ _ _ _ _ s) as [[fetched|e|] s1] eqn:Hf;
        unfold get_json_from_url, get_json_from_url_with in Hf;
        apply get_json_loop_bounded in Hf as (Hd & Ho & _);
        try assumption; inversion H0; subst;
        (split; [congruence || discriminate | exact Ho]).
    - inversion H0; subst. split; [discriminate | lia].
    - now apply str_field_never_diverges in Efn. }
  destruct Hb as [Hd Ho]. split; [exact Hd|]. split; [exact Ho|]. split.
  - intros e ->. apply try_except_classes_raises in H.
    cbn [existsb] in H. rewrite orb_false_r in H.
    apply orb_false_iff in H as [H1 H2].
    split; [now apply String.eqb_neq in H1 | now apply String.eqb_neq in H2].
  - intros full_name e s1 Hfn Hf Hclass.
    unfold try_except_classes, try_except in H.
    unfold bind at 1 in H. unfold lift_result at 1 in H. rewrite Hfn in H.
    unfold bind at 1 in H. unfold contributors_request in Hf.
    rewrite Hf in H. cbn [existsb] in H.
    assert (Hb : String.eqb (exn_class e) "JSONDecodeError"
                 || (String.eqb (exn_class e) "TimeoutError" || false) = true).
    { destruct Hclass as [-> | ->]; reflexivity. }
    rewrite Hb in H. cbn [ret] in H. inversion H. split; reflexivity.
Qed.

(* ===================================================================== *)
(** ** Further worked scenarios *)
(* ===================================================================== *)

(** *** Listings *)

Lemma find_library_ignores_listing_order_witness :
  find_library [FolderItem "Talkie.h" "file"; FolderItem "main.ino" "file";
                FolderItem "examples" "dir"] true
  = find_library [FolderItem "examples" "dir"; FolderItem "Talkie.h" "file";
                  FolderItem "main.ino" "file"] true.
Proof.
  apply find_library_ignores_listing_order.
  apply Permutation_sym.
  apply (Permutation_cons_append
           [FolderItem "Talkie.h" "file"; FolderItem "main.ino" "file"]
           (FolderItem "examples" "dir")).
Defined.

Lemma find_library_verification_only_rejects_witness :
  find_library [FolderItem "Talkie.h" "file"; FolderItem "keywords.txt" "file";
                FolderItem "main.ino" "file"] false
  = Found.
Proof.
  apply find_library_verification_only_rejects. vm_compute. reflexivity.
Defined.

(** *** Fetches *)

Lemma get_json_from_url_caches_remaining_witness :
  exists url_data n headers,
    contributors_server n (plain_url contributors_url) headers
    = Opened url_data
    /\ body url_data = Decoded (json_data contributors_fetched)
    /\ forall value api,
         X_RateLimit_Remaining url_data = Some value ->
         api_of_url (plain_url contributors_url) = Some api ->
         remaining api
           (snd (get_json_from_url plain_url contributors_server frozen_clock
                                   0 contributors_url fresh_net))
         = value.
Proof.
  apply (get_json_from_url_caches_remaining
           plain_url contributors_server frozen_clock 0 contributors_url
           fresh_net
           (snd (get_json_from_url plain_url contributors_server frozen_clock
                                   0 contributors_url fresh_net))
           contributors_fetched).
  vm_compute. reflexivity.
Defined.

Definition gateway_run : result fetch_result * Net :=
  get_json_from_url plain_url gateway_down frozen_clock 1
                    "http://example.org/index.json" fresh_net.

Lemma get_json_from_url_opens_at_most_witness :
  fst gateway_run <> Diverge
  /\ (opens (snd gateway_run) <= opens fresh_net + S maximum_urlopen_retries)%nat
  /\ ticks (snd gateway_run) = ticks fresh_net.
Proof.
  apply (get_json_from_url_opens_at_most
           plain_url gateway_down frozen_clock 0
           "http://example.org/index.json" fresh_net (snd gateway_run)
           (fst gateway_run)).
  - discriminate.
  - discriminate.
  - vm_compute. reflexivity.
Defined.

(** *** Rows *)

Lemma populate_row_lists_or_logs_witness :
  source_count (snd (offer blinker_url headed_world))
  = (source_count headed_world + 1)%Z
  /\ ((table (snd (offer blinker_url headed_world)) = table headed_world
       /\ verification_failed_list (snd (offer blinker_url headed_world))
          = verification_failed_list headed_world)
      \/ ((exists row_list,
             table (snd (offer blinker_url headed_world))
             = table headed_world ++ [row_list]
             /\ Forall clean row_list)
          /\ verification_failed_list (snd (offer blinker_url headed_world))
             = verification_failed_list headed_world)
      \/ (table (snd (offer blinker_url headed_world)) = table headed_world
          /\ verification_failed_list (snd (offer blinker_url headed_world))
             = verification_failed_list headed_world ++ [blinker_url]
          /\ false = true /\ false = true)).
Proof.
  apply (populate_row_lists_or_logs
           plain_url blinker_server frozen_clock keep_row keep_row_json
           repr_unused 1 (blinker blinker_url) false false false blinker_url
           headed_world (snd (offer blinker_url headed_world))
           (fst (offer blinker_url headed_world))).
  - reflexivity.
  - vm_compute. reflexivity.
Defined.

(** A repository named after the platform. *)
Definition sketchbook : json :=
  JDict [("html_url", JStr "https://github.com/someone/Arduino");
         ("name", JStr "Arduino");
         ("topics", JList [JStr "arduino"])].

Lemma populate_row_skips_blacklisted_witness :
  populate_row plain_url gateway_down frozen_clock keep_row keep_row_json
               repr_unused 0 sketchbook false true true headed_world
  = (Ok tt, count_source headed_world).
Proof.
  apply (populate_row_skips_blacklisted
           plain_url gateway_down frozen_clock keep_row keep_row_json
           repr_unused 0 sketchbook false true
           "https://github.com/someone/Arduino" headed_world).
  - reflexivity.
  - exists "Arduino". split; [reflexivity|]. left. vm_compute. reflexivity.
Defined.

Definition listed_once : World := snd (offer blinker_url headed_world).

Lemma populate_row_drops_duplicate_witness :
  offer blinker_url listed_once
  = (Ok tt, count_non_blacklisted (count_source listed_once)).
Proof.
  apply (populate_row_drops_duplicate
           plain_url blinker_server frozen_clock keep_row keep_row_json
           repr_unused 1 (blinker blinker_url) false false false blinker_url
           listed_once).
  - reflexivity.
  - left. reflexivity.
  - vm_compute. right. left. reflexivity.
  - vm_compute. repeat constructor; discriminate.
Defined.

(** *** The whole run against a server that is down *)

Lemma populate_table_keeps_tallies_ordered_witness :
  tallies_ordered
    (snd (populate_table plain_url gateway_down frozen_clock keep_row
                         keep_row_json repr_unused 1 headed_world)).
Proof.
  apply (populate_table_keeps_tallies_ordered
           plain_url gateway_down frozen_clock keep_row keep_row_json
           repr_unused 1 headed_world).
  unfold tallies_ordered. cbn. lia.
Defined.

(** *** Entries of the Library Manager index *)

Definition release (version repository : string) : json :=
  JDict [("name", JStr "Blinker"); ("version", JStr version);
         ("repository", JStr repository)].

Definition blinker_git : string := "https://github.com/someone/blinker.git".

Lemma index_loop_passes_over_repeated_url_witness :
  index_loop plain_url blinker_server frozen_clock keep_row keep_row_json
             repr_unused 1
             [release "1.0.0" blinker_git; release "1.1.0" blinker_git]
             "" headed_world
  = index_loop plain_url blinker_server frozen_clock keep_row keep_row_json
               repr_unused 1 [release "1.0.0" blinker_git] "" headed_world.
Proof.
  apply (index_loop_passes_over_repeated_url
           plain_url blinker_server frozen_clock keep_row keep_row_json
           repr_unused 1 (release "1.0.0" blinker_git)
           (release "1.1.0" blinker_git) [] blinker_git "" headed_world).
  - reflexivity.
  - reflexivity.
Defined.

Lemma index_loop_ignores_other_hosts_witness :
  index_loop plain_url gateway_down frozen_clock keep_row keep_row_json
             repr_unused 0
             [release "1.0.0" "https://gitlab.com/someone/blinker.git";
              release "2.0.0" "https://bitbucket.org/someone/winker.git"]
             "" headed_world
  = (Ok tt, headed_world).
Proof.
  apply index_loop_ignores_other_hosts.
  repeat constructor; eexists; (split; [reflexivity|]); vm_compute; reflexivity.
Defined.

Lemma library_manager_request_of_github_url_witness :
  library_manager_request "https://github.com/arduino-libraries/Servo.git"
  = Ok (Some "repos/arduino-libraries/Servo").
Proof.
  apply (proj2 (library_manager_request_of_github_url
                  "arduino-libraries" "Servo.git" eq_refl eq_refl)
               "Servo" eq_refl).
Defined.

(** *** A library.properties *)

Definition blank_row : row := repeat "" Column.count.

Definition properties_text : string :=
  "name=Blinker" ++ String line_feed
  ("# blinks" ++ String line_feed
  ("url=https://example.org/?q=blinker" ++ String line_feed "")).

Lemma read_library_properties_writes_its_columns_witness :
  exists row_list',
    read_library_properties properties_text blank_row = Ok row_list'
    /\ length row_list' = Column.count
    /\ forall column,
         (column < Column.library_manager_name
          \/ Column.library_manager_architectures < column)%nat ->
         cell column row_list' = cell column blank_row.
Proof.
  apply (read_library_properties_writes_its_columns properties_text blank_row).
  reflexivity.
Defined.

(** The file of a Windows editor: the last line ends in a carriage return
    and a line feed. *)
Definition properties_text_crlf : string :=
  properties_text
  ++ "name = Winker=2" ++ String carriage_return (String line_feed "").

Lemma read_library_properties_last_assignment_witness :
  (exists row_list',
     read_library_properties properties_text_crlf blank_row = Ok row_list'
     /\ cell Column.library_manager_name row_list' = " Winker=2")
  /\ (exists row_list',
        read_library_properties "version=1.0.0" blank_row = Ok row_list'
        /\ cell Column.library_manager_version row_list' = "1.0.0").
Proof.
  split.
  - apply (read_library_properties_last_assignment
             properties_text_crlf
             ["name=Blinker"; "# blinks"; "url=https://example.org/?q=blinker"]
             "name" " Winker=2" 0 1 Column.library_manager_name blank_row).
    + reflexivity.
    + reflexivity.
    + reflexivity.
  - apply (read_library_properties_last_assignment
             "version=1.0.0" [] "version" "1.0.0" 0 0
             Column.library_manager_version blank_row).
    + reflexivity.
    + reflexivity.
    + reflexivity.
Defined.

(** *** Metadata files that are not there *)

Lemma parse_library_dot_properties_returns_witness :
  exists found row_list' s',
    parse_library_dot_properties plain_url gateway_down frozen_clock keep_row
      1 "/" (blinker blinker_url) blank_row fresh_net
    = (Ok (found, row_list'), s')
    /\ (opens s' <= opens fresh_net + S maximum_urlopen_retries)%nat
    /\ (found = false -> row_list' = blank_row).
Proof.
  apply (parse_library_dot_properties_returns
           plain_url gateway_down frozen_clock keep_row 0 "/"
           (blinker blinker_url) blank_row
           "https://raw.githubusercontent.com/someone/blinker/master///library.properties"
           fresh_net).
  - reflexivity.
  - discriminate.
  - discriminate.
Defined.

Definition unreadable : response :=
  Response "{" (Undecodable "Expecting property name") None None.

Definition unreadable_server (n : nat) (url : string)
           (headers : list (string * string)) : outcome :=
  Opened unreadable.

Definition blinker_library_json : string :=
  "https://raw.githubusercontent.com/someone/blinker/master///library.json".

Lemma parse_library_dot_json_without_content_witness :
  parse_library_dot_json plain_url unreadable_server frozen_clock
    keep_row_json 0 "/" (blinker blinker_url) blank_row fresh_net
  = (Ok (true, blank_row), opened_once blinker_library_json fresh_net).
Proof.
  apply (proj1 (parse_library_dot_json_without_content
                  plain_url unreadable_server frozen_clock keep_row_json 0
                  "/" (blinker blinker_url) blank_row blinker_library_json
                  fresh_net eq_refl)
               unreadable "Expecting property name").
  - reflexivity.
  - reflexivity.
Defined.

Lemma find_library_without_files_witness :
  find_library [FolderItem "src" "dir"; FolderItem "examples" "dir";
                FolderItem "vendor" "submodule"] true = Inconclusive
  /\ find_library [FolderItem "src" "dir"; FolderItem "examples" "dir";
                   FolderItem "vendor" "submodule"] false = NotFound.
Proof.
  apply find_library_without_files.
  repeat constructor; discriminate.
Defined.

Definition contributors_run : result string * Net :=
  get_contributor_count plain_url gateway_down frozen_clock 1
                        (blinker blinker_url) fresh_net.

(** Against the server that is down the fetch gives up with TimeoutError,
    and the count is the empty string. *)
Lemma get_contributor_count_absorbs_witness :
  get_json_from_url plain_url gateway_down frozen_clock 1
                    (contributors_request "someone/blinker") fresh_net
  = (Raise TimeoutError, snd contributors_run)
  /\ fst contributors_run = Ok ""
  /\ (fst contributors_run <> Diverge
      /\ (opens (snd contributors_run)
          <= opens fresh_net + S maximum_urlopen_retries)%nat
      /\ (forall e, fst contributors_run = Raise e ->
            exn_class e <> "JSONDecodeError" /\ exn_class e <> "TimeoutError")
      /\ (forall full_name e s1,
            str_field (blinker blinker_url) "full_name" = Ok full_name ->
            get_json_from_url plain_url gateway_down frozen_clock 1
                              (contributors_request full_name) fresh_net
            = (Raise e, s1) ->
            exn_class e = "JSONDecodeError" \/ exn_class e = "TimeoutError" ->
            fst contributors_run = Ok "" /\ snd contributors_run = s1)).
Proof.
  split; [vm_compute; reflexivity|]. split; [vm_compute; reflexivity|].
  apply (get_contributor_count_absorbs
           plain_url gateway_down frozen_clock 0 (blinker blinker_url)
           fresh_net (snd contributors_run) (fst contributors_run)).
  - discriminate.
  - discriminate.
  - vm_compute. reflexivity.
Defined.
